(** * Rocket-rover data cubes: the network and transport layers

    A shallow embedding of [cube/common/network.c] and of the stop-and-wait
    transport layer ([transport.c], stored in the same file), together with
    the data-link glue of [cube/common/data_link.c].

    Conventions.
    - A C array of bytes is a [list Z] of cells; a cell holds the bit pattern
      of the byte as a number in [0, 256).
    - C integers are [Z]; every narrowing conversion the source performs is
      written out ([byte_of_int], [uint16_of_int]).
    - The radio is the environment: what the receive primitive hands back is
      an input script (a list), what is transmitted is an output trace.
      A receive on an exhausted script blocks, which is the outcome
      [Blocked]. *)

From stdpp Require Import base list.
From Stdlib Require Import ZArith Lia.

Open Scope Z_scope.

(** ** Constants *)

(** From [common/trx.h]. *)
Definition TRX_PAYLOAD_LENGTH : Z := 32.

(** Modelled from the spec: [networking_constants.h] is missing from the
    repository snapshot; section 6 of the specification fixes the values
    (FRAME_HEADER_LEN = 1, PACKET_HEADER_LEN = 3, MAX_PACKET_LEN = 31,
    MAX_SEGMENT_LEN = 28, header lengths SOM = 7, DATA = 7 + payload,
    EOM = 5, ACK = 5, identifiers SOM = 0x07, DATA = 0x0D, EOM = 0x09,
    ACK = 0x0A). The identifiers agree with the comments of transport.c. *)
Definition FRAME_HEADER_LEN : Z := 1.
Definition PACKET_HEADER_LEN : Z := 3.
Definition MAX_PACKET_LEN : Z := TRX_PAYLOAD_LENGTH - FRAME_HEADER_LEN.
Definition MAX_SEGMENT_LEN : Z := MAX_PACKET_LEN - PACKET_HEADER_LEN.
Definition START_SEGMENT_HEADER_LEN : Z := 7.
Definition DATA_SEGMENT_HEADER_LEN : Z := 7.
Definition END_SEGMENT_HEADER_LEN : Z := 5.
Definition ACK_SEGMENT_HEARDER_LEN : Z := 5.
Definition SEGID_START_OF_MESSAGE : Z := 0x07.
Definition SEGID_DATA : Z := 0x0D.
Definition SEGID_END_OF_MESSAGE : Z := 0x09.
Definition SEGID_ACK : Z := 0x0A.

(** From transport.c. *)
Definition TRANSPORT_TX_ACK_TIMEOUT_MS : Z := 1500.
Definition TRANSPORT_TX_ACK_DELAY_MS : Z := 250.
Definition TRANSPORT_TX_SEGMENT_SPACING_MS : Z := 250.
Definition TRANSPORT_TX_RETRY_DELAY_MS : Z := 250.
Definition TRANSPORT_TX_ATTEMPT_LIMIT : Z := 10.

(** ** Machine integers and byte arrays *)

(** Conversion of an integer to an 8-bit object ([byte], or a [char] cell
    seen as its bit pattern). *)
Definition byte_of_int (z : Z) : Z := z mod 256.

(** Conversion to [uint16_t]. *)
Definition uint16_of_int (z : Z) : Z := z mod 65536.

(** Reading a cell through the type [char]. Whether plain [char] is signed
    is the compiler's choice (avr-gcc: signed unless -funsigned-char), so it
    is a parameter of the functions that read [char]s. *)
Definition char_of_byte (char_is_signed : bool) (b : Z) : Z :=
  if char_is_signed && (128 <=? b) then b - 256 else b.

(** [a[i]]. A read outside the array is undefined in C; the model reads 0. *)
Definition load (a : list Z) (i : Z) : Z :=
  if i <? 0 then 0 else default 0 (a !! Z.to_nat i).

(** [a[i] = v] for a value [v] that already is a byte. A store outside the
    array is undefined in C; the model leaves the array alone. *)
Definition store (a : list Z) (i v : Z) : list Z :=
  if i <? 0 then a else <[Z.to_nat i := v]> a.

(** [for (i = i0; cond; i++) body], with the loop counter as a mathematical
    integer. Returns the final counter and state. [fuel] bounds the number
    of iterations; every use below passes a bound the condition enforces. *)
Fixpoint for_loop {S : Type} (fuel : nat) (cond : Z -> S -> bool)
    (body : Z -> S -> S) (i : Z) (s : S) : Z * S :=
  match fuel with
  | O => (i, s)
  | Datatypes.S fuel' =>
      if cond i s then for_loop fuel' cond body (i + 1) (body i s)
      else (i, s)
  end.

(** What a blocking call yields on a finite input script. *)
Inductive outcome (A : Type) : Type :=
  | Returned (a : A)
  | Blocked.
Arguments Returned {A} a.
Arguments Blocked {A}.

(** ** Data-link layer (data_link.c, the variant network.c is written for) *)

(** One call of [trx_transmit_payload(addr, payload, TRX_PAYLOAD_LENGTH)]. *)
Record trx_transmission : Type := Trx_transmit {
  trx_addr : Z;
  trx_frame : list Z
}.

(** [data_link_rx(buffer, buf_len)] once [trx_receive_payload] has filled
    [rxframe]: the frame body is copied to [buffer]. [buf_len] has type
    [byte]: the definition is that of the code for [0 <= buf_len < 256],
    which is what its callers pass and what the theorems assume. *)
Definition data_link_rx (rxframe buffer : list Z) (buf_len : Z) : list Z :=
  snd (for_loop (Z.to_nat TRX_PAYLOAD_LENGTH)
         (fun i _ => (i <? buf_len) && (i <? TRX_PAYLOAD_LENGTH - FRAME_HEADER_LEN))
         (fun i buffer => store buffer i (load rxframe (i + FRAME_HEADER_LEN)))
         0 buffer).

(** [data_link_tx(payload, payload_len, addr)]. [payload_len] has type
    [byte]: the definition is that of the code for
    [0 <= payload_len < 256]; [network_tx] passes [byte_of_int] of its
    packet length, and the theorems on other calls assume the bound. *)
Definition data_link_tx (payload : list Z) (payload_len addr : Z)
    : trx_transmission :=
  let payload_zero_pad := replicate (Z.to_nat TRX_PAYLOAD_LENGTH) 0 in
  let payload_zero_pad := store payload_zero_pad 0 payload_len in
  let payload_zero_pad :=
    snd (for_loop (Z.to_nat TRX_PAYLOAD_LENGTH)
           (fun i _ => (i <? payload_len) && (i <? TRX_PAYLOAD_LENGTH - FRAME_HEADER_LEN))
           (fun i pad => store pad (i + FRAME_HEADER_LEN) (load payload i))
           0 payload_zero_pad) in
  Trx_transmit addr payload_zero_pad.

(** ** Network layer (network.c) *)

Section Network.

(** Per-node configuration ([address.h], [address_resolution.c]) and the
    compiler's choice for [char]. *)
Variable MY_NETWORK_ADDR : Z.
Variable resolve_data_link_addr : Z -> Z.
Variable char_is_signed : bool.
(** [next_hop] returns an uninitialised local for an unknown address. *)
Variable next_hop_uninitialised : Z.

Definition next_hop (final_addr : Z) : Z :=
  if final_addr =? 0x0A then 0x0B
  else if final_addr =? 0x0B then 0x0B
  else if final_addr =? 0x0C then 0x0B
  else if final_addr =? 0x0D then 0x0B
  else next_hop_uninitialised.

(** The packet [network_tx] assembles in its local array
    [char packet[packet_len]], and the final value of the copy loop's
    counter, which is the number of payload bytes copied. The array is
    uninitialised in C; its cells start at 0 here. An array of
    [payload_len + 3] cells with the three header cells written needs
    [0 <= payload_len]: for a negative [payload_len] the C function is
    undefined, and nothing is proved from this definition there. *)
Definition network_tx_packet (payload : list Z)
    (payload_len dest_network_addr src_network_addr : Z) : Z * list Z :=
  let packet_len := payload_len + PACKET_HEADER_LEN in
  let packet := replicate (Z.to_nat packet_len) 0 in
  let packet := store packet 0 (byte_of_int packet_len) in
  let packet := store packet 1 (byte_of_int dest_network_addr) in
  let packet := store packet 2 (byte_of_int src_network_addr) in
  for_loop (Z.to_nat MAX_PACKET_LEN)
    (fun i _ => (i <? payload_len) && (i <? MAX_PACKET_LEN - PACKET_HEADER_LEN))
    (fun i packet => store packet (i + PACKET_HEADER_LEN) (load payload i))
    0 packet.

(** [network_tx(payload, payload_len, dest_network_addr, src_network_addr)]:
    the transmission it hands to the transceiver. *)
Definition network_tx (payload : list Z)
    (payload_len dest_network_addr src_network_addr : Z) : trx_transmission :=
  let packet_len := payload_len + PACKET_HEADER_LEN in
  let packet := snd (network_tx_packet payload payload_len
                       dest_network_addr src_network_addr) in
  let next_hop_addr := next_hop dest_network_addr in
  data_link_tx packet (byte_of_int packet_len)
    (resolve_data_link_addr next_hop_addr).

(** What [network_rx] hands back: the caller's buffer and the returned
    length. *)
Record network_rx_return : Type := Network_rx_return {
  nrx_buffer : list Z;
  nrx_len : Z;
}.

(** [network_rx(buffer, buf_len)]. [frames] is what successive calls of
    [trx_receive_payload] deliver; [packet] is the local packet array,
    carried through the do-while loop; [sent] collects the transmissions. *)
Fixpoint network_rx_loop (frames : list (list Z)) (packet : list Z)
    (buffer : list Z) (buf_len : Z) (sent : list trx_transmission)
    : outcome network_rx_return * list trx_transmission * list (list Z) :=
  match frames with
  | [] => (Blocked, sent, [])
  | rxframe :: frames' =>
      let packet := data_link_rx rxframe packet MAX_PACKET_LEN in
      let packet_len := char_of_byte char_is_signed (load packet 0) in
      let dest := char_of_byte char_is_signed (load packet 1) in
      let src := char_of_byte char_is_signed (load packet 2) in
      if negb (dest =? MY_NETWORK_ADDR) then
        network_rx_loop frames' packet buffer buf_len
          (sent ++ [network_tx packet packet_len dest src])
      else
        let buffer :=
          snd (for_loop (Z.to_nat buf_len)
                 (fun i _ => (i <? packet_len - PACKET_HEADER_LEN) && (i <? buf_len))
                 (fun i buffer => store buffer i (load packet (i + PACKET_HEADER_LEN)))
                 0 buffer) in
        (Returned (Network_rx_return buffer (packet_len - PACKET_HEADER_LEN)),
         sent, frames')
  end.

Definition network_rx (frames : list (list Z)) (buffer : list Z) (buf_len : Z) :=
  network_rx_loop frames (replicate (Z.to_nat MAX_PACKET_LEN) 0) buffer buf_len [].

End Network.

(** ** Transport layer (transport.c) *)

(** What the transport layer does to the world, in order. *)
Inductive effect : Type :=
  | Delay_ms (ms : Z)
  | Network_tx (payload : list Z)
      (payload_len dest_network_addr src_network_addr : Z).

(** The transport layer calls the three-argument
    [network_rx(buffer, buf_len, timeout_ms)]; network.c holds the older
    two-argument variant only. The call is the environment of this model:
    one event per call, giving the returned [network_rx_result] and, on
    success, the contents of the caller's buffer when the call returns. *)
Inductive network_rx_event : Type :=
  | Network_rx_success (buffer : list Z)
  | Network_rx_timeout
  | Network_rx_error.

Inductive rx_state_t : Type := RXST_Idle | RXST_Receiving.

Inductive transport_attempt_rx_result : Type :=
  | TRANSPORT_ATTEMPT_RX_SUCCESS
  | TRANSPORT_ATTEMPT_RX_OUTDATED
  | TRANSPORT_ATTEMPT_RX_TIMEOUT
  | TRANSPORT_ATTEMPT_RX_ERROR.

Inductive transport_keep_trying_to_rx_result : Type :=
  | TRANSPORT_KEEP_TRYING_TO_RX_SUCCESS
  | TRANSPORT_KEEP_TRYING_TO_RX_TIMEOUT
  | TRANSPORT_KEEP_TRYING_TO_RX_ERROR.

Inductive transport_rx_result : Type :=
  | TRANSPORT_RX_SUCCESS
  | TRANSPORT_RX_TIMEOUT
  | TRANSPORT_RX_ERROR.

Inductive transport_attempt_tx_result : Type :=
  | TRANSPORT_ATTEMPT_TX_SUCCESS
  | TRANSPORT_ATTEMPT_TX_TRANSMIT_FAILED
  | TRANSPORT_ATTEMPT_TX_NOT_ACKNOWLEDGED
  | TRANSPORT_ATTEMPT_TX_OLD_ACK
  | TRANSPORT_ATTEMPT_TX_NOT_AN_ACK
  | TRANSPORT_ATTEMPT_TX_ERROR.

Inductive transport_keep_trying_to_tx_result : Type :=
  | TRANSPORT_KEEP_TRYING_TO_TX_SUCCESS
  | TRANSPORT_KEEP_TRYING_TO_TX_REACHED_ATTEMPT_LIMIT
  | TRANSPORT_KEEP_TRYING_TO_TX_ERROR.

Inductive transport_tx_result : Type :=
  | TRANSPORT_TX_SUCCESS
  | TRANSPORT_TX_REACHED_ATTEMPT_LIMIT
  | TRANSPORT_TX_ERROR.

(** [x == 0 ? 1 : 0], the way both sides advance a sequence number. *)
Definition advance_seq (x : Z) : Z := if x =? 0 then 1 else 0.

(** [segment[5] << 8 + segment[6]] as C parses it: [+] binds tighter than
    [<<]. The shift is the mathematical one and the conversion to
    [uint16_t] cuts it to 16 bits. C leaves a shift by the width of [int]
    or more undefined ([int] has 16 bits on the AVR): the definition is
    that of the code for [load segment 6 < 8], a shift by 8 to 15, and
    what the code stores for a larger count is not given by it. *)
Definition message_len_of_segment (segment : list Z) : Z :=
  uint16_of_int (Z.shiftl (load segment 5) (8 + load segment 6)).

(** [(segment[5] << 8) + segment[6]], converted to [uint16_t]. *)
Definition offset_of_segment (segment : list Z) : Z :=
  uint16_of_int (Z.shiftl (load segment 5) 8 + load segment 6).

(** What one call of [transport_attempt_rx] leaves behind. *)
Record attempt_rx_return : Type := Attempt_rx_return {
  arx_result : transport_attempt_rx_result;
  arx_rx_seq : Z;
  arx_segment : list Z;
  arx_effects : list effect
}.

(** What [transport_keep_trying_to_rx] leaves behind. *)
Record keep_trying_to_rx_return : Type := Keep_trying_to_rx_return {
  krx_result : outcome transport_keep_trying_to_rx_result;
  krx_rx_seq : Z;
  krx_segment : list Z;
  krx_trace : list effect;
  krx_inbox : list network_rx_event
}.

(** The variables of [transport_rx] and of the receiver: [rx_seq] is the
    [static] of [transport_attempt_rx]; [rx_stores] logs every store
    [buffer[index] = value] in program order; the two out-parameters are
    [None] for a NULL pointer and [Some v] for a pointee holding [v]. *)
Record rx_machine : Type := Rx_machine {
  rx_state : rx_state_t;
  rx_seq : Z;
  rx_segment : list Z;
  rx_buffer : list Z;
  rx_stores : list (Z * Z);
  rx_message_len : option Z;
  rx_source_port : option Z;
  rx_trace : list effect
}.

Record transport_rx_return : Type := Transport_rx_return {
  trx_result : outcome transport_rx_result;
  trx_machine : rx_machine;
  trx_inbox : list network_rx_event
}.

(** [if (p != NULL) *p = v;] *)
Definition assign_if_not_null (p : option Z) (v : Z) : option Z :=
  match p with
  | None => None
  | Some _ => Some v
  end.

(** What [transport_keep_trying_to_tx] and [transport_tx] leave behind. *)
Record tx_return (R : Type) : Type := Tx_return {
  tx_result : outcome R;
  tx_trace : list effect;
  tx_inbox : list network_rx_event
}.
Arguments Tx_return {R} _ _ _.
Arguments tx_result {R} _.
Arguments tx_trace {R} _.
Arguments tx_inbox {R} _.

Section Transport.

(** Per-node configuration ([address.h], [address_resolution.c]).
    [MY_PORT] is a port number, a byte. *)
Variable MY_PORT : Z.
Variable MY_NETWORK_ADDR : Z.
Variable resolve_network_addr : Z -> Z.

(** *** Receiver *)

(** [if (segment[4] == SEGID_START_OF_MESSAGE) rx_seq = segment[1];]: the
    value of [rx_seq] after the first statement that follows a successful
    [network_rx], which is the expected sequence number the segment is then
    checked against. *)
Definition synchronise_rx_seq (rx_seq : Z) (segment : list Z) : Z :=
  if load segment 4 =? SEGID_START_OF_MESSAGE then load segment 1 else rx_seq.

(** [transport_attempt_rx(segment, buf_len, timeout_ms)], given the value
    of its static [rx_seq] and what its call of [network_rx] does. *)
Definition transport_attempt_rx (rx_seq : Z) (segment : list Z)
    (ev : network_rx_event) : attempt_rx_return :=
  match ev with
  | Network_rx_timeout =>
      Attempt_rx_return TRANSPORT_ATTEMPT_RX_TIMEOUT rx_seq segment []
  | Network_rx_error =>
      Attempt_rx_return TRANSPORT_ATTEMPT_RX_ERROR rx_seq segment []
  | Network_rx_success segment =>
      let rx_seq := synchronise_rx_seq rx_seq segment in
      let ack_seg := replicate (Z.to_nat ACK_SEGMENT_HEARDER_LEN) 0 in
      let ack_seg := store ack_seg 0 ACK_SEGMENT_HEARDER_LEN in
      let ack_seg := store ack_seg 1 (if load segment 1 =? 0 then 1 else 0) in
      let ack_seg := store ack_seg 2 (load segment 3) in
      let ack_seg := store ack_seg 3 MY_PORT in
      let ack_seg := store ack_seg 4 SEGID_ACK in
      let effects :=
        [Delay_ms TRANSPORT_TX_ACK_DELAY_MS;
         Network_tx ack_seg ACK_SEGMENT_HEARDER_LEN
           (resolve_network_addr (load segment 3)) MY_NETWORK_ADDR] in
      if negb (rx_seq =? load segment 1) then
        Attempt_rx_return TRANSPORT_ATTEMPT_RX_OUTDATED rx_seq segment effects
      else
        let rx_seq := if rx_seq =? 0 then 1 else 0 in
        Attempt_rx_return TRANSPORT_ATTEMPT_RX_SUCCESS rx_seq segment effects
  end.

(** [transport_keep_trying_to_rx]: each turn of its [while(true)] makes
    one call of [network_rx], so the loop recurs on the input script. *)
Fixpoint transport_keep_trying_to_rx (rx_seq : Z) (segment : list Z)
    (trace : list effect) (inbox : list network_rx_event)
    : keep_trying_to_rx_return :=
  match inbox with
  | [] => Keep_trying_to_rx_return Blocked rx_seq segment trace []
  | ev :: inbox' =>
      let a := transport_attempt_rx rx_seq segment ev in
      let trace := trace ++ arx_effects a in
      match arx_result a with
      | TRANSPORT_ATTEMPT_RX_SUCCESS =>
          Keep_trying_to_rx_return
            (Returned TRANSPORT_KEEP_TRYING_TO_RX_SUCCESS)
            (arx_rx_seq a) (arx_segment a) trace inbox'
      | TRANSPORT_ATTEMPT_RX_OUTDATED =>
          transport_keep_trying_to_rx (arx_rx_seq a) (arx_segment a) trace inbox'
      | TRANSPORT_ATTEMPT_RX_TIMEOUT =>
          Keep_trying_to_rx_return
            (Returned TRANSPORT_KEEP_TRYING_TO_RX_TIMEOUT)
            (arx_rx_seq a) (arx_segment a) trace inbox'
      | TRANSPORT_ATTEMPT_RX_ERROR =>
          transport_keep_trying_to_rx (arx_rx_seq a) (arx_segment a) trace inbox'
      end
  end.

(** The DATA branch of [transport_rx]: the copy into the caller's buffer.
    [i] and [offset] are [uint16_t], so on the 16-bit target [i + offset]
    is computed modulo 2^16. *)
Definition transport_rx_copy_data (segment : list Z) (buf_len : Z)
    (buffer : list Z) (stores : list (Z * Z)) : list Z * list (Z * Z) :=
  let segment_len := load segment 0 in
  let offset := offset_of_segment segment in
  let payload_len := byte_of_int (segment_len - DATA_SEGMENT_HEADER_LEN) in
  snd (for_loop 256
         (fun i _ => (i <? payload_len) && (uint16_of_int (i + offset) <? buf_len))
         (fun i bs =>
            let v := load segment (i + DATA_SEGMENT_HEADER_LEN) in
            (store (fst bs) (uint16_of_int (i + offset)) v,
             snd bs ++ [(uint16_of_int (i + offset), v)]))
         0 (buffer, stores)).

(** The [while(true)] of [transport_rx]. Every turn consumes at least one
    event of the script, so [fuel] above the script's length is never
    used up (lemma [transport_rx_loop_run]); the branch for no fuel is
    there for the definition to be total. *)
Fixpoint transport_rx_loop (fuel : nat) (buf_len : Z) (m : rx_machine)
    (inbox : list network_rx_event) : transport_rx_return :=
  match fuel with
  | O => Transport_rx_return Blocked m inbox
  | S fuel' =>
      let k := transport_keep_trying_to_rx (rx_seq m) (rx_segment m)
                 (rx_trace m) inbox in
      let m := Rx_machine (rx_state m) (krx_rx_seq k) (krx_segment k)
                 (rx_buffer m) (rx_stores m) (rx_message_len m)
                 (rx_source_port m) (krx_trace k) in
      match krx_result k with
      | Blocked => Transport_rx_return Blocked m (krx_inbox k)
      | Returned TRANSPORT_KEEP_TRYING_TO_RX_TIMEOUT =>
          Transport_rx_return (Returned TRANSPORT_RX_TIMEOUT) m (krx_inbox k)
      | Returned TRANSPORT_KEEP_TRYING_TO_RX_ERROR =>
          Transport_rx_return (Returned TRANSPORT_RX_ERROR) m (krx_inbox k)
      | Returned TRANSPORT_KEEP_TRYING_TO_RX_SUCCESS =>
          let segment := rx_segment m in
          let segment_identifier := load segment 4 in
          match rx_state m with
          | RXST_Idle =>
              if segment_identifier =? SEGID_START_OF_MESSAGE then
                let source_port :=
                  assign_if_not_null (rx_source_port m) (load segment 3) in
                let message_len :=
                  assign_if_not_null (rx_message_len m)
                    (message_len_of_segment segment) in
                transport_rx_loop fuel' buf_len
                  (Rx_machine RXST_Receiving (rx_seq m) segment (rx_buffer m)
                     (rx_stores m) message_len source_port (rx_trace m))
                  (krx_inbox k)
              else transport_rx_loop fuel' buf_len m (krx_inbox k)
          | RXST_Receiving =>
              if segment_identifier =? SEGID_DATA then
                let bs := transport_rx_copy_data segment buf_len
                            (rx_buffer m) (rx_stores m) in
                transport_rx_loop fuel' buf_len
                  (Rx_machine RXST_Receiving (rx_seq m) segment (fst bs)
                     (snd bs) (rx_message_len m) (rx_source_port m) (rx_trace m))
                  (krx_inbox k)
              else if segment_identifier =? SEGID_END_OF_MESSAGE then
                Transport_rx_return (Returned TRANSPORT_RX_SUCCESS)
                  (Rx_machine RXST_Idle (rx_seq m) segment (rx_buffer m)
                     (rx_stores m) (rx_message_len m) (rx_source_port m)
                     (rx_trace m))
                  (krx_inbox k)
              else if segment_identifier =? SEGID_START_OF_MESSAGE then
                let message_len :=
                  assign_if_not_null (rx_message_len m)
                    (message_len_of_segment segment) in
                transport_rx_loop fuel' buf_len
                  (Rx_machine RXST_Receiving (rx_seq m) segment (rx_buffer m)
                     (rx_stores m) message_len (rx_source_port m) (rx_trace m))
                  (krx_inbox k)
              else transport_rx_loop fuel' buf_len m (krx_inbox k)
          end
      end
  end.

(** The zeroing loop that opens [transport_rx]. Its counter is an [int]
    compared with the [uint16_t buf_len]; it is a mathematical integer
    here, which is what C gives while [buf_len] does not exceed
    [INT_MAX]. *)
Definition transport_rx_zero (buffer : list Z) (buf_len : Z)
    : list Z * list (Z * Z) :=
  snd (for_loop (Z.to_nat buf_len)
         (fun i _ => i <? buf_len)
         (fun i bs => (store (fst bs) i 0, snd bs ++ [(i, 0)]))
         0 (buffer, [])).

(** [transport_rx(buffer, buf_len, message_len, source_port, timeout_ms)],
    entered with the receiver's static [rx_seq]. *)
Definition transport_rx (rx_seq : Z) (buffer : list Z) (buf_len : Z)
    (message_len source_port : option Z) (inbox : list network_rx_event)
    : transport_rx_return :=
  let bs := transport_rx_zero buffer buf_len in
  transport_rx_loop (S (length inbox)) buf_len
    (Rx_machine RXST_Idle rx_seq (replicate (Z.to_nat MAX_SEGMENT_LEN) 0)
       (fst bs) (snd bs) message_len source_port [])
    inbox.

(** *** Transmitter *)

(** The classification that ends [transport_attempt_tx], given what its
    call of [network_rx(hopefully_an_ack, ...)] does. *)
Definition transport_attempt_tx_classify (current_seq_num : Z)
    (ev : network_rx_event) : transport_attempt_tx_result :=
  match ev with
  | Network_rx_timeout => TRANSPORT_ATTEMPT_TX_NOT_ACKNOWLEDGED
  | Network_rx_error => TRANSPORT_ATTEMPT_TX_ERROR
  | Network_rx_success hopefully_an_ack =>
      if negb (load hopefully_an_ack 4 =? SEGID_ACK)
      then TRANSPORT_ATTEMPT_TX_NOT_AN_ACK
      else if load hopefully_an_ack 1 =? current_seq_num
      then TRANSPORT_ATTEMPT_TX_OLD_ACK
      else TRANSPORT_ATTEMPT_TX_SUCCESS
  end.

(** [transport_attempt_tx(segment, segment_len, dest_port,
    current_seq_num)]: it transmits, then waits for an answer. With no
    answer scripted it blocks after the transmission. *)
Definition transport_attempt_tx (segment : list Z)
    (segment_len dest_port current_seq_num : Z) (trace : list effect)
    (inbox : list network_rx_event)
    : tx_return transport_attempt_tx_result :=
  let trace :=
    trace ++ [Network_tx segment segment_len
                (resolve_network_addr dest_port) MY_NETWORK_ADDR] in
  match inbox with
  | [] => Tx_return Blocked trace []
  | ev :: inbox' =>
      Tx_return (Returned (transport_attempt_tx_classify current_seq_num ev))
        trace inbox'
  end.

(** The [while(true)] of [transport_keep_trying_to_tx], entered with the
    current value of [transmit_attempts] (a [uint16_t]). A turn that
    loops back has consumed one event, so the loop recurs on the script. *)
Fixpoint transport_keep_trying_to_tx_loop (transmit_attempts : Z)
    (segment : list Z) (segment_len dest_port current_seq_num : Z)
    (trace : list effect) (inbox : list network_rx_event)
    : tx_return transport_keep_trying_to_tx_result :=
  let transmit_attempts := uint16_of_int (transmit_attempts + 1) in
  if transmit_attempts >? TRANSPORT_TX_ATTEMPT_LIMIT then
    Tx_return (Returned TRANSPORT_KEEP_TRYING_TO_TX_REACHED_ATTEMPT_LIMIT)
      trace inbox
  else
    match inbox with
    | [] =>
        let a := transport_attempt_tx segment segment_len dest_port
                   current_seq_num trace [] in
        Tx_return Blocked (tx_trace a) (tx_inbox a)
    | ev :: inbox' =>
        let a := transport_attempt_tx segment segment_len dest_port
                   current_seq_num trace [ev] in
        match tx_result a with
        | Blocked => Tx_return Blocked (tx_trace a) inbox'
        | Returned TRANSPORT_ATTEMPT_TX_SUCCESS =>
            Tx_return (Returned TRANSPORT_KEEP_TRYING_TO_TX_SUCCESS)
              (tx_trace a) inbox'
        | Returned TRANSPORT_ATTEMPT_TX_ERROR =>
            Tx_return (Returned TRANSPORT_KEEP_TRYING_TO_TX_ERROR)
              (tx_trace a) inbox'
        | Returned _ =>
            transport_keep_trying_to_tx_loop transmit_attempts segment
              segment_len dest_port current_seq_num
              (tx_trace a ++ [Delay_ms TRANSPORT_TX_RETRY_DELAY_MS]) inbox'
        end
    end.

Definition transport_keep_trying_to_tx (segment : list Z)
    (segment_len dest_port current_seq_num : Z) (trace : list effect)
    (inbox : list network_rx_event) :=
  transport_keep_trying_to_tx_loop 0 segment segment_len dest_port
    current_seq_num trace inbox.

(** The end of [transport_tx]: the END_OF_MESSAGE segment. *)
Definition transport_tx_end_of_message (dest_port current_seq_num : Z)
    (segment : list Z) (trace : list effect) (inbox : list network_rx_event)
    : tx_return transport_tx_result :=
  let segment := store segment 0 END_SEGMENT_HEADER_LEN in
  let segment := store segment 1 current_seq_num in
  let segment := store segment 2 dest_port in
  let segment := store segment 3 MY_PORT in
  let segment := store segment 4 SEGID_END_OF_MESSAGE in
  let r := transport_keep_trying_to_tx segment END_SEGMENT_HEADER_LEN
             dest_port current_seq_num trace inbox in
  match tx_result r with
  | Blocked => Tx_return Blocked (tx_trace r) (tx_inbox r)
  | Returned TRANSPORT_KEEP_TRYING_TO_TX_REACHED_ATTEMPT_LIMIT =>
      Tx_return (Returned TRANSPORT_TX_REACHED_ATTEMPT_LIMIT)
        (tx_trace r) (tx_inbox r)
  | Returned TRANSPORT_KEEP_TRYING_TO_TX_ERROR =>
      Tx_return (Returned TRANSPORT_TX_ERROR) (tx_trace r) (tx_inbox r)
  | Returned TRANSPORT_KEEP_TRYING_TO_TX_SUCCESS =>
      Tx_return (Returned TRANSPORT_TX_SUCCESS) (tx_trace r) (tx_inbox r)
  end.

(** The DATA segment one turn of the data loop builds in [segment];
    [this_payload_len], [this_segment_len] and the loop counter [i] are
    [byte]s, [start_address] is a [uint16_t]. Returns
    [this_payload_len], [this_segment_len] and the array. *)
Definition transport_tx_build_data (message : list Z)
    (message_len dest_port bytes_remaining current_seq_num : Z)
    (segment : list Z) : Z * Z * list Z :=
  let this_payload_len :=
    if bytes_remaining >? MAX_SEGMENT_LEN - DATA_SEGMENT_HEADER_LEN
    then byte_of_int (MAX_SEGMENT_LEN - DATA_SEGMENT_HEADER_LEN)
    else byte_of_int bytes_remaining in
  let this_segment_len :=
    byte_of_int (this_payload_len + DATA_SEGMENT_HEADER_LEN) in
  let start_address := uint16_of_int (message_len - bytes_remaining) in
  let segment := store segment 0 this_segment_len in
  let segment := store segment 1 current_seq_num in
  let segment := store segment 2 dest_port in
  let segment := store segment 3 MY_PORT in
  let segment := store segment 4 SEGID_DATA in
  let segment :=
    store segment 5 (byte_of_int (Z.shiftr (Z.land start_address 0xFF00) 8)) in
  let segment :=
    store segment 6 (byte_of_int (Z.shiftr (Z.land start_address 0x00FF) 0)) in
  let segment :=
    snd (for_loop (Z.to_nat this_payload_len)
           (fun i _ => i <? this_payload_len)
           (fun i segment =>
              store segment (i + DATA_SEGMENT_HEADER_LEN)
                (load message (uint16_of_int (i + start_address))))
           0 segment) in
  (this_payload_len, this_segment_len, segment).

(** The data loop of [transport_tx] and what follows it.
    [bytes_remaining] drops by at least one every turn, so [fuel] above
    it is never used up (lemma [transport_tx_data_loop_fuel]); the branch
    for no fuel is there for the definition to be total. *)
Fixpoint transport_tx_data_loop (fuel : nat) (message : list Z)
    (message_len dest_port bytes_remaining current_seq_num : Z)
    (segment : list Z) (trace : list effect) (inbox : list network_rx_event)
    : tx_return transport_tx_result :=
  match fuel with
  | O => Tx_return Blocked trace inbox
  | S fuel' =>
      if bytes_remaining >? 0 then
        let '(this_payload_len, this_segment_len, segment) :=
          transport_tx_build_data message message_len dest_port
            bytes_remaining current_seq_num segment in
        let bytes_remaining :=
          uint16_of_int (bytes_remaining - this_payload_len) in
        let r := transport_keep_trying_to_tx segment this_segment_len
                   dest_port current_seq_num trace inbox in
        match tx_result r with
        | Blocked => Tx_return Blocked (tx_trace r) (tx_inbox r)
        | Returned TRANSPORT_KEEP_TRYING_TO_TX_REACHED_ATTEMPT_LIMIT =>
            Tx_return (Returned TRANSPORT_TX_REACHED_ATTEMPT_LIMIT)
              (tx_trace r) (tx_inbox r)
        | Returned TRANSPORT_KEEP_TRYING_TO_TX_ERROR =>
            Tx_return (Returned TRANSPORT_TX_ERROR) (tx_trace r) (tx_inbox r)
        | Returned TRANSPORT_KEEP_TRYING_TO_TX_SUCCESS =>
            let current_seq_num := if current_seq_num =? 0 then 1 else 0 in
            transport_tx_data_loop fuel' message message_len dest_port
              bytes_remaining current_seq_num segment
              (tx_trace r ++ [Delay_ms TRANSPORT_TX_SEGMENT_SPACING_MS])
              (tx_inbox r)
        end
      else
        transport_tx_end_of_message dest_port current_seq_num segment
          trace inbox
  end.

(** [transport_tx(message, message_len, dest_port)]; [message_len] is a
    [uint16_t]. The local [segment] array is uninitialised in C; its
    cells start at 0 here. *)
Definition transport_tx (message : list Z) (message_len dest_port : Z)
    (inbox : list network_rx_event) : tx_return transport_tx_result :=
  let current_seq_num := 0 in
  let segment := replicate (Z.to_nat MAX_SEGMENT_LEN) 0 in
  let bytes_remaining := message_len in
  let segment := store segment 0 START_SEGMENT_HEADER_LEN in
  let segment := store segment 1 current_seq_num in
  let segment := store segment 2 dest_port in
  let segment := store segment 3 MY_PORT in
  let segment := store segment 4 SEGID_START_OF_MESSAGE in
  let segment :=
    store segment 5 (byte_of_int (Z.shiftr (Z.land message_len 0xFF00) 8)) in
  let segment :=
    store segment 6 (byte_of_int (Z.shiftr (Z.land message_len 0x00FF) 0)) in
  let r := transport_keep_trying_to_tx segment START_SEGMENT_HEADER_LEN
             dest_port current_seq_num [] inbox in
  match tx_result r with
  | Blocked => Tx_return Blocked (tx_trace r) (tx_inbox r)
  | Returned TRANSPORT_KEEP_TRYING_TO_TX_REACHED_ATTEMPT_LIMIT =>
      Tx_return (Returned TRANSPORT_TX_REACHED_ATTEMPT_LIMIT)
        (tx_trace r) (tx_inbox r)
  | Returned TRANSPORT_KEEP_TRYING_TO_TX_ERROR =>
      Tx_return (Returned TRANSPORT_TX_ERROR) (tx_trace r) (tx_inbox r)
  | Returned TRANSPORT_KEEP_TRYING_TO_TX_SUCCESS =>
      let current_seq_num := if current_seq_num =? 0 then 1 else 0 in
      transport_tx_data_loop (S (Z.to_nat bytes_remaining)) message
        message_len dest_port bytes_remaining current_seq_num segment
        (tx_trace r ++ [Delay_ms TRANSPORT_TX_SEGMENT_SPACING_MS])
        (tx_inbox r)
  end.

End Transport.

(** ** Derived views used by the proofs *)

(** The segments a trace puts on the network, in order: for each
    [network_tx(payload, payload_len, ...)] the [payload_len] bytes it is
    told to send. *)
Definition wire_segment (e : effect) : list (list Z) :=
  match e with
  | Network_tx payload payload_len _ _ => [take (Z.to_nat payload_len) payload]
  | Delay_ms _ => []
  end.

Definition wire_segments (trace : list effect) : list (list Z) :=
  concat (map wire_segment trace).

(** [sent_in_order ideal wire]: [wire] is [ideal] with every segment sent
    between 1 and [TRANSPORT_TX_ATTEMPT_LIMIT] times in a row. *)
Inductive sent_in_order : list (list Z) -> list (list Z) -> Prop :=
  | sent_in_order_nil : sent_in_order [] []
  | sent_in_order_cons (segment : list Z) (n : nat) ideal wire :
      (1 <= n <= 10)%nat ->
      sent_in_order ideal wire ->
      sent_in_order (segment :: ideal) (replicate n segment ++ wire).

(** The 16-bit big-endian field at bytes 5 and 6 of a segment, and the
    bytes after the 7-byte header. *)
Definition be16_field (segment : list Z) : Z :=
  load segment 5 * 256 + load segment 6.

Definition segment_payload (segment : list Z) : list Z :=
  drop (Z.to_nat DATA_SEGMENT_HEADER_LEN) segment.

(** One turn of the receiver seen from the script: what a single event does
    to the machine of [transport_rx], and the value returned if the event
    makes [transport_rx] return. Lemma [transport_rx_loop_run] shows that
    [transport_rx_loop] is the iteration [rx_run] of this step. *)
Definition rx_step (MY_PORT MY_NETWORK_ADDR : Z) (resolve_network_addr : Z -> Z)
    (buf_len : Z) (m : rx_machine) (ev : network_rx_event)
    : rx_machine * option transport_rx_result :=
  let a := transport_attempt_rx MY_PORT MY_NETWORK_ADDR resolve_network_addr
             (rx_seq m) (rx_segment m) ev in
  let segment := arx_segment a in
  let m1 := Rx_machine (rx_state m) (arx_rx_seq a) segment (rx_buffer m)
              (rx_stores m) (rx_message_len m) (rx_source_port m)
              (rx_trace m ++ arx_effects a) in
  match arx_result a with
  | TRANSPORT_ATTEMPT_RX_TIMEOUT => (m1, Some TRANSPORT_RX_TIMEOUT)
  | TRANSPORT_ATTEMPT_RX_OUTDATED => (m1, None)
  | TRANSPORT_ATTEMPT_RX_ERROR => (m1, None)
  | TRANSPORT_ATTEMPT_RX_SUCCESS =>
      match rx_state m with
      | RXST_Idle =>
          if load segment 4 =? SEGID_START_OF_MESSAGE then
            (Rx_machine RXST_Receiving (rx_seq m1) segment (rx_buffer m1)
               (rx_stores m1)
               (assign_if_not_null (rx_message_len m1)
                  (message_len_of_segment segment))
               (assign_if_not_null (rx_source_port m1) (load segment 3))
               (rx_trace m1), None)
          else (m1, None)
      | RXST_Receiving =>
          if load segment 4 =? SEGID_DATA then
            let bs := transport_rx_copy_data segment buf_len
                        (rx_buffer m1) (rx_stores m1) in
            (Rx_machine RXST_Receiving (rx_seq m1) segment (fst bs) (snd bs)
               (rx_message_len m1) (rx_source_port m1) (rx_trace m1), None)
          else if load segment 4 =? SEGID_END_OF_MESSAGE then
            (Rx_machine RXST_Idle (rx_seq m1) segment (rx_buffer m1)
               (rx_stores m1) (rx_message_len m1) (rx_source_port m1)
               (rx_trace m1), Some TRANSPORT_RX_SUCCESS)
          else if load segment 4 =? SEGID_START_OF_MESSAGE then
            (Rx_machine RXST_Receiving (rx_seq m1) segment (rx_buffer m1)
               (rx_stores m1)
               (assign_if_not_null (rx_message_len m1)
                  (message_len_of_segment segment))
               (rx_source_port m1) (rx_trace m1), None)
          else (m1, None)
      end
  end.

Fixpoint rx_run (MY_PORT MY_NETWORK_ADDR : Z) (resolve_network_addr : Z -> Z)
    (buf_len : Z) (m : rx_machine) (inbox : list network_rx_event)
    : transport_rx_return :=
  match inbox with
  | [] => Transport_rx_return Blocked m []
  | ev :: inbox' =>
      let s := rx_step MY_PORT MY_NETWORK_ADDR resolve_network_addr buf_len m ev in
      match snd s with
      | Some result => Transport_rx_return (Returned result) (fst s) inbox'
      | None =>
          rx_run MY_PORT MY_NETWORK_ADDR resolve_network_addr buf_len
            (fst s) inbox'
      end
  end.

(** Two machines of [transport_rx] that differ at most in the trace of
    what was transmitted, and two returns of [transport_rx] that hand the
    same things to the caller. *)
Definition same_machine_but_trace (m1 m2 : rx_machine) : Prop :=
  rx_state m1 = rx_state m2 /\
  rx_seq m1 = rx_seq m2 /\
  rx_segment m1 = rx_segment m2 /\
  rx_buffer m1 = rx_buffer m2 /\
  rx_stores m1 = rx_stores m2 /\
  rx_message_len m1 = rx_message_len m2 /\
  rx_source_port m1 = rx_source_port m2.

Definition same_reception (r1 r2 : transport_rx_return) : Prop :=
  trx_result r1 = trx_result r2 /\
  same_machine_but_trace (trx_machine r1) (trx_machine r2).

(** A store [buffer[index] = value] inside a buffer of [buf_len] bytes. *)
Definition store_in_bounds (buf_len : Z) (s : Z * Z) : Prop :=
  0 <= fst s < buf_len.

(** ** Concrete sessions

    Port numbers double as network addresses in these sessions; the
    data-link address of a node repeats its network address four times. *)
Definition example_resolve_network_addr (port : Z) : Z := port.
Definition example_resolve_data_link_addr (addr : Z) : Z := addr * 0x01010101.

(** A one-byte message from port 0x3C to port 0x0A, the wire format of the
    specification and of [transport_tx]: SOM with length 0x0001, one DATA
    segment at offset 0, EOM. *)
Definition example_som : list Z := [7; 0; 0x0A; 0x3C; 0x07; 0; 1].
Definition example_data : list Z := [8; 1; 0x0A; 0x3C; 0x0D; 0; 0; 0x48].
Definition example_eom : list Z := [5; 0; 0x0A; 0x3C; 0x09].
Definition example_session : list network_rx_event :=
  [Network_rx_success example_som; Network_rx_success example_data;
   Network_rx_success example_eom].

(** A sender that announces 256 bytes, starts again and announces 2
    bytes: the second START_OF_MESSAGE reaches the receiver in its
    Receiving state. *)
Definition example_som_256 : list Z := [7; 0; 0x0A; 0x3C; 0x07; 1; 0].
Definition example_som_2 : list Z := [7; 0; 0x0A; 0x3C; 0x07; 0; 2].
Definition example_restart : list network_rx_event :=
  [Network_rx_success example_som_256; Network_rx_success example_som_2].

(** The frame node 0x0B receives when node 0x0A sends [example_som] to
    node 0x0C through it: frame length, then the packet
    [(10, dest 0x0C, src 0x0A)] and the segment, zero-padded. *)
Definition example_foreign_frame : list Z :=
  [10; 10; 0x0C; 0x0A; 7; 0; 0x0C; 0x3C; 0x07; 0; 1] ++ replicate 21 0.

(** The same from node 0x0A to node 0x0B itself. *)
Definition example_own_frame : list Z :=
  [10; 10; 0x0B; 0x0A; 7; 0; 0x0B; 0x3C; 0x07; 0; 1] ++ replicate 21 0.

(** An answer after which [transport_keep_trying_to_tx] tries again:
    one classified NotAcknowledged, NotAnAck or OldAck. *)
Definition tx_retried (current_seq_num : Z) (ev : network_rx_event) : Prop :=
  transport_attempt_tx_classify current_seq_num ev
    = TRANSPORT_ATTEMPT_TX_NOT_ACKNOWLEDGED \/
  transport_attempt_tx_classify current_seq_num ev
    = TRANSPORT_ATTEMPT_TX_NOT_AN_ACK \/
  transport_attempt_tx_classify current_seq_num ev
    = TRANSPORT_ATTEMPT_TX_OLD_ACK.

(** The trace of [n] attempts that were each followed by the retry delay. *)
Definition tx_retries (send : effect) (n : nat) : list effect :=
  concat (replicate n [send; Delay_ms TRANSPORT_TX_RETRY_DELAY_MS]).

(** ** The segments of a message, following the specification

    Section 4.4 of the specification: SOM with sequence number 0 and the
    message length big-endian; then, while [bytes_remaining > 0], a DATA
    segment carrying [min(bytes_remaining, MAX_SEGMENT_LEN -
    DATA_HEADER_LEN)] bytes from offset [message_len - bytes_remaining],
    the sequence number toggling with every segment; then EOM. Here in
    closed form: the [k]-th DATA segment starts with
    [bytes_remaining = message_len - 21 * k]. *)
Definition spec_som (MY_PORT message_len dest_port : Z) : list Z :=
  [START_SEGMENT_HEADER_LEN; 0; dest_port; MY_PORT; SEGID_START_OF_MESSAGE;
   message_len / 256; message_len mod 256].

Definition spec_data_segment (MY_PORT : Z) (message : list Z)
    (message_len dest_port : Z) (k : nat) : list Z :=
  let bytes_remaining :=
    message_len - (MAX_SEGMENT_LEN - DATA_SEGMENT_HEADER_LEN) * Z.of_nat k in
  let payload_len :=
    Z.min bytes_remaining (MAX_SEGMENT_LEN - DATA_SEGMENT_HEADER_LEN) in
  let offset := message_len - bytes_remaining in
  [DATA_SEGMENT_HEADER_LEN + payload_len; if Nat.even k then 1 else 0;
   dest_port; MY_PORT; SEGID_DATA; offset / 256; offset mod 256]
  ++ take (Z.to_nat payload_len) (drop (Z.to_nat offset) message).

Definition spec_data_count (message_len : Z) : nat :=
  Z.to_nat ((message_len + 20) / 21).

Definition spec_data_segments (MY_PORT : Z) (message : list Z)
    (message_len dest_port : Z) : list (list Z) :=
  map (spec_data_segment MY_PORT message message_len dest_port)
    (seq 0 (spec_data_count message_len)).

Definition spec_eom (MY_PORT dest_port : Z) (data_count : nat) : list Z :=
  [END_SEGMENT_HEADER_LEN; if Nat.even data_count then 1 else 0;
   dest_port; MY_PORT; SEGID_END_OF_MESSAGE].

(** A 50-byte message (the bytes 1, ..., 50) sent from port 0x3C to port
    0x0A, and a receiver that acknowledges each of its five segments at
    once. *)
Definition example_message : list Z := map Z.of_nat (seq 1 50).

Definition example_ack (seq_num : Z) : network_rx_event :=
  Network_rx_success [ACK_SEGMENT_HEARDER_LEN; seq_num; 0x3C; 0x0A; SEGID_ACK].

Definition example_acks : list network_rx_event :=
  [example_ack 1; example_ack 0; example_ack 1; example_ack 0; example_ack 1].

(** ** Views of the network layer

    A received frame seen as the receiver sees it: byte 0 is the frame
    length, bytes 1.. are the packet, so byte 2 is the destination. *)

(** The packet [network_rx] finds in its array after [data_link_rx]. *)
Definition frame_packet (rxframe : list Z) : list Z :=
  data_link_rx rxframe (replicate (Z.to_nat MAX_PACKET_LEN) 0) MAX_PACKET_LEN.

(** The frame carries a packet for another node. *)
Definition frame_is_foreign (MY_NETWORK_ADDR : Z) (char_is_signed : bool)
    (rxframe : list Z) : Prop :=
  char_of_byte char_is_signed (load rxframe 2) <> MY_NETWORK_ADDR.

(** [network_rx] can forward the frame: the length byte of its packet,
    read as a [char], is not negative. It is the [payload_len] handed to
    [network_tx], whose array [char packet[payload_len + 3]] takes the
    three header bytes; with a signed [char] and a length byte of 0x80 or
    more the array has no room for them, or no size at all. *)
Definition frame_is_forwardable (char_is_signed : bool) (rxframe : list Z)
    : Prop :=
  0 <= char_of_byte char_is_signed (load (frame_packet rxframe) 0).

(** What [network_rx] transmits for a foreign frame. *)
Definition network_forward (resolve_data_link_addr : Z -> Z)
    (char_is_signed : bool) (next_hop_uninitialised : Z) (rxframe : list Z)
    : trx_transmission :=
  let packet := frame_packet rxframe in
  network_tx resolve_data_link_addr next_hop_uninitialised packet
    (char_of_byte char_is_signed (load packet 0))
    (char_of_byte char_is_signed (load packet 1))
    (char_of_byte char_is_signed (load packet 2)).

(** ** Views of the transport layer *)

(** A call of [network_rx] that hands the segment [w] to the transport
    layer: the caller's array starts with the bytes of [w]; the cells after
    them keep whatever they held. *)
Definition delivers (ev : network_rx_event) (w : list Z) : Prop :=
  match ev with
  | Network_rx_success buffer => take (length w) buffer = w
  | _ => False
  end.

(** What [transport_rx] hands to its caller, apart from the result. *)
Definition rx_handed (m : rx_machine)
    : rx_state_t * Z * list Z * option Z * option Z :=
  (rx_state m, rx_seq m, rx_buffer m, rx_message_len m, rx_source_port m).

(** Answers to the sender of [example_message] when the first
    acknowledgement of its first DATA segment and of its END_OF_MESSAGE
    are lost: those two segments go out twice. *)
Definition example_lossy_acks : list network_rx_event :=
  [example_ack 1; Network_rx_timeout; example_ack 0; example_ack 1;
   example_ack 0; Network_rx_timeout; example_ack 1].

(** The acknowledgement [transport_attempt_rx] answers a segment with, and
    what it does to the world for one call of [network_rx]: on success the
    delay and the acknowledgement, sent to the node of the segment's source
    port; otherwise nothing. *)
Definition ack_segment (MY_PORT : Z) (segment : list Z) : list Z :=
  [ACK_SEGMENT_HEARDER_LEN; advance_seq (load segment 1); load segment 3;
   MY_PORT; SEGID_ACK].

Definition rx_answer (MY_PORT MY_NETWORK_ADDR : Z)
    (resolve_network_addr : Z -> Z) (ev : network_rx_event) : list effect :=
  match ev with
  | Network_rx_success segment =>
      [Delay_ms TRANSPORT_TX_ACK_DELAY_MS;
       Network_tx (ack_segment MY_PORT segment) ACK_SEGMENT_HEARDER_LEN
         (resolve_network_addr (load segment 3)) MY_NETWORK_ADDR]
  | _ => []
  end.

(** What an idle receiver passes over: any segment but a
    START_OF_MESSAGE, and errors of the network layer. *)
Definition passed_over_when_idle (ev : network_rx_event) : Prop :=
  match ev with
  | Network_rx_success segment => load segment 4 <> SEGID_START_OF_MESSAGE
  | Network_rx_timeout => False
  | Network_rx_error => True
  end.

(** An answer that [transport_attempt_tx] takes for the acknowledgement of
    [segment], whose byte 1 is the sequence number it was sent with. *)
Definition acknowledges (segment : list Z) (ev : network_rx_event) : Prop :=
  transport_attempt_tx_classify (load segment 1) ev
  = TRANSPORT_ATTEMPT_TX_SUCCESS.

(** The answers a sending function has used up, against what it has put
    on the network: [r] is what it leaves behind when entered with [sent]
    transmissions made and the script [inbox0]; [err] is the result by
    which it reports an error of the network layer. *)
Definition tx_accounted {R : Type} (err : R) (sent : nat)
    (inbox0 : list network_rx_event) (r : tx_return R) : Prop :=
  exists consumed,
    inbox0 = consumed ++ tx_inbox r /\
    length (wire_segments (tx_trace r))
    = (sent + length consumed
       + match tx_result r with Blocked => 1 | Returned _ => 0 end)%nat /\
    (tx_result r = Blocked -> tx_inbox r = []) /\
    (tx_result r = Returned err ->
     exists pre,
       consumed = pre ++ [Network_rx_error] /\
       Forall (fun ev => ev <> Network_rx_error) pre) /\
    (tx_result r <> Returned err ->
     Forall (fun ev => ev <> Network_rx_error) consumed).

(** ** The first transport layer (network.c, the older transport.c)

    No sequence numbers and no acknowledgements: the receiver takes what
    the two-argument [network_rx] above returns, and byte 4 of a segment
    holds the message length or the offset in 8 bits. Segments live in
    [char] arrays. The header lengths come from the
    networking_constants.h of that time, which is not part of the
    sources; they are parameters here. Values of type [int] are
    mathematical integers: for a message length in the range of [int] no
    operation below leaves that range. *)

Module Legacy.

Definition SEGID_START_OF_MESSAGE : Z := 0x0A.
Definition SEGID_DATA : Z := 0x0D.
Definition SEGID_END_OF_MESSAGE : Z := 0x0B.
Definition TRANSPORT_DELAY_MS : Z := 100.

Inductive rx_state_t : Type := RXST_Idle | RXST_Receiving | RXST_Complete.

(** What the transport layer does to the world: the transmissions
    [network_tx] hands to the transceiver, and delays. *)
Inductive effect : Type :=
  | Transmit (t : trx_transmission)
  | Delay_ms (ms : Z).

(** What one run of [transport_rx] leaves behind: the value returned, the
    caller's buffer, the log of the stores [buffer[index] = value] in
    program order, the packets forwarded meanwhile and the frames not yet
    read. *)
Record transport_rx_return : Type := Transport_rx_return {
  rx_result : outcome Z;
  rx_buffer : list Z;
  rx_stores : list (Z * Z);
  rx_sent : list trx_transmission;
  rx_frames : list (list Z)
}.

Section Transport.

(** Per-node configuration, the compiler's choice for [char], and the
    value of an uninitialised [next_hop_addr]. *)
Variable MY_PORT : Z.
Variable MY_NETWORK_ADDR : Z.
Variable resolve_network_addr : Z -> Z.
Variable resolve_data_link_addr : Z -> Z.
Variable char_is_signed : bool.
Variable next_hop_uninitialised : Z.

Variable START_SEGMENT_HEADER_LEN : Z.
Variable DATA_SEGMENT_HEADER_LEN : Z.
Variable END_SEGMENT_HEADER_LEN : Z.

(** The DATA branch of [transport_rx]: the guarded copy. *)
Definition transport_rx_copy_data (segment : list Z) (buf_len : Z)
    (buffer : list Z) (stores : list (Z * Z)) : list Z * list (Z * Z) :=
  let segment_len := char_of_byte char_is_signed (load segment 0) in
  let offset := char_of_byte char_is_signed (load segment 4) in
  let payload_len := segment_len - DATA_SEGMENT_HEADER_LEN in
  snd (for_loop (Z.to_nat payload_len)
         (fun i _ => i <? payload_len)
         (fun i bs =>
            if i + offset <? buf_len then
              let v := load segment (i + DATA_SEGMENT_HEADER_LEN) in
              (store (fst bs) (i + offset) v, snd bs ++ [(i + offset, v)])
            else bs)
         0 (buffer, stores)).

(** The do-while of [transport_rx]. Every turn reads at least one frame,
    so [fuel] above the number of frames is never used up; the branch for
    no fuel is there for the definition to be total. *)
Fixpoint transport_rx_loop (fuel : nat) (state : rx_state_t)
    (message_length : Z) (segment buffer : list Z) (stores : list (Z * Z))
    (buf_len : Z) (frames : list (list Z)) (sent : list trx_transmission)
    : transport_rx_return :=
  match fuel with
  | O => Transport_rx_return Blocked buffer stores sent frames
  | S fuel' =>
      match network_rx MY_NETWORK_ADDR resolve_data_link_addr char_is_signed
              next_hop_uninitialised frames segment MAX_SEGMENT_LEN with
      | (Blocked, forwarded, frames') =>
          Transport_rx_return Blocked buffer stores (sent ++ forwarded) frames'
      | (Returned r, forwarded, frames') =>
          let sent := sent ++ forwarded in
          let segment := nrx_buffer r in
          let segment_identifier :=
            char_of_byte char_is_signed (load segment 3) in
          match state with
          | RXST_Idle =>
              if segment_identifier =? SEGID_START_OF_MESSAGE then
                let message_length :=
                  char_of_byte char_is_signed (load segment 4) in
                transport_rx_loop fuel' RXST_Receiving message_length segment
                  buffer stores buf_len frames' sent
              else
                transport_rx_loop fuel' RXST_Idle message_length segment
                  buffer stores buf_len frames' sent
          | RXST_Receiving =>
              if segment_identifier =? SEGID_DATA then
                let bs := transport_rx_copy_data segment buf_len buffer
                            stores in
                transport_rx_loop fuel' RXST_Receiving message_length segment
                  (fst bs) (snd bs) buf_len frames' sent
              else if segment_identifier =? SEGID_END_OF_MESSAGE then
                Transport_rx_return (Returned message_length) buffer stores
                  sent frames'
              else
                transport_rx_loop fuel' RXST_Receiving message_length segment
                  buffer stores buf_len frames' sent
          | RXST_Complete =>
              Transport_rx_return (Returned message_length) buffer stores
                sent frames'
          end
      end
  end.

(** [transport_rx(buffer, buf_len)]. The local [message_length] is
    uninitialised and the local [segment] array too; its cells start at 0
    here. *)
Definition transport_rx (message_length_uninitialised : Z)
    (buffer : list Z) (buf_len : Z) (frames : list (list Z))
    : transport_rx_return :=
  transport_rx_loop (S (length frames)) RXST_Idle message_length_uninitialised
    (replicate (Z.to_nat MAX_SEGMENT_LEN) 0) buffer [] buf_len frames [].

(** One call [network_tx(segment, len, resolve_network_addr(dest_port),
    MY_NETWORK_ADDR)]. *)
Definition transport_tx_send (segment : list Z) (segment_len dest_port : Z)
    : effect :=
  Transmit (network_tx resolve_data_link_addr next_hop_uninitialised segment
              segment_len (resolve_network_addr dest_port) MY_NETWORK_ADDR).

(** The DATA segment one turn of the data loop builds in [segment].
    Returns [this_payload_len], [this_segment_len] and the array. *)
Definition transport_tx_build_data (message : list Z)
    (message_len dest_port bytes_remaining : Z) (segment : list Z)
    : Z * Z * list Z :=
  let this_payload_len :=
    if bytes_remaining >? MAX_SEGMENT_LEN - DATA_SEGMENT_HEADER_LEN
    then MAX_SEGMENT_LEN - DATA_SEGMENT_HEADER_LEN
    else bytes_remaining in
  let this_segment_len := this_payload_len + DATA_SEGMENT_HEADER_LEN in
  let start_address := message_len - bytes_remaining in
  let segment := store segment 0 (byte_of_int this_segment_len) in
  let segment := store segment 1 (byte_of_int dest_port) in
  let segment := store segment 2 (byte_of_int MY_PORT) in
  let segment := store segment 3 SEGID_DATA in
  let segment := store segment 4 (byte_of_int start_address) in
  let segment :=
    snd (for_loop (Z.to_nat this_payload_len)
           (fun i _ => i <? this_payload_len)
           (fun i segment =>
              store segment (i + DATA_SEGMENT_HEADER_LEN)
                (load message (i + start_address)))
           0 segment) in
  (this_payload_len, this_segment_len, segment).

(** The data loop of [transport_tx] and the END_OF_MESSAGE after it.
    With [DATA_SEGMENT_HEADER_LEN < MAX_SEGMENT_LEN] every turn lowers
    [bytes_remaining]; otherwise the loop of the source never ends, which
    is the result [Blocked] here. *)
Fixpoint transport_tx_data_loop (fuel : nat) (message : list Z)
    (message_len dest_port bytes_remaining : Z) (segment : list Z)
    (trace : list effect) : outcome (list effect) :=
  if bytes_remaining >? 0 then
    match fuel with
    | O => Blocked
    | S fuel' =>
        let '(this_payload_len, this_segment_len, segment) :=
          transport_tx_build_data message message_len dest_port
            bytes_remaining segment in
        let bytes_remaining := bytes_remaining - this_payload_len in
        transport_tx_data_loop fuel' message message_len dest_port
          bytes_remaining segment
          (trace ++ [transport_tx_send segment this_segment_len dest_port;
                     Delay_ms TRANSPORT_DELAY_MS])
    end
  else
    let segment := store segment 0 (byte_of_int END_SEGMENT_HEADER_LEN) in
    let segment := store segment 1 (byte_of_int dest_port) in
    let segment := store segment 2 (byte_of_int MY_PORT) in
    let segment := store segment 3 SEGID_END_OF_MESSAGE in
    Returned
      (trace ++ [transport_tx_send segment END_SEGMENT_HEADER_LEN dest_port]).

(** [transport_tx(message, message_len, dest_port)]. The local [segment]
    array is uninitialised in C; its cells start at 0 here. *)
Definition transport_tx (message : list Z) (message_len dest_port : Z)
    : outcome (list effect) :=
  let segment := replicate (Z.to_nat MAX_SEGMENT_LEN) 0 in
  let bytes_remaining := message_len in
  let segment := store segment 0 (byte_of_int START_SEGMENT_HEADER_LEN) in
  let segment := store segment 1 (byte_of_int dest_port) in
  let segment := store segment 2 (byte_of_int MY_PORT) in
  let segment := store segment 3 SEGID_START_OF_MESSAGE in
  let segment := store segment 4 (byte_of_int message_len) in
  transport_tx_data_loop (Z.to_nat bytes_remaining) message message_len
    dest_port bytes_remaining segment
    [transport_tx_send segment START_SEGMENT_HEADER_LEN dest_port;
     Delay_ms TRANSPORT_DELAY_MS].

End Transport.

(** The frames a trace puts on the air, in order. *)
Definition frames_of (trace : list effect) : list (list Z) :=
  concat (map (fun e => match e with
                        | Transmit t => [trx_frame t]
                        | Delay_ms _ => []
                        end) trace).

End Legacy.

(** ** SPI transactions (spi.c)

    spi.h is not part of the sources: [SPI_TRANSACTION_MAX_LENGTH] is a
    parameter, and the index and element types are taken to be wide enough
    for the values that occur. The peripheral is the environment: [slave i]
    is the byte it shifts out during exchange number [i]; the wait for SPIF
    ends. *)

Module Spi.

(** One section of the message: the pointer, [None] for NULL, and the
    length given with it. *)
Record transaction_section : Type := Transaction_section {
  section_data : option (list Z);
  section_data_length : Z
}.

(** What the SPI bus sees. *)
Inductive event : Type :=
  | Select_device
  | Exchange (sent received : Z)
  | Release_device.

(** The variables of [spi_execute_transaction]; [args] are the variable
    arguments not yet read, [response] is the caller's array, [None] for
    NULL. *)
Record transaction : Type := Transaction {
  section : option (list Z);
  section_length : Z;
  section_index : Z;
  next_element_index : Z;
  args : list transaction_section;
  response : option (list Z);
  trace : list event
}.

(** How the test at the head of the loop body ends. *)
Inductive section_step : Type :=
  | Break (t : transaction)
  | Continue (t : transaction)
  | Undefined.

Section Transaction.

Variable SPI_TRANSACTION_MAX_LENGTH : Z.
Variable slave : Z -> Z.

(** [if (next_element_index == section_length) { ... }]. Reading a
    variable argument that was not passed is undefined. *)
Definition next_section (section_count : Z) (t : transaction)
    : section_step :=
  if next_element_index t =? section_length t then
    let section_index := section_index t + 1 in
    if section_index =? section_count then
      Break (Transaction (section t) (section_length t) section_index
               (next_element_index t) (args t) (response t) (trace t))
    else
      match args t with
      | [] => Undefined
      | a :: args' =>
          Continue (Transaction (section_data a) (section_data_length a)
                      section_index 0 args' (response t) (trace t))
      end
  else Continue t.

(** The rest of the loop body: one byte out, one byte in. *)
Definition exchange (response_beginning_index i : Z) (t : transaction)
    : transaction :=
  let next_element :=
    match section t with
    | None => 0
    | Some bytes => load bytes (next_element_index t)
    end in
  let received_element := slave i in
  let response :=
    match response t with
    | None => None
    | Some r =>
        if i >=? response_beginning_index
        then Some (store r (i - response_beginning_index) received_element)
        else Some r
    end in
  Transaction (section t) (section_length t) (section_index t)
    (next_element_index t + 1) (args t) response
    (trace t ++ [Exchange next_element received_element]).

(** [for (i = 0; i < SPI_TRANSACTION_MAX_LENGTH; i++) { ... }], with
    [fuel] the number of turns left. *)
Fixpoint transaction_loop (fuel : nat) (response_beginning_index
    section_count i : Z) (t : transaction) : option transaction :=
  match fuel with
  | O => Some t
  | S fuel' =>
      match next_section section_count t with
      | Break t' => Some t'
      | Undefined => None
      | Continue t' =>
          transaction_loop fuel' response_beginning_index section_count
            (i + 1) (exchange response_beginning_index i t')
      end
  end.

(** [spi_execute_transaction(response, response_beginning_index,
    section_count, ...)]: what the bus sees and the caller's array
    afterwards; [None] where the behaviour is undefined. *)
Definition spi_execute_transaction (response : option (list Z))
    (response_beginning_index section_count : Z)
    (args : list transaction_section)
    : option (list event * option (list Z)) :=
  match args with
  | [] => None
  | a :: args' =>
      let t := Transaction (section_data a) (section_data_length a) 0 0 args'
                 response [Select_device] in
      match transaction_loop (Z.to_nat SPI_TRANSACTION_MAX_LENGTH)
              response_beginning_index section_count 0 t with
      | None => None
      | Some (Transaction _ _ _ _ _ response trace) =>
          Some (trace ++ [Release_device], response)
      end
  end.

End Transaction.

(** The bytes a section puts on the bus when it is sent in full, and the
    exchanges of a run that sends [mosi] and starts at exchange number
    [i]. *)
Definition section_bytes (a : transaction_section) : list Z :=
  match section_data a with
  | None => replicate (Z.to_nat (section_data_length a)) 0
  | Some bytes => take (Z.to_nat (section_data_length a)) bytes
  end.

Fixpoint exchanges (slave : Z -> Z) (i : Z) (mosi : list Z) : list event :=
  match mosi with
  | [] => []
  | b :: mosi' => Exchange b (slave i) :: exchanges slave (i + 1) mosi'
  end.

(** A section that can be sent in full: at least one byte, and an array
    that holds as many as announced. *)
Definition section_ok (a : transaction_section) : Prop :=
  1 <= section_data_length a /\
  match section_data a with
  | None => True
  | Some bytes => section_data_length a <= Z.of_nat (length bytes)
  end.

End Spi.

(** The caller's array after the exchanges number [i], ..., [i + n - 1]:
    the byte received in exchange [j] goes to cell
    [j - response_beginning_index] once [j] has reached
    [response_beginning_index]. *)
Fixpoint spi_responses (slave : Z -> Z) (response_beginning_index i : Z)
    (n : nat) (response : option (list Z)) : option (list Z) :=
  match n with
  | O => response
  | S n' =>
      spi_responses slave response_beginning_index (i + 1) n'
        match response with
        | None => None
        | Some r =>
            if i >=? response_beginning_index
            then Some (store r (i - response_beginning_index) (slave i))
            else Some r
        end
  end.

(** ** The rover's bench program (rover/main.c): switches and dispenser

    Registers are 8 bits wide. The bit numbers PIN0, ..., PIN7 of avr/io.h
    are 0, ..., 7. The levels at the input pins are the environment: every
    read of PINB or PIND yields a byte given from outside. *)

Module Bench.

Definition _BV (bit : Z) : Z := Z.shiftl 1 bit.

Definition DISPENSER1_INDEX : Z := 1.
Definition DISPENSER2_INDEX : Z := 2.
Definition SW2_INDEX : Z := 2.
Definition SW3_INDEX : Z := 6.
Definition SW4_INDEX : Z := 7.

(** [REG |= _BV(bit)] and [REG &= ~_BV(bit)]: the value stored in the
    register. *)
Definition set_bit (reg bit : Z) : Z := byte_of_int (Z.lor reg (_BV bit)).
Definition clear_bit (reg bit : Z) : Z :=
  byte_of_int (Z.land reg (Z.lnot (_BV bit))).

(** [(RD & _BV(index)) >> index]. *)
Definition switch_state (pins index : Z) : Z :=
  Z.shiftr (Z.land pins (_BV index)) index.

(** One turn of the [while(1)] of [main], entered with the value [PORTB]
    of the port register and given the bytes read from PIND, PINB and
    PIND: the values written to PORTB, in order. *)
Definition main_loop_body (PORTB SW2_RD SW3_RD SW4_RD : Z) : list Z :=
  let sw2State := switch_state SW2_RD SW2_INDEX in
  let sw3State := switch_state SW3_RD SW3_INDEX in
  let sw4State := switch_state SW4_RD SW4_INDEX in
  if sw4State =? 1 then
    let PORTB := set_bit PORTB DISPENSER1_INDEX in
    [PORTB; clear_bit PORTB DISPENSER2_INDEX]
  else if sw3State =? 1 then
    let PORTB := clear_bit PORTB DISPENSER1_INDEX in
    [PORTB; set_bit PORTB DISPENSER2_INDEX]
  else
    let PORTB := clear_bit PORTB DISPENSER1_INDEX in
    [PORTB; clear_bit PORTB DISPENSER2_INDEX].

(** Both dispenser pins high: the two sides of the motor driver on at
    once. *)
Definition both_high (PORTB : Z) : bool :=
  Z.testbit PORTB DISPENSER1_INDEX && Z.testbit PORTB DISPENSER2_INDEX.

End Bench.

(** ** The rover's wall-following loop (the rover's main.c with the IR
    sensor)

    [ir_distance_read] and [motor] are the environment: every call of
    [ir_distance_read] takes the next reading, an [int16_t], from a script,
    and every call of [motor] is recorded. [SPEED_MAX] comes from
    motors.h, which is not part of the sources. The arithmetic is that of
    [int]; it stays in range for readings between -4000 and 4000. *)

Module Rover.

Inductive motor_t : Type := LEFT_MOTOR | RIGHT_MOTOR.
Inductive direction_t : Type := FORWARD | REVERSE.

(** One call [motor(which, direction, speed)]. *)
Record motor_call : Type := Motor {
  motor_which : motor_t;
  motor_direction : direction_t;
  motor_speed : Z
}.

Section Main.

Variable SPEED_MAX : Z.

(** One turn of the [while (1)] of [main]: the calls of [motor] and the
    readings left. It blocks when the script of readings runs out. *)
Definition main_loop_body (readings : list Z)
    : outcome (list motor_call * list Z) :=
  let right := Motor RIGHT_MOTOR FORWARD SPEED_MAX in
  match readings with
  | [] => Blocked
  | d1 :: readings =>
      if d1 >? 26 then
        match readings with
        | [] => Blocked
        | d2 :: readings =>
            Returned ([right;
                       Motor LEFT_MOTOR FORWARD (byte_of_int (8 * (d2 - 25)))],
                      readings)
        end
      else
        match readings with
        | [] => Blocked
        | d2 :: readings =>
            if d2 <? 24 then
              match readings with
              | [] => Blocked
              | d3 :: readings =>
                  Returned ([right;
                             Motor LEFT_MOTOR REVERSE
                               (byte_of_int (8 * (25 - d3)))],
                            readings)
              end
            else
              Returned ([right; Motor LEFT_MOTOR FORWARD 0], readings)
        end
  end.

End Main.

End Rover.

(** ** Lemmas on the building blocks *)

Lemma advance_seq_neq (x : Z) : advance_seq x <> x.
Proof. unfold advance_seq. destruct (Z.eqb_spec x 0); lia. Qed.

Lemma advance_seq_bit (x : Z) : advance_seq x = 0 \/ advance_seq x = 1.
Proof. unfold advance_seq. destruct (x =? 0); auto. Qed.

Section TransportFacts.

Variable MY_PORT : Z.
Variable MY_NETWORK_ADDR : Z.
Variable resolve_network_addr : Z -> Z.

Abbreviation attempt_rx :=
  (transport_attempt_rx MY_PORT MY_NETWORK_ADDR resolve_network_addr).
Abbreviation keep_trying_to_rx :=
  (transport_keep_trying_to_rx MY_PORT MY_NETWORK_ADDR resolve_network_addr).
Abbreviation rx_loop :=
  (transport_rx_loop MY_PORT MY_NETWORK_ADDR resolve_network_addr).
Abbreviation step := (rx_step MY_PORT MY_NETWORK_ADDR resolve_network_addr).
Abbreviation run := (rx_run MY_PORT MY_NETWORK_ADDR resolve_network_addr).

(** [transport_rx_loop] with fuel above the length of the script is the
    iteration of [rx_step]: the nested loops of the source consume the
    script one event per turn. *)
Lemma transport_rx_loop_run (buf_len : Z) (inbox : list network_rx_event) :
  forall (fuel : nat) (m : rx_machine),
    (length inbox < fuel)%nat ->
    rx_loop fuel buf_len m inbox = run buf_len m inbox.
Proof.
  induction inbox as [|ev inbox IH]; intros fuel m Hfuel.
  - destruct fuel as [|fuel]; [simpl in Hfuel; lia|].
    destruct m; reflexivity.
  - destruct fuel as [|fuel]; [simpl in Hfuel; lia|].
    simpl in Hfuel.
    assert (Hrec : (length inbox < S fuel)%nat) by lia.
    specialize (IH (S fuel)) as IHsame.
    destruct ev as [segment| |].
    + cbn [run]. unfold step. cbn [transport_rx_loop transport_keep_trying_to_rx].
      destruct (arx_result (attempt_rx (rx_seq m) (rx_segment m)
                              (Network_rx_success segment))) eqn:Hres.
      * cbn [krx_result krx_rx_seq krx_segment krx_trace krx_inbox
               rx_state rx_segment rx_seq rx_buffer rx_stores
               rx_message_len rx_source_port rx_trace fst snd].
        destruct (rx_state m);
          repeat (match goal with
                  | |- context [if ?b then _ else _] => destruct b
                  end; cbn [fst snd]);
          try reflexivity; apply IH; lia.
      * cbn [fst snd]. rewrite <- IHsame by lia.
        cbn [transport_rx_loop rx_seq rx_segment rx_trace rx_state rx_buffer
               rx_stores rx_message_len rx_source_port].
        reflexivity.
      * unfold transport_attempt_rx in Hres.
        destruct (negb _) in Hres; discriminate.
      * unfold transport_attempt_rx in Hres.
        destruct (negb _) in Hres; discriminate.
    + cbn. destruct m; reflexivity.
    + cbn [run]. unfold step. cbn [transport_attempt_rx arx_result fst snd].
      rewrite <- IHsame by lia.
      cbn [transport_rx_loop transport_keep_trying_to_rx transport_attempt_rx
             arx_result arx_rx_seq arx_segment arx_effects
             rx_seq rx_segment rx_trace rx_state rx_buffer
             rx_stores rx_message_len rx_source_port].
      reflexivity.
Qed.

End TransportFacts.

(** ** Arrays and loops *)

Lemma load_store (a : list Z) (i v j : Z) :
  load (store a i v) j =
    if decide (i = j /\ 0 <= i < Z.of_nat (length a)) then v else load a j.
Proof.
  unfold load, store.
  destruct (Z.ltb_spec j 0) as [Hj|Hj].
  - case_decide; [lia | reflexivity].
  - destruct (Z.ltb_spec i 0) as [Hi|Hi].
    + case_decide; [lia | reflexivity].
    + case_decide as Hd.
      * destruct Hd as [-> Hlt].
        rewrite list_lookup_insert_eq by lia. reflexivity.
      * destruct (decide (i = j)) as [->|Hne].
        -- rewrite list_insert_ge by lia. reflexivity.
        -- rewrite list_lookup_insert_ne by lia. reflexivity.
Qed.

Lemma load_store_ne (a : list Z) (i v j : Z) :
  i <> j -> load (store a i v) j = load a j.
Proof. intros H. rewrite load_store. case_decide; [lia | reflexivity]. Qed.

Lemma store_length (a : list Z) (i v : Z) : length (store a i v) = length a.
Proof. unfold store. destruct (i <? 0); [reflexivity | apply length_insert]. Qed.

Lemma andb_ltb_min (i a b : Z) : (i <? a) && (i <? b) = (i <? Z.min a b).
Proof.
  destruct (Z.ltb_spec i a), (Z.ltb_spec i b), (Z.ltb_spec i (Z.min a b));
    simpl; try reflexivity; lia.
Qed.

Section ForLoop.

Context {S : Type}.
Variable cond : Z -> S -> bool.
Variable body : Z -> S -> S.

(** A property kept by every turn of a loop holds when the loop ends. *)
Lemma for_loop_invariant (P : Z -> S -> Prop) :
  (forall j t, P j t -> cond j t = true -> P (j + 1) (body j t)) ->
  forall fuel i s, P i s ->
    P (fst (for_loop fuel cond body i s)) (snd (for_loop fuel cond body i s)).
Proof.
  intros Hstep. induction fuel as [|fuel IH]; intros i s HP; simpl; [exact HP|].
  destruct (cond i s) eqn:Hc; [|exact HP].
  apply IH, Hstep; assumption.
Qed.

(** A loop whose condition is [i < n] runs until its counter is [n]. *)
Lemma for_loop_counter (n : Z) :
  (forall j t, cond j t = (j <? n)) ->
  forall fuel i s, (Z.to_nat (n - i) <= fuel)%nat ->
    fst (for_loop fuel cond body i s) = Z.max i n.
Proof.
  intros Hcond. induction fuel as [|fuel IH]; intros i s Hfuel; simpl.
  - lia.
  - rewrite Hcond. destruct (Z.ltb_spec i n); simpl; [|lia].
    rewrite IH by lia. lia.
Qed.

(** With a condition that implies [i < n] and fuel for [n - i] turns, the
    loop ends because its condition fails, not for lack of fuel. *)
Lemma for_loop_exit (n : Z) :
  (forall j t, cond j t = true -> j < n) ->
  forall fuel i s, (Z.to_nat (n - i) <= fuel)%nat ->
    let r := for_loop fuel cond body i s in
    cond (fst r) (snd r) = false.
Proof.
  intros Hcond. induction fuel as [|fuel IH]; intros i s Hfuel; cbn.
  - destruct (cond i s) eqn:Hc; [|reflexivity].
    apply Hcond in Hc. lia.
  - destruct (cond i s) eqn:Hc.
    + apply Hcond in Hc. apply IH. lia.
    + exact Hc.
Qed.

End ForLoop.

(** Loops with pointwise equal conditions run alike. *)
Lemma for_loop_ext {S : Type} (cond1 cond2 : Z -> S -> bool)
    (body : Z -> S -> S) :
  (forall j t, cond1 j t = cond2 j t) ->
  forall fuel i s,
    for_loop fuel cond1 body i s = for_loop fuel cond2 body i s.
Proof.
  intros Hc. induction fuel as [|fuel IH]; intros i s; cbn [for_loop];
    [reflexivity|].
  rewrite Hc. destruct (cond2 i s); [apply IH | reflexivity].
Qed.

(** Loops with pointwise equal bodies run alike. *)
Lemma for_loop_ext_body {S : Type} (cond : Z -> S -> bool)
    (body1 body2 : Z -> S -> S) :
  (forall j t, body1 j t = body2 j t) ->
  forall fuel i s,
    for_loop fuel cond body1 i s = for_loop fuel cond body2 i s.
Proof.
  intros Hb. induction fuel as [|fuel IH]; intros i s; cbn [for_loop];
    [reflexivity|].
  destruct (cond i s); [rewrite Hb; apply IH | reflexivity].
Qed.

(** A loop that copies [f 0], ..., [f (n - 1)] to the cells [d], ...,
    [d + n - 1] of an array that has them. *)
Lemma copy_loop (d n : Z) (f : Z -> Z) :
  0 <= d ->
  forall (fuel : nat) (i : Z) (a : list Z),
    0 <= i <= n ->
    (Z.to_nat (n - i) <= fuel)%nat ->
    d + n <= Z.of_nat (length a) ->
    snd (for_loop fuel (fun i _ => i <? n)
           (fun i a => store a (i + d) (f i)) i a)
    = take (Z.to_nat (d + i)) a ++ map f (seqZ i (n - i))
        ++ drop (Z.to_nat (d + n)) a.
Proof.
  intros Hd. induction fuel as [|fuel IH]; intros i a Hi Hfuel Hlen.
  - assert (i = n) by lia. subst i. cbn [for_loop snd].
    rewrite seqZ_nil by lia. cbn [map app]. symmetry. apply take_drop.
  - cbn [for_loop]. destruct (Z.ltb_spec i n) as [Hlt|Hge].
    + rewrite IH by (rewrite ?store_length; lia).
      unfold store. destruct (Z.ltb_spec (i + d) 0); [lia|].
      replace (Z.to_nat (d + (i + 1))) with (S (Z.to_nat (i + d))) by lia.
      rewrite (take_S_r _ _ (f i)) by (apply list_lookup_insert_eq; lia).
      rewrite take_insert_ge by lia.
      rewrite drop_insert_lt by lia.
      rewrite (seqZ_cons i) by lia. cbn [map].
      rewrite <- app_assoc. cbn [app].
      replace (Z.to_nat (d + i)) with (Z.to_nat (i + d)) by lia.
      replace (Z.pred (n - i)) with (n - (i + 1)) by lia.
      replace (Z.succ i) with (i + 1) by lia.
      reflexivity.
    + assert (i = n) by lia. subst i. cbn [snd].
      rewrite seqZ_nil by lia. cbn [map app]. symmetry. apply take_drop.
Qed.

(** The bytes [message[start]], ..., [message[start + n - 1]] read one by
    one are a slice of the message. *)
Lemma load_slice (message : list Z) (start n : Z) :
  0 <= start -> 0 <= n ->
  start + n <= Z.of_nat (length message) ->
  start + n <= 65536 ->
  map (fun i => load message (uint16_of_int (i + start))) (seqZ 0 n)
  = take (Z.to_nat n) (drop (Z.to_nat start) message).
Proof.
  intros Hs Hn Hlen H16. apply list_eq. intros j.
  change (map ?f ?l) with (f <$> l).
  rewrite list_lookup_fmap, lookup_take, lookup_drop.
  destruct (decide (j < Z.to_nat n)%nat) as [Hj|Hj].
  - rewrite lookup_seqZ_lt by lia. cbn [fmap option_fmap option_map].
    unfold uint16_of_int. rewrite Z.mod_small by lia.
    unfold load. destruct (Z.ltb_spec (0 + Z.of_nat j + start) 0); [lia|].
    replace (Z.to_nat (0 + Z.of_nat j + start))
      with (Z.to_nat start + j)%nat by lia.
    destruct (message !! (Z.to_nat start + j)%nat) eqn:Hm; [reflexivity|].
    apply lookup_ge_None in Hm. lia.
  - rewrite lookup_seqZ_ge by lia. reflexivity.
Qed.

(** ** The network layer *)

Lemma network_tx_packet_length_byte (payload : list Z)
    (payload_len dest_network_addr src_network_addr : Z) :
  0 <= payload_len ->
  load (snd (network_tx_packet payload payload_len
               dest_network_addr src_network_addr)) 0
  = byte_of_int (payload_len + PACKET_HEADER_LEN).
Proof.
  intros Hlen. unfold network_tx_packet.
  apply (for_loop_invariant _ _
           (fun i packet => 0 <= i /\
              load packet 0 = byte_of_int (payload_len + PACKET_HEADER_LEN))).
  - intros j t [Hj Ht] _. split; [lia|].
    rewrite load_store_ne by (unfold PACKET_HEADER_LEN; lia). exact Ht.
  - split; [lia|].
    rewrite !load_store_ne by lia. rewrite load_store.
    rewrite length_replicate. unfold PACKET_HEADER_LEN.
    case_decide; [reflexivity | lia].
Qed.

Lemma network_tx_packet_copied (payload : list Z)
    (payload_len dest_network_addr src_network_addr : Z) :
  0 <= payload_len ->
  fst (network_tx_packet payload payload_len
         dest_network_addr src_network_addr)
  = Z.min payload_len (MAX_PACKET_LEN - PACKET_HEADER_LEN).
Proof.
  intros Hlen. unfold network_tx_packet.
  rewrite (for_loop_counter _ _ (Z.min payload_len (MAX_PACKET_LEN - PACKET_HEADER_LEN))).
  - unfold MAX_PACKET_LEN, TRX_PAYLOAD_LENGTH, FRAME_HEADER_LEN, PACKET_HEADER_LEN. lia.
  - intros j t. apply andb_ltb_min.
  - unfold MAX_PACKET_LEN, TRX_PAYLOAD_LENGTH, FRAME_HEADER_LEN, PACKET_HEADER_LEN. lia.
Qed.

(** The packet [network_tx] assembles: the three header bytes, the first
    [min(payload_len, 28)] bytes of the payload, and cells left as they
    were. *)
Lemma network_tx_packet_bytes (payload : list Z)
    (payload_len dest_network_addr src_network_addr : Z) :
  0 <= payload_len ->
  snd (network_tx_packet payload payload_len dest_network_addr
         src_network_addr)
  = [byte_of_int (payload_len + PACKET_HEADER_LEN);
     byte_of_int dest_network_addr; byte_of_int src_network_addr]
    ++ map (load payload) (seqZ 0 (Z.min payload_len 28))
    ++ replicate (Z.to_nat (payload_len - Z.min payload_len 28)) 0.
Proof.
  intros Hlen. unfold network_tx_packet.
  change PACKET_HEADER_LEN with 3.
  change (MAX_PACKET_LEN - 3) with 28.
  change (Z.to_nat MAX_PACKET_LEN) with 31%nat.
  replace (Z.to_nat (payload_len + 3)) with (3 + Z.to_nat payload_len)%nat
    by lia.
  rewrite replicate_add.
  change (store (store (store (replicate 3 0 ++ ?t) 0 ?a) 1 ?b) 2 ?c)
    with ([a; b; c] ++ t).
  rewrite (for_loop_ext _ (fun i _ => i <? Z.min payload_len 28))
    by (intros; apply andb_ltb_min).
  rewrite (copy_loop 3 (Z.min payload_len 28))
    by (rewrite ?length_app, ?length_replicate; cbn [length]; lia).
  change (Z.to_nat (3 + 0)) with 3%nat. rewrite Z.sub_0_r.
  replace (Z.to_nat (3 + Z.min payload_len 28))
    with (3 + Z.to_nat (Z.min payload_len 28))%nat by lia.
  cbn [take app drop Nat.add]. rewrite take_0, drop_replicate.
  cbn [app]. do 5 f_equal. lia.
Qed.

(** Called as [network_rx] calls it for a foreign packet, with the packet
    itself as payload, [network_tx] puts the packet's own first byte, its
    length byte, where the first byte of the segment belongs. *)
Lemma network_tx_packet_rewraps (packet : list Z)
    (packet_len dest_network_addr src_network_addr : Z) :
  1 <= packet_len ->
  load (snd (network_tx_packet packet packet_len dest_network_addr
               src_network_addr)) 3
  = load packet 0.
Proof.
  intros Hlen. rewrite network_tx_packet_bytes by lia.
  rewrite (seqZ_cons 0) by lia. reflexivity.
Qed.




(** C1, at a failing input. Node 0x0B receives a 10-byte packet for node
    0x0C and then one for itself. It sends the first on unseen by the
    caller, goes on receiving and delivers the segment of the second. The
    frame it emits keeps the (dest, src) bytes, but the packet it carries
    is the received packet wrapped once more: length byte 13 instead of
    10, and the received header in the place of the first segment bytes. *)
Theorem network_rx_forward_rewraps (char_is_signed : bool) (uninit : Z) :
  let emitted :=
    [13; 13; 0x0C; 0x0A; 10; 0x0C; 0x0A; 7; 0; 0x0C; 0x3C; 0x07; 0; 1]
      ++ replicate 18 0 in
  network_rx 0x0B example_resolve_data_link_addr char_is_signed uninit
    [example_foreign_frame] (replicate 28 0) 28
  = (Blocked, [Trx_transmit 0x0B0B0B0B emitted], []) /\
  network_rx 0x0B example_resolve_data_link_addr char_is_signed uninit
    [example_foreign_frame; example_own_frame] (replicate 28 0) 28
  = (Returned (Network_rx_return
                 ([7; 0; 0x0B; 0x3C; 0x07; 0; 1] ++ replicate 21 0) 7),
     [Trx_transmit 0x0B0B0B0B emitted], []) /\
  take 2 (drop 2 example_foreign_frame) = take 2 (drop 2 emitted) /\
  take 7 (drop 4 example_foreign_frame) = [7; 0; 0x0C; 0x3C; 0x07; 0; 1] /\
  take 7 (drop 4 emitted) = [10; 0x0C; 0x0A; 7; 0; 0x0C; 0x3C].
Proof. destruct char_is_signed; vm_compute; repeat split. Qed.

(** ** The receiver *)

(** Reduction of record projections only: [cbn] without a list would
    unfold the 256 turns of the copy loop. *)
Ltac rx_simpl :=
  cbn [fst snd rx_state rx_seq rx_segment rx_buffer rx_stores rx_message_len
       rx_source_port rx_trace arx_result arx_rx_seq arx_segment arx_effects
       trx_result trx_machine trx_inbox].

Ltac rx_cases :=
  repeat (match goal with
          | |- context [if ?b then _ else _] => destruct b
          end; rx_simpl).

Section ReceiverFacts.

Variable MY_PORT : Z.
Variable MY_NETWORK_ADDR : Z.
Variable resolve_network_addr : Z -> Z.

Abbreviation attempt_rx :=
  (transport_attempt_rx MY_PORT MY_NETWORK_ADDR resolve_network_addr).
Abbreviation keep_trying_to_rx :=
  (transport_keep_trying_to_rx MY_PORT MY_NETWORK_ADDR resolve_network_addr).
Abbreviation step := (rx_step MY_PORT MY_NETWORK_ADDR resolve_network_addr).
Abbreviation run := (rx_run MY_PORT MY_NETWORK_ADDR resolve_network_addr).

(** The acknowledgement [transport_attempt_rx] builds for a segment. *)
Lemma attempt_rx_effects (rx_seq : Z) (stale segment : list Z) :
  arx_effects (attempt_rx rx_seq stale (Network_rx_success segment)) =
    [Delay_ms TRANSPORT_TX_ACK_DELAY_MS;
     Network_tx
       [ACK_SEGMENT_HEARDER_LEN; advance_seq (load segment 1);
        load segment 3; MY_PORT; SEGID_ACK]
       ACK_SEGMENT_HEARDER_LEN
       (resolve_network_addr (load segment 3)) MY_NETWORK_ADDR].
Proof.
  unfold transport_attempt_rx.
  destruct (negb _); reflexivity.
Qed.

Lemma attempt_rx_outdated (rx_seq : Z) (stale segment : list Z) :
  load segment 1 <> synchronise_rx_seq rx_seq segment ->
  let a := attempt_rx rx_seq stale (Network_rx_success segment) in
  arx_result a = TRANSPORT_ATTEMPT_RX_OUTDATED /\
  arx_rx_seq a = rx_seq /\
  arx_segment a = segment.
Proof.
  intros Hne. unfold transport_attempt_rx. cbv zeta.
  destruct (Z.eqb_spec (synchronise_rx_seq rx_seq segment) (load segment 1))
    as [Heq|_]; [congruence|].
  cbn [negb arx_result arx_rx_seq arx_segment]. repeat split.
  unfold synchronise_rx_seq in *.
  destruct (load segment 4 =? SEGID_START_OF_MESSAGE); congruence.
Qed.

Lemma attempt_rx_fresh (rx_seq : Z) (stale segment : list Z) :
  load segment 1 = synchronise_rx_seq rx_seq segment ->
  let a := attempt_rx rx_seq stale (Network_rx_success segment) in
  arx_result a = TRANSPORT_ATTEMPT_RX_SUCCESS /\
  arx_rx_seq a = advance_seq (load segment 1) /\
  arx_segment a = segment.
Proof.
  intros Heq. unfold transport_attempt_rx. cbv zeta. rewrite <- Heq.
  rewrite Z.eqb_refl. cbn [negb arx_result arx_rx_seq arx_segment].
  repeat split.
Qed.

Lemma synchronise_rx_seq_other (rx_seq : Z) (segment : list Z) :
  load segment 4 <> SEGID_START_OF_MESSAGE ->
  synchronise_rx_seq rx_seq segment = rx_seq.
Proof.
  intros H. unfold synchronise_rx_seq.
  destruct (Z.eqb_spec (load segment 4) SEGID_START_OF_MESSAGE); congruence.
Qed.

(** The receiver never produces [TRANSPORT_RX_ERROR]. *)
Lemma rx_step_not_error (buf_len : Z) (m : rx_machine) (ev : network_rx_event) :
  snd (step buf_len m ev) <> Some TRANSPORT_RX_ERROR.
Proof.
  unfold rx_step.
  destruct (arx_result _); rx_simpl; try discriminate.
  destruct (rx_state m); rx_cases; discriminate.
Qed.

Lemma rx_run_not_error (buf_len : Z) (inbox : list network_rx_event) :
  forall m, trx_result (run buf_len m inbox) <> Returned TRANSPORT_RX_ERROR.
Proof.
  induction inbox as [|ev inbox IH]; intros m; cbn; [discriminate|].
  destruct (snd (step buf_len m ev)) as [res|] eqn:Hs; [|apply IH].
  cbn. intros [= ->]. exact (rx_step_not_error buf_len m ev Hs).
Qed.

(** A script continues where a blocked run left the machine. *)
Lemma rx_run_app (buf_len : Z) (pre rest : list network_rx_event) :
  forall m,
    trx_result (run buf_len m pre) = Blocked ->
    run buf_len m (pre ++ rest)
    = run buf_len (trx_machine (run buf_len m pre)) rest.
Proof.
  induction pre as [|ev pre IH]; intros m Hb; [reflexivity|].
  cbn in *.
  destruct (snd (step buf_len m ev)); [discriminate|].
  apply IH, Hb.
Qed.

Lemma rx_run_timeout (buf_len : Z) (m : rx_machine)
    (rest : list network_rx_event) :
  trx_result (run buf_len m (Network_rx_timeout :: rest))
    = Returned TRANSPORT_RX_TIMEOUT /\
  trx_inbox (run buf_len m (Network_rx_timeout :: rest)) = rest.
Proof. split; reflexivity. Qed.

(** What is handed to the caller does not depend on the trace. *)
Lemma rx_step_same (buf_len : Z) (m1 m2 : rx_machine) (ev : network_rx_event) :
  same_machine_but_trace m1 m2 ->
  same_machine_but_trace (fst (step buf_len m1 ev)) (fst (step buf_len m2 ev)) /\
  snd (step buf_len m1 ev) = snd (step buf_len m2 ev).
Proof.
  intros (Hst & Hseq & Hseg & Hbuf & Hlog & Hml & Hsp).
  destruct m1, m2.
  cbn [rx_state rx_seq rx_segment rx_buffer rx_stores rx_message_len
       rx_source_port] in *.
  subst.
  unfold rx_step; rx_simpl.
  unfold same_machine_but_trace.
  destruct (arx_result _); rx_simpl; try (repeat split; reflexivity).
  destruct rx_state1; rx_cases; repeat split; reflexivity.
Qed.

Lemma rx_run_same (buf_len : Z) (inbox : list network_rx_event) :
  forall m1 m2,
    same_machine_but_trace m1 m2 ->
    same_reception (run buf_len m1 inbox) (run buf_len m2 inbox).
Proof.
  induction inbox as [|ev inbox IH]; intros m1 m2 Hm.
  - split; [reflexivity | exact Hm].
  - cbn. destruct (rx_step_same buf_len m1 m2 ev Hm) as [Hfst Hsnd].
    rewrite Hsnd. destruct (snd (step buf_len m2 ev)).
    + split; [reflexivity | exact Hfst].
    + apply IH, Hfst.
Qed.

(** The second of two equal segments in a row, other than a
    START_OF_MESSAGE, changes nothing of what is handed to the caller. *)
Lemma rx_run_duplicate (buf_len : Z) (m : rx_machine) (d : list Z)
    (rest : list network_rx_event) :
  load d 4 <> SEGID_START_OF_MESSAGE ->
  same_reception
    (run buf_len m (Network_rx_success d :: Network_rx_success d :: rest))
    (run buf_len m (Network_rx_success d :: rest)).
Proof.
  intros Hd.
  change (run buf_len m (Network_rx_success d :: Network_rx_success d :: rest))
    with (let s := step buf_len m (Network_rx_success d) in
          match snd s with
          | Some result =>
              Transport_rx_return (Returned result) (fst s)
                (Network_rx_success d :: rest)
          | None => run buf_len (fst s) (Network_rx_success d :: rest)
          end).
  change (run buf_len m (Network_rx_success d :: rest))
    with (let s := step buf_len m (Network_rx_success d) in
          match snd s with
          | Some result => Transport_rx_return (Returned result) (fst s) rest
          | None => run buf_len (fst s) rest
          end).
  cbn zeta.
  destruct (snd (step buf_len m (Network_rx_success d))) as [res|] eqn:Hs.
  { repeat split. }
  set (m' := fst (step buf_len m (Network_rx_success d))).
  assert (Hm' : rx_seq m' <> load d 1 /\ rx_segment m' = d).
  { subst m'. unfold rx_step in *.
    destruct (Z.eq_dec (load d 1) (synchronise_rx_seq (rx_seq m) d)) as [He|Hn].
    - destruct (attempt_rx_fresh (rx_seq m) (rx_segment m) d He)
        as (Hr & Hq & Hg).
      cbn zeta in Hr, Hq, Hg. rewrite Hr in *. rewrite Hq, Hg in *.
      destruct (rx_state m); rx_cases;
        split; try reflexivity; apply advance_seq_neq.
    - destruct (attempt_rx_outdated (rx_seq m) (rx_segment m) d Hn)
        as (Hr & Hq & Hg).
      cbn zeta in Hr, Hq, Hg. rewrite Hr in *. rewrite Hq, Hg in *. rx_simpl.
      rewrite synchronise_rx_seq_other in Hn by exact Hd.
      split; [congruence | reflexivity]. }
  destruct Hm' as [Hseq Hseg].
  cbn [rx_run].
  assert (Hn : load d 1 <> synchronise_rx_seq (rx_seq m') d)
    by (rewrite synchronise_rx_seq_other by exact Hd; congruence).
  destruct (attempt_rx_outdated (rx_seq m') (rx_segment m') d Hn)
    as (Hr & Hq & Hg).
  cbn zeta in Hr, Hq, Hg.
  unfold rx_step at 1 2. rewrite Hr. cbn [fst snd].
  apply rx_run_same. unfold rx_step. rewrite Hr, Hq, Hg.
  unfold same_machine_but_trace. rx_simpl.
  repeat split. symmetry. exact Hseg.
Qed.

Lemma rx_run_prefix_same (buf_len : Z) (pre a b : list network_rx_event) :
  (forall m, same_reception (run buf_len m a) (run buf_len m b)) ->
  forall m, same_reception (run buf_len m (pre ++ a)) (run buf_len m (pre ++ b)).
Proof.
  intros Hab. induction pre as [|ev pre IH]; intros m; [apply Hab|].
  cbn. destruct (snd (step buf_len m ev)).
  - repeat split.
  - apply IH.
Qed.

End ReceiverFacts.

(** *** Stores into the caller's buffer *)

Lemma transport_rx_copy_data_stores (segment : list Z) (buf_len : Z)
    (buffer : list Z) (stores : list (Z * Z)) :
  exists new,
    snd (transport_rx_copy_data segment buf_len buffer stores) = stores ++ new /\
    Forall (store_in_bounds buf_len) new.
Proof.
  unfold transport_rx_copy_data.
  apply (for_loop_invariant _ _
           (fun _ bs => exists new,
              snd bs = stores ++ new /\ Forall (store_in_bounds buf_len) new)).
  - intros j [b st] (new & Hst & Hnew) Hcond. cbn [fst snd] in *.
    apply andb_prop in Hcond as [_ Hlt]. apply Z.ltb_lt in Hlt.
    eexists (new ++ [_]). split.
    + rewrite Hst, <- app_assoc. reflexivity.
    + apply Forall_app. split; [exact Hnew|].
      constructor; [|constructor].
      unfold store_in_bounds, uint16_of_int in *. cbn [fst].
      pose proof (Z.mod_pos_bound (j + offset_of_segment segment) 65536).
      lia.
  - exists []. split; [symmetry; apply app_nil_r | constructor].
Qed.

Lemma transport_rx_zero_loop (buf_len : Z) :
  forall (fuel : nat) (i : Z) (bs : list Z * list (Z * Z)),
    fuel = Z.to_nat (buf_len - i) ->
    snd (snd (for_loop fuel (fun i _ => i <? buf_len)
                (fun i bs => (store (fst bs) i 0, snd bs ++ [(i, 0)])) i bs))
    = snd bs ++ map (fun i => (i, 0)) (seqZ i (buf_len - i)).
Proof.
  induction fuel as [|fuel IH]; intros i bs Hfuel.
  - cbn. rewrite seqZ_nil by lia. cbn. symmetry. apply app_nil_r.
  - cbn [for_loop]. destruct (Z.ltb_spec i buf_len); [|lia].
    rewrite IH by lia. cbn [snd].
    rewrite (seqZ_cons i) by lia. cbn [map].
    rewrite <- app_assoc. cbn.
    replace (Z.pred (buf_len - i)) with (buf_len - Z.succ i) by lia.
    replace (i + 1) with (Z.succ i) by lia.
    reflexivity.
Qed.

Lemma transport_rx_zero_stores (buffer : list Z) (buf_len : Z) :
  snd (transport_rx_zero buffer buf_len)
  = map (fun i => (i, 0)) (seqZ 0 buf_len).
Proof.
  unfold transport_rx_zero.
  rewrite transport_rx_zero_loop by (f_equal; lia).
  cbn [snd app]. f_equal. f_equal. lia.
Qed.

Lemma zero_stores_in_bounds (buf_len : Z) :
  Forall (store_in_bounds buf_len) (map (fun i => (i, 0)) (seqZ 0 buf_len)).
Proof.
  apply Forall_forall. intros s Hs.
  apply list_elem_of_In, in_map_iff in Hs as (i & <- & Hi).
  apply list_elem_of_In, elem_of_seqZ in Hi.
  unfold store_in_bounds. cbn. lia.
Qed.

Section ReceiverStores.

Variable MY_PORT : Z.
Variable MY_NETWORK_ADDR : Z.
Variable resolve_network_addr : Z -> Z.

Lemma rx_step_stores (buf_len : Z) (m : rx_machine) (ev : network_rx_event) :
  exists new,
    rx_stores (fst (rx_step MY_PORT MY_NETWORK_ADDR resolve_network_addr
                      buf_len m ev)) = rx_stores m ++ new /\
    Forall (store_in_bounds buf_len) new.
Proof.
  assert (Hnil : exists new : list (Z * Z),
             rx_stores m = rx_stores m ++ new /\
             Forall (store_in_bounds buf_len) new)
    by (exists []; split; [symmetry; apply app_nil_r | constructor]).
  unfold rx_step.
  destruct (arx_result _); rx_simpl; try exact Hnil.
  destruct (rx_state m); rx_cases; try exact Hnil.
  apply transport_rx_copy_data_stores.
Qed.

Lemma rx_run_stores (buf_len : Z) (inbox : list network_rx_event) :
  forall m, exists new,
    rx_stores (trx_machine (rx_run MY_PORT MY_NETWORK_ADDR resolve_network_addr
                              buf_len m inbox)) = rx_stores m ++ new /\
    Forall (store_in_bounds buf_len) new.
Proof.
  induction inbox as [|ev inbox IH]; intros m.
  - exists []. split; [symmetry; apply app_nil_r | constructor].
  - cbn [rx_run].
    destruct (rx_step_stores buf_len m ev) as (new1 & H1 & HF1).
    destruct (snd (rx_step _ _ _ buf_len m ev)).
    + exists new1. split; assumption.
    + destruct (IH (fst (rx_step MY_PORT MY_NETWORK_ADDR resolve_network_addr
                           buf_len m ev))) as (new2 & H2 & HF2).
      exists (new1 ++ new2). split.
      * rewrite H2, H1, app_assoc. reflexivity.
      * apply Forall_app. split; assumption.
Qed.

Lemma transport_rx_is_run (rx_seq : Z) (buffer : list Z) (buf_len : Z)
    (message_len source_port : option Z) (inbox : list network_rx_event) :
  transport_rx MY_PORT MY_NETWORK_ADDR resolve_network_addr rx_seq buffer
    buf_len message_len source_port inbox
  = rx_run MY_PORT MY_NETWORK_ADDR resolve_network_addr buf_len
      (Rx_machine RXST_Idle rx_seq (replicate (Z.to_nat MAX_SEGMENT_LEN) 0)
         (fst (transport_rx_zero buffer buf_len))
         (snd (transport_rx_zero buffer buf_len)) message_len source_port [])
      inbox.
Proof. unfold transport_rx. apply transport_rx_loop_run. lia. Qed.

End ReceiverStores.

(** C9. Every store of [transport_rx] into the caller's buffer has an index
    in [0, buf_len): the log of stores starts with the zeroing, which
    writes 0 at exactly the indices 0, ..., buf_len - 1 in order, and all
    later stores, which are those of the DATA copy loop, are in bounds;
    the copy loop for one segment stores in bounds whatever offset and
    length the segment carries. *)
Theorem transport_rx_stores_in_bounds (MY_PORT MY_NETWORK_ADDR : Z)
    (resolve_network_addr : Z -> Z) (rx_seq : Z) (buffer : list Z)
    (buf_len : Z) (message_len source_port : option Z)
    (inbox : list network_rx_event) (segment : list Z) :
  let r := transport_rx MY_PORT MY_NETWORK_ADDR resolve_network_addr rx_seq
             buffer buf_len message_len source_port inbox in
  Forall (store_in_bounds buf_len) (rx_stores (trx_machine r)) /\
  (exists data_stores,
     rx_stores (trx_machine r)
     = map (fun i => (i, 0)) (seqZ 0 buf_len) ++ data_stores /\
     Forall (store_in_bounds buf_len) data_stores) /\
  Forall (store_in_bounds buf_len)
    (snd (transport_rx_copy_data segment buf_len buffer [])).
Proof.
  intros r. subst r. rewrite transport_rx_is_run.
  destruct (rx_run_stores MY_PORT MY_NETWORK_ADDR resolve_network_addr buf_len
              inbox
              (Rx_machine RXST_Idle rx_seq
                 (replicate (Z.to_nat MAX_SEGMENT_LEN) 0)
                 (fst (transport_rx_zero buffer buf_len))
                 (snd (transport_rx_zero buffer buf_len))
                 message_len source_port []))
    as (new & Hst & Hnew).
  cbn [rx_stores] in Hst. rewrite Hst, transport_rx_zero_stores.
  repeat split.
  - apply Forall_app. split; [apply zero_stores_in_bounds | exact Hnew].
  - exists new. split; [reflexivity | exact Hnew].
  - destruct (transport_rx_copy_data_stores segment buf_len buffer [])
      as (new' & -> & H'). exact H'.
Qed.

(** *** Acknowledgements and sequence numbers *)

(** C4. For every segment [network_rx] hands to [transport_attempt_rx], be
    it outdated or new, the effects of the call are the acknowledgement
    delay and one [network_tx] of a five-byte ACK whose sequence number is
    the complement of the segment's (1 for 0, 0 for 1), whose destination
    port is the segment's source port [segment[3]] and whose source port is
    [MY_PORT], routed to the network address of [segment[3]]. The
    acknowledgement does not depend on the sequence-number check, whose
    two results are the only possible ones. *)
Theorem transport_attempt_rx_acknowledges (MY_PORT MY_NETWORK_ADDR : Z)
    (resolve_network_addr : Z -> Z) (rx_seq : Z) (stale segment : list Z) :
  let a := transport_attempt_rx MY_PORT MY_NETWORK_ADDR resolve_network_addr
             rx_seq stale (Network_rx_success segment) in
  let ack_seg := [ACK_SEGMENT_HEARDER_LEN; advance_seq (load segment 1);
                  load segment 3; MY_PORT; SEGID_ACK] in
  arx_effects a =
    [Delay_ms TRANSPORT_TX_ACK_DELAY_MS;
     Network_tx ack_seg ACK_SEGMENT_HEARDER_LEN
       (resolve_network_addr (load segment 3)) MY_NETWORK_ADDR] /\
  (arx_result a = TRANSPORT_ATTEMPT_RX_OUTDATED \/
   arx_result a = TRANSPORT_ATTEMPT_RX_SUCCESS) /\
  load ack_seg 1 = advance_seq (load segment 1) /\
  advance_seq 0 = 1 /\ advance_seq 1 = 0 /\
  load ack_seg 2 = load segment 3 /\
  load ack_seg 3 = MY_PORT /\
  load ack_seg 4 = SEGID_ACK.
Proof.
  intros a ack_seg. split; [apply attempt_rx_effects|].
  split; [|repeat split].
  subst a. unfold transport_attempt_rx. destruct (negb _); auto.
Qed.

(** C8. A START_OF_MESSAGE segment sets the expected sequence number to
    its own sequence number before anything else is done with it, so
    whatever [rx_seq] was, the segment is acknowledged (with the
    complement of its sequence number), accepted, and leaves [rx_seq] at
    the complement of its sequence number; a start with sequence number 0
    leaves the receiver expecting 1. *)
Theorem transport_attempt_rx_start_of_message (MY_PORT MY_NETWORK_ADDR : Z)
    (resolve_network_addr : Z -> Z) (rx_seq : Z) (stale segment : list Z) :
  load segment 4 = SEGID_START_OF_MESSAGE ->
  let a := transport_attempt_rx MY_PORT MY_NETWORK_ADDR resolve_network_addr
             rx_seq stale (Network_rx_success segment) in
  synchronise_rx_seq rx_seq segment = load segment 1 /\
  arx_result a = TRANSPORT_ATTEMPT_RX_SUCCESS /\
  arx_rx_seq a = advance_seq (load segment 1) /\
  arx_segment a = segment /\
  arx_effects a =
    [Delay_ms TRANSPORT_TX_ACK_DELAY_MS;
     Network_tx [ACK_SEGMENT_HEARDER_LEN; advance_seq (load segment 1);
                 load segment 3; MY_PORT; SEGID_ACK]
       ACK_SEGMENT_HEARDER_LEN
       (resolve_network_addr (load segment 3)) MY_NETWORK_ADDR] /\
  (load segment 1 = 0 -> arx_rx_seq a = 1).
Proof.
  intros Hsom a.
  assert (Hsync : synchronise_rx_seq rx_seq segment = load segment 1).
  { unfold synchronise_rx_seq. rewrite Hsom. reflexivity. }
  destruct (attempt_rx_fresh MY_PORT MY_NETWORK_ADDR resolve_network_addr
              rx_seq stale segment (eq_sym Hsync)) as (Hr & Hq & Hg).
  repeat split; try assumption.
  - apply attempt_rx_effects.
  - intros H0. subst a. rewrite Hq, H0. reflexivity.
Qed.

(** A receiver left expecting 1 by an interrupted message accepts a fresh
    START_OF_MESSAGE with sequence number 0 and then expects 1. *)
Lemma transport_attempt_rx_start_of_message_witness :
  let a := transport_attempt_rx 0x0A 0x0A example_resolve_network_addr
             1 [] (Network_rx_success example_som) in
  arx_result a = TRANSPORT_ATTEMPT_RX_SUCCESS /\ arx_rx_seq a = 1.
Proof.
  destruct (transport_attempt_rx_start_of_message 0x0A 0x0A
              example_resolve_network_addr 1 [] example_som eq_refl)
    as (_ & Hr & _ & _ & _ & H1).
  split; [exact Hr | exact (H1 eq_refl)].
Defined.

(** [segment[5] << 8 + segment[6]] agrees with the big-endian value of
    bytes 5 and 6 only if byte 6 is zero. *)
Lemma message_len_of_segment_be16 (segment : list Z) :
  0 <= load segment 5 < 256 ->
  0 <= load segment 6 < 256 ->
  message_len_of_segment segment = be16_field segment <-> load segment 6 = 0.
Proof.
  intros H5 H6. unfold message_len_of_segment, be16_field, uint16_of_int.
  rewrite Z.shiftl_mul_pow2 by lia.
  rewrite Z.pow_add_r by lia.
  change (2 ^ 8) with 256.
  split.
  - intros Heq.
    assert (Hm : (load segment 5 * (256 * 2 ^ load segment 6)) mod 65536 mod 256
                 = (load segment 5 * 256 + load segment 6) mod 256)
      by (rewrite Heq; reflexivity).
    rewrite Z.mod_mod_divide in Hm by (exists 256; lia).
    replace (load segment 5 * (256 * 2 ^ load segment 6))
      with (load segment 5 * 2 ^ load segment 6 * 256) in Hm by lia.
    rewrite Z.mod_mul in Hm by lia.
    rewrite Z.add_comm, Z.mod_add in Hm by lia.
    rewrite Z.mod_small in Hm by lia. lia.
  - intros ->. change (2 ^ 0) with 1.
    rewrite Z.mod_small by lia. lia.
Qed.

(** C2, at failing inputs. The receiver at port 0x0A gets the one-byte
    message of [example_session]. It reports success, the source port
    0x3C and the byte, but a message length of 0, where bytes 5 and 6 of
    the START_OF_MESSAGE segment say 1. In [example_restart] the first
    START_OF_MESSAGE (bytes 1, 0) is decoded to 256, the second one
    (bytes 0, 2), taken in the Receiving state, to 0 where the bytes
    say 2. *)
Theorem transport_rx_message_len_precedence :
  let r := transport_rx 0x0A 0x0A example_resolve_network_addr 0
             [0xFF; 0xFF; 0xFF; 0xFF] 4 (Some 0xFFFF) (Some 0xFF)
             example_session in
  let r1 := transport_rx 0x0A 0x0A example_resolve_network_addr 0
              [0xFF; 0xFF; 0xFF; 0xFF] 4 (Some 0xFFFF) (Some 0xFF)
              [Network_rx_success example_som_256] in
  let r2 := transport_rx 0x0A 0x0A example_resolve_network_addr 0
              [0xFF; 0xFF; 0xFF; 0xFF] 4 (Some 0xFFFF) (Some 0xFF)
              example_restart in
  trx_result r = Returned TRANSPORT_RX_SUCCESS /\
  rx_source_port (trx_machine r) = Some 0x3C /\
  rx_buffer (trx_machine r) = [0x48; 0; 0; 0] /\
  be16_field example_som = 1 /\
  rx_message_len (trx_machine r) = Some 0 /\
  rx_state (trx_machine r1) = RXST_Receiving /\
  rx_message_len (trx_machine r1) = Some 256 /\
  be16_field example_som_2 = 2 /\
  rx_message_len (trx_machine r2) = Some 0.
Proof. vm_compute. repeat split. Qed.

(** *** Retries of the keep-trying wrapper *)

Lemma transport_keep_trying_to_rx_retry (MY_PORT MY_NETWORK_ADDR : Z)
    (resolve_network_addr : Z -> Z) (rx_seq : Z) (stale : list Z)
    (trace : list effect) (ev : network_rx_event)
    (rest : list network_rx_event) :
  let a := transport_attempt_rx MY_PORT MY_NETWORK_ADDR resolve_network_addr
             rx_seq stale ev in
  arx_result a = TRANSPORT_ATTEMPT_RX_OUTDATED \/
  arx_result a = TRANSPORT_ATTEMPT_RX_ERROR ->
  transport_keep_trying_to_rx MY_PORT MY_NETWORK_ADDR resolve_network_addr
    rx_seq stale trace (ev :: rest)
  = transport_keep_trying_to_rx MY_PORT MY_NETWORK_ADDR resolve_network_addr
      (arx_rx_seq a) (arx_segment a) (trace ++ arx_effects a) rest.
Proof.
  intros a Hres. subst a. cbn [transport_keep_trying_to_rx].
  destruct Hres as [-> | ->]; reflexivity.
Qed.

Lemma rx_run_error (MY_PORT MY_NETWORK_ADDR : Z)
    (resolve_network_addr : Z -> Z) (buf_len : Z) (m : rx_machine)
    (post : list network_rx_event) :
  same_reception
    (rx_run MY_PORT MY_NETWORK_ADDR resolve_network_addr buf_len m
       (Network_rx_error :: post))
    (rx_run MY_PORT MY_NETWORK_ADDR resolve_network_addr buf_len m post).
Proof.
  cbn [rx_run]. unfold rx_step at 1 2.
  cbn [transport_attempt_rx arx_result arx_rx_seq arx_segment arx_effects
         fst snd].
  apply rx_run_same. repeat split.
Qed.

(** C3. A segment whose sequence number differs from the expected one (the
    value of [rx_seq] the check compares it with) makes
    [transport_attempt_rx] return Outdated and leaves [rx_seq] as it was on
    entry; the keep-trying wrapper then goes on to the next receive, the
    segment acknowledged and dropped. Hence the second of two equal
    segments in a row, unless they start a message, changes nothing of
    what [transport_rx] hands to its caller: same result, same buffer, same
    log of stores into the buffer, so a duplicated DATA segment is written
    at most once. A segment whose sequence number is the expected one is
    accepted and turns [rx_seq] into its complement, 1 for 0 and 0 for 1.
    For a segment other than a START_OF_MESSAGE the expected sequence
    number is [rx_seq] as it was on entry; a START_OF_MESSAGE first sets it
    to its own sequence number and so never differs from it. *)
Theorem transport_rx_discards_duplicates (MY_PORT MY_NETWORK_ADDR : Z)
    (resolve_network_addr : Z -> Z) :
  (forall rx_seq stale segment,
      load segment 1 <> synchronise_rx_seq rx_seq segment ->
      let a := transport_attempt_rx MY_PORT MY_NETWORK_ADDR
                 resolve_network_addr rx_seq stale
                 (Network_rx_success segment) in
      arx_result a = TRANSPORT_ATTEMPT_RX_OUTDATED /\ arx_rx_seq a = rx_seq) /\
  (forall rx_seq stale segment,
      load segment 4 <> SEGID_START_OF_MESSAGE ->
      load segment 1 <> rx_seq ->
      let a := transport_attempt_rx MY_PORT MY_NETWORK_ADDR
                 resolve_network_addr rx_seq stale
                 (Network_rx_success segment) in
      arx_result a = TRANSPORT_ATTEMPT_RX_OUTDATED /\ arx_rx_seq a = rx_seq) /\
  (forall rx_seq stale segment trace rest,
      load segment 1 <> synchronise_rx_seq rx_seq segment ->
      transport_keep_trying_to_rx MY_PORT MY_NETWORK_ADDR resolve_network_addr
        rx_seq stale trace (Network_rx_success segment :: rest)
      = transport_keep_trying_to_rx MY_PORT MY_NETWORK_ADDR
          resolve_network_addr rx_seq segment
          (trace ++ arx_effects
                      (transport_attempt_rx MY_PORT MY_NETWORK_ADDR
                         resolve_network_addr rx_seq stale
                         (Network_rx_success segment)))
          rest) /\
  (forall rx_seq buffer buf_len message_len source_port pre d rest,
      load d 4 <> SEGID_START_OF_MESSAGE ->
      same_reception
        (transport_rx MY_PORT MY_NETWORK_ADDR resolve_network_addr rx_seq
           buffer buf_len message_len source_port
           (pre ++ Network_rx_success d :: Network_rx_success d :: rest))
        (transport_rx MY_PORT MY_NETWORK_ADDR resolve_network_addr rx_seq
           buffer buf_len message_len source_port
           (pre ++ Network_rx_success d :: rest))) /\
  (forall rx_seq stale segment,
      load segment 1 = synchronise_rx_seq rx_seq segment ->
      let a := transport_attempt_rx MY_PORT MY_NETWORK_ADDR
                 resolve_network_addr rx_seq stale
                 (Network_rx_success segment) in
      arx_result a = TRANSPORT_ATTEMPT_RX_SUCCESS /\
      arx_rx_seq a = advance_seq (synchronise_rx_seq rx_seq segment) /\
      (arx_rx_seq a = 0 \/ arx_rx_seq a = 1)) /\
  advance_seq 0 = 1 /\ advance_seq 1 = 0.
Proof.
  repeat apply conj; try reflexivity.
  - intros rx_seq stale segment Hne.
    destruct (attempt_rx_outdated MY_PORT MY_NETWORK_ADDR resolve_network_addr
                rx_seq stale segment Hne) as (Hr & Hq & _).
    split; assumption.
  - intros rx_seq stale segment Hd Hne.
    rewrite <- (synchronise_rx_seq_other rx_seq segment Hd) in Hne at 1.
    destruct (attempt_rx_outdated MY_PORT MY_NETWORK_ADDR resolve_network_addr
                rx_seq stale segment Hne) as (Hr & Hq & _).
    split; assumption.
  - intros rx_seq stale segment trace rest Hne.
    destruct (attempt_rx_outdated MY_PORT MY_NETWORK_ADDR resolve_network_addr
                rx_seq stale segment Hne) as (Hr & Hq & Hg).
    cbn zeta in Hr, Hq, Hg.
    rewrite transport_keep_trying_to_rx_retry by (left; exact Hr).
    rewrite Hq, Hg. reflexivity.
  - intros rx_seq buffer buf_len message_len source_port pre d rest Hd.
    rewrite !transport_rx_is_run.
    apply rx_run_prefix_same. intros m. apply rx_run_duplicate, Hd.
  - intros rx_seq stale segment Heq.
    destruct (attempt_rx_fresh MY_PORT MY_NETWORK_ADDR resolve_network_addr
                rx_seq stale segment Heq) as (Hr & Hq & _).
    cbn zeta in *. rewrite Hq, <- Heq.
    repeat split; [exact Hr | apply advance_seq_bit].
Qed.

(** The one-byte session with its DATA segment received twice: the second
    copy is outdated, and the reception ends as without it. *)
Lemma transport_rx_discards_duplicates_witness :
  arx_result (transport_attempt_rx 0x0A 0x0A example_resolve_network_addr
                0 example_data (Network_rx_success example_data))
    = TRANSPORT_ATTEMPT_RX_OUTDATED /\
  arx_result (transport_attempt_rx 0x0A 0x0A example_resolve_network_addr
                1 example_som (Network_rx_success example_data))
    = TRANSPORT_ATTEMPT_RX_SUCCESS /\
  same_reception
    (transport_rx 0x0A 0x0A example_resolve_network_addr 0 [9; 9; 9; 9] 4
       (Some 0) (Some 0)
       ([Network_rx_success example_som]
          ++ Network_rx_success example_data
          :: Network_rx_success example_data
          :: [Network_rx_success example_eom]))
    (transport_rx 0x0A 0x0A example_resolve_network_addr 0 [9; 9; 9; 9] 4
       (Some 0) (Some 0)
       ([Network_rx_success example_som]
          ++ Network_rx_success example_data
          :: [Network_rx_success example_eom])).
Proof.
  destruct (transport_rx_discards_duplicates 0x0A 0x0A
              example_resolve_network_addr)
    as (Hout & _ & _ & Hdup & Hnew & _).
  split; [|split].
  - apply (Hout 0 example_data example_data). vm_compute. lia.
  - apply (Hnew 1 example_som example_data). vm_compute. reflexivity.
  - apply Hdup. vm_compute. lia.
Defined.

(** C7, as stated, fails: a network error does not make [transport_rx]
    return; the receive is tried again, and here the next event, a
    timeout, is what the caller sees. *)
Lemma transport_rx_error_is_retried :
  trx_result (transport_rx 0x0A 0x0A example_resolve_network_addr 0
                [9; 9; 9; 9] 4 (Some 0) (Some 0) [Network_rx_error])
    = Blocked /\
  trx_result (transport_rx 0x0A 0x0A example_resolve_network_addr 0
                [9; 9; 9; 9] 4 (Some 0) (Some 0)
                [Network_rx_error; Network_rx_timeout])
    = Returned TRANSPORT_RX_TIMEOUT /\
  trx_result (transport_rx 0x0A 0x0A example_resolve_network_addr 0
                [9; 9; 9; 9] 4 (Some 0) (Some 0)
                [Network_rx_error; Network_rx_timeout])
    <> Returned TRANSPORT_RX_ERROR.
Proof. vm_compute. repeat split. discriminate. Qed.

(** C7 (amended). The keep-trying wrapper of [transport_rx] tries again
    when [transport_attempt_rx] reports Outdated or an error, and every
    network error is reported as such an error; so an error event changes
    nothing of what [transport_rx] hands to its caller. A receive timeout
    makes [transport_rx] return [TRANSPORT_RX_TIMEOUT]. No script makes it
    return [TRANSPORT_RX_ERROR]. *)
Theorem transport_rx_surfaces_timeout_only (MY_PORT MY_NETWORK_ADDR : Z)
    (resolve_network_addr : Z -> Z) (rx_seq : Z) (buffer : list Z)
    (buf_len : Z) (message_len source_port : option Z) :
  (forall rx_seq stale trace ev rest,
      let a := transport_attempt_rx MY_PORT MY_NETWORK_ADDR
                 resolve_network_addr rx_seq stale ev in
      arx_result a = TRANSPORT_ATTEMPT_RX_OUTDATED \/
      arx_result a = TRANSPORT_ATTEMPT_RX_ERROR ->
      transport_keep_trying_to_rx MY_PORT MY_NETWORK_ADDR resolve_network_addr
        rx_seq stale trace (ev :: rest)
      = transport_keep_trying_to_rx MY_PORT MY_NETWORK_ADDR
          resolve_network_addr (arx_rx_seq a) (arx_segment a)
          (trace ++ arx_effects a) rest) /\
  (forall rx_seq stale,
      arx_result (transport_attempt_rx MY_PORT MY_NETWORK_ADDR
                    resolve_network_addr rx_seq stale Network_rx_error)
      = TRANSPORT_ATTEMPT_RX_ERROR) /\
  (forall pre post,
      same_reception
        (transport_rx MY_PORT MY_NETWORK_ADDR resolve_network_addr rx_seq
           buffer buf_len message_len source_port
           (pre ++ Network_rx_error :: post))
        (transport_rx MY_PORT MY_NETWORK_ADDR resolve_network_addr rx_seq
           buffer buf_len message_len source_port (pre ++ post))) /\
  (forall pre post,
      trx_result (transport_rx MY_PORT MY_NETWORK_ADDR resolve_network_addr
                    rx_seq buffer buf_len message_len source_port pre)
        = Blocked ->
      let r := transport_rx MY_PORT MY_NETWORK_ADDR resolve_network_addr
                 rx_seq buffer buf_len message_len source_port
                 (pre ++ Network_rx_timeout :: post) in
      trx_result r = Returned TRANSPORT_RX_TIMEOUT /\ trx_inbox r = post) /\
  (forall inbox,
      trx_result (transport_rx MY_PORT MY_NETWORK_ADDR resolve_network_addr
                    rx_seq buffer buf_len message_len source_port inbox)
      <> Returned TRANSPORT_RX_ERROR).
Proof.
  repeat apply conj.
  - intros. apply transport_keep_trying_to_rx_retry. assumption.
  - reflexivity.
  - intros pre post. rewrite !transport_rx_is_run.
    apply rx_run_prefix_same. intros m. apply rx_run_error.
  - intros pre post Hb r. subst r.
    rewrite transport_rx_is_run in *.
    rewrite rx_run_app by exact Hb. apply rx_run_timeout.
  - intros inbox. rewrite transport_rx_is_run. apply rx_run_not_error.
Qed.

(** A timeout after a START_OF_MESSAGE and an error is surfaced; the error
    is not. *)
Lemma transport_rx_surfaces_timeout_only_witness :
  trx_result (transport_rx 0x0A 0x0A example_resolve_network_addr 0
                [9; 9; 9; 9] 4 (Some 0) (Some 0)
                ([Network_rx_success example_som; Network_rx_error]
                   ++ Network_rx_timeout :: []))
    = Returned TRANSPORT_RX_TIMEOUT.
Proof.
  destruct (transport_rx_surfaces_timeout_only 0x0A 0x0A
              example_resolve_network_addr 0 [9; 9; 9; 9] 4 (Some 0) (Some 0))
    as (_ & _ & _ & Htimeout & _).
  apply (Htimeout [Network_rx_success example_som; Network_rx_error] []).
  vm_compute. reflexivity.
Defined.

(** ** The transmitter *)

Lemma wire_segments_app (t1 t2 : list effect) :
  wire_segments (t1 ++ t2) = wire_segments t1 ++ wire_segments t2.
Proof. unfold wire_segments. rewrite map_app, concat_app. reflexivity. Qed.

Lemma advance_seq_classify (current_seq_num : Z) (ack : list Z) :
  load ack 4 = SEGID_ACK ->
  load ack 1 = advance_seq current_seq_num ->
  transport_attempt_tx_classify current_seq_num (Network_rx_success ack)
  = TRANSPORT_ATTEMPT_TX_SUCCESS.
Proof.
  intros H4 H1. unfold transport_attempt_tx_classify.
  rewrite H4, H1, Z.eqb_refl. cbn [negb].
  destruct (Z.eqb_spec (advance_seq current_seq_num) current_seq_num) as [E|_];
    [|reflexivity].
  exfalso. exact (advance_seq_neq _ E).
Qed.

Section TransmitterFacts.

Variable MY_PORT : Z.
Variable MY_NETWORK_ADDR : Z.
Variable resolve_network_addr : Z -> Z.

Variable segment : list Z.
Variable segment_len dest_port current_seq_num : Z.

Abbreviation send :=
  (Network_tx segment segment_len (resolve_network_addr dest_port)
     MY_NETWORK_ADDR).
Abbreviation tx_loop attempts :=
  (transport_keep_trying_to_tx_loop MY_NETWORK_ADDR resolve_network_addr
     attempts segment segment_len dest_port current_seq_num).

(** One turn of the loop, by what the answer is classified as. *)
Lemma tx_loop_limit (attempts : Z) (trace : list effect)
    (inbox : list network_rx_event) :
  10 <= attempts < 65535 ->
  tx_loop attempts trace inbox
  = Tx_return (Returned TRANSPORT_KEEP_TRYING_TO_TX_REACHED_ATTEMPT_LIMIT)
      trace inbox.
Proof.
  intros Ha. destruct inbox; cbn [transport_keep_trying_to_tx_loop];
    unfold uint16_of_int, TRANSPORT_TX_ATTEMPT_LIMIT;
    rewrite Z.mod_small by lia;
    destruct (Z.gtb_spec (attempts + 1) 10); try lia; reflexivity.
Qed.

Lemma tx_loop_retry (attempts : Z) (trace : list effect)
    (ev : network_rx_event) (inbox : list network_rx_event) :
  0 <= attempts < 10 ->
  tx_retried current_seq_num ev ->
  tx_loop attempts trace (ev :: inbox)
  = tx_loop (attempts + 1)
      (trace ++ [send; Delay_ms TRANSPORT_TX_RETRY_DELAY_MS]) inbox.
Proof.
  intros Ha Hev. cbn [transport_keep_trying_to_tx_loop].
  unfold uint16_of_int, TRANSPORT_TX_ATTEMPT_LIMIT.
  rewrite Z.mod_small by lia.
  destruct (Z.gtb_spec (attempts + 1) 10); [lia|].
  unfold transport_attempt_tx. cbn [tx_result tx_trace].
  rewrite <- app_assoc. cbn [app].
  destruct Hev as [-> | [-> | ->]]; reflexivity.
Qed.

Lemma tx_loop_success (attempts : Z) (trace : list effect)
    (ev : network_rx_event) (inbox : list network_rx_event) :
  0 <= attempts < 10 ->
  transport_attempt_tx_classify current_seq_num ev
    = TRANSPORT_ATTEMPT_TX_SUCCESS ->
  tx_loop attempts trace (ev :: inbox)
  = Tx_return (Returned TRANSPORT_KEEP_TRYING_TO_TX_SUCCESS)
      (trace ++ [send]) inbox.
Proof.
  intros Ha Hev. cbn [transport_keep_trying_to_tx_loop].
  unfold uint16_of_int, TRANSPORT_TX_ATTEMPT_LIMIT.
  rewrite Z.mod_small by lia.
  destruct (Z.gtb_spec (attempts + 1) 10); [lia|].
  unfold transport_attempt_tx. cbn [tx_result tx_trace].
  rewrite Hev. reflexivity.
Qed.

(** A run of answers that are all retried. *)
Lemma tx_loop_retries (pre : list network_rx_event) :
  forall (attempts : Z) (trace : list effect) (rest : list network_rx_event),
    0 <= attempts ->
    attempts + Z.of_nat (length pre) <= 10 ->
    Forall (tx_retried current_seq_num) pre ->
    tx_loop attempts trace (pre ++ rest)
    = tx_loop (attempts + Z.of_nat (length pre))
        (trace ++ tx_retries send (length pre)) rest.
Proof.
  induction pre as [|ev pre IH]; intros attempts trace rest Ha Hlen Hpre.
  - cbn. rewrite Z.add_0_r, app_nil_r. reflexivity.
  - cbn [length app] in *. inversion Hpre as [|? ? Hev Hpre']; subst.
    rewrite tx_loop_retry by (try assumption; lia).
    rewrite IH by (try assumption; lia).
    unfold tx_retries. cbn [replicate concat].
    rewrite <- !app_assoc. cbn [app]. f_equal. lia.
Qed.

(** What any run of the loop adds to the wire: the same segment, at most
    [10 - attempts] times, and at least once if it ends in success. *)
Lemma tx_loop_wire (inbox : list network_rx_event) :
  forall (attempts : Z) (trace : list effect),
    0 <= attempts <= 10 ->
    exists n : nat,
      Z.of_nat n <= 10 - attempts /\
      wire_segments (tx_trace (tx_loop attempts trace inbox))
      = wire_segments trace
          ++ replicate n (take (Z.to_nat segment_len) segment) /\
      (tx_result (tx_loop attempts trace inbox)
         = Returned TRANSPORT_KEEP_TRYING_TO_TX_SUCCESS -> (1 <= n)%nat).
Proof.
  induction inbox as [|ev inbox IH]; intros attempts trace Ha.
  - destruct (Z.eq_dec attempts 10) as [->|Hne].
    + exists O. rewrite tx_loop_limit by lia. cbn.
      rewrite app_nil_r. repeat split; [lia | discriminate].
    + exists 1%nat. cbn [transport_keep_trying_to_tx_loop].
      unfold uint16_of_int, TRANSPORT_TX_ATTEMPT_LIMIT.
      rewrite Z.mod_small by lia.
      destruct (Z.gtb_spec (attempts + 1) 10); [lia|].
      unfold transport_attempt_tx. cbn [tx_result tx_trace].
      rewrite wire_segments_app. repeat split; [lia | discriminate].
  - destruct (Z.eq_dec attempts 10) as [->|Hne].
    + exists O. rewrite tx_loop_limit by lia. cbn.
      rewrite app_nil_r. repeat split; [lia | discriminate].
    + cbn [transport_keep_trying_to_tx_loop].
      unfold uint16_of_int, TRANSPORT_TX_ATTEMPT_LIMIT.
      rewrite Z.mod_small by lia.
      destruct (Z.gtb_spec (attempts + 1) 10); [lia|].
      unfold transport_attempt_tx. cbn [tx_result tx_trace].
      destruct (transport_attempt_tx_classify current_seq_num ev) eqn:Hc;
        cbn [tx_result tx_trace];
        try (exists 1%nat; rewrite wire_segments_app;
             repeat split; [lia | try discriminate; lia]).
      all: destruct (IH (attempts + 1)
                       ((trace ++ [send])
                          ++ [Delay_ms TRANSPORT_TX_RETRY_DELAY_MS])
                       ltac:(lia)) as (n & Hn & Hw & Hs);
        exists (S n); rewrite Hw, !wire_segments_app; cbn;
        rewrite <- !app_assoc; cbn;
        repeat split; [lia | lia].
Qed.

End TransmitterFacts.

Lemma tx_retried_replicate_timeout (current_seq_num : Z) (n : nat) :
  Forall (tx_retried current_seq_num) (replicate n Network_rx_timeout).
Proof.
  induction n as [|n IH]; cbn; constructor; [|exact IH].
  left. reflexivity.
Qed.

(** C5. [transport_keep_trying_to_tx] puts its segment on the network at
    most [TRANSPORT_TX_ATTEMPT_LIMIT = 10] times, one [network_tx] per call
    of [transport_attempt_tx]. After fewer than 10 answers that are
    classified NotAcknowledged (timeout), NotAnAck or OldAck, each followed
    by a retry, an ACK whose sequence number is the complement of
    [current_seq_num] makes it return Success at once; after 10 such
    answers it returns ReachedAttemptLimit without another attempt. So
    [transport_tx] towards a receiver that never answers returns
    [TRANSPORT_TX_REACHED_ATTEMPT_LIMIT] after sending its START_OF_MESSAGE
    segment 10 times. *)
Theorem transport_keep_trying_to_tx_attempt_limit
    (MY_PORT MY_NETWORK_ADDR : Z) (resolve_network_addr : Z -> Z)
    (segment : list Z) (segment_len dest_port current_seq_num : Z)
    (trace : list effect) :
  let send := Network_tx segment segment_len (resolve_network_addr dest_port)
                MY_NETWORK_ADDR in
  let keep_trying :=
    transport_keep_trying_to_tx MY_NETWORK_ADDR resolve_network_addr segment
      segment_len dest_port current_seq_num trace in
  (forall inbox, exists n : nat,
      (n <= 10)%nat /\
      wire_segments (tx_trace (keep_trying inbox))
      = wire_segments trace
          ++ replicate n (take (Z.to_nat segment_len) segment)) /\
  (forall pre ack rest,
      Forall (tx_retried current_seq_num) pre ->
      (length pre < 10)%nat ->
      load ack 4 = SEGID_ACK ->
      load ack 1 = advance_seq current_seq_num ->
      keep_trying (pre ++ Network_rx_success ack :: rest)
      = Tx_return (Returned TRANSPORT_KEEP_TRYING_TO_TX_SUCCESS)
          (trace ++ tx_retries send (length pre) ++ [send]) rest) /\
  (tx_retried current_seq_num Network_rx_timeout /\
   (forall b, load b 4 <> SEGID_ACK ->
              tx_retried current_seq_num (Network_rx_success b)) /\
   (forall b, load b 4 = SEGID_ACK -> load b 1 = current_seq_num ->
              tx_retried current_seq_num (Network_rx_success b))) /\
  (forall pre rest,
      Forall (tx_retried current_seq_num) pre ->
      length pre = 10%nat ->
      keep_trying (pre ++ rest)
      = Tx_return (Returned TRANSPORT_KEEP_TRYING_TO_TX_REACHED_ATTEMPT_LIMIT)
          (trace ++ tx_retries send 10) rest) /\
  (forall message message_len rest,
      let r := transport_tx MY_PORT MY_NETWORK_ADDR resolve_network_addr
                 message message_len dest_port
                 (replicate 10 Network_rx_timeout ++ rest) in
      tx_result r = Returned TRANSPORT_TX_REACHED_ATTEMPT_LIMIT /\
      tx_inbox r = rest /\
      exists som,
        load som 4 = SEGID_START_OF_MESSAGE /\ load som 1 = 0 /\
        load som 2 = dest_port /\
        wire_segments (tx_trace r) = replicate 10 som).
Proof.
  intros send keep_trying. subst keep_trying. unfold transport_keep_trying_to_tx.
  repeat apply conj.
  - intros inbox.
    destruct (tx_loop_wire MY_NETWORK_ADDR resolve_network_addr segment
                segment_len dest_port current_seq_num inbox 0 trace
                ltac:(lia)) as (n & Hn & Hw & _).
    exists n. split; [lia | exact Hw].
  - intros pre ack rest Hpre Hlen H4 H1.
    rewrite tx_loop_retries by (try assumption; lia).
    rewrite tx_loop_success
      by (try lia; apply advance_seq_classify; assumption).
    rewrite <- app_assoc. reflexivity.
  - left. reflexivity.
  - intros b Hb. right. left. unfold transport_attempt_tx_classify.
    destruct (Z.eqb_spec (load b 4) SEGID_ACK); [contradiction | reflexivity].
  - intros b H4 H1. right. right. unfold transport_attempt_tx_classify.
    rewrite H4, H1, !Z.eqb_refl. reflexivity.
  - intros pre rest Hpre Hlen.
    rewrite tx_loop_retries by (try assumption; lia).
    rewrite Hlen. rewrite tx_loop_limit by lia. reflexivity.
  - intros message message_len rest.
    unfold transport_tx, transport_keep_trying_to_tx. cbv zeta.
    rewrite tx_loop_retries
      by (try apply tx_retried_replicate_timeout; rewrite ?length_replicate; lia).
    rewrite length_replicate. rewrite tx_loop_limit by lia.
    cbn [tx_result tx_trace tx_inbox app].
    split; [reflexivity|]. split; [reflexivity|].
    eexists. split; [|split; [|split]].
    4: reflexivity.
    all: reflexivity.
Qed.

(** Nine timeouts and then the right ACK: Success on the tenth attempt.
    Ten timeouts: ReachedAttemptLimit. *)
Lemma transport_keep_trying_to_tx_attempt_limit_witness :
  tx_result (transport_keep_trying_to_tx 0x3C example_resolve_network_addr
               example_som 7 0x0A 0 []
               (replicate 9 Network_rx_timeout
                  ++ Network_rx_success [5; 1; 0x3C; 0x0A; 0x0A] :: []))
    = Returned TRANSPORT_KEEP_TRYING_TO_TX_SUCCESS /\
  tx_result (transport_keep_trying_to_tx 0x3C example_resolve_network_addr
               example_som 7 0x0A 0 []
               (replicate 10 Network_rx_timeout ++ []))
    = Returned TRANSPORT_KEEP_TRYING_TO_TX_REACHED_ATTEMPT_LIMIT.
Proof.
  destruct (transport_keep_trying_to_tx_attempt_limit 0x3C 0x3C
              example_resolve_network_addr example_som 7 0x0A 0 [])
    as (_ & Hsuccess & _ & Hlimit & _).
  split.
  - rewrite (Hsuccess (replicate 9 Network_rx_timeout) [5; 1; 0x3C; 0x0A; 0x0A] []).
    + reflexivity.
    + apply tx_retried_replicate_timeout.
    + vm_compute. lia.
    + reflexivity.
    + reflexivity.
  - rewrite (Hlimit (replicate 10 Network_rx_timeout) []).
    + reflexivity.
    + apply tx_retried_replicate_timeout.
    + reflexivity.
Defined.

(** *** Building a DATA segment *)

Lemma high_byte (x : Z) :
  0 <= x < 65536 -> byte_of_int (Z.shiftr (Z.land x 0xFF00) 8) = x / 256.
Proof.
  intros Hx. unfold byte_of_int.
  rewrite Z.shiftr_land.
  change (Z.shiftr 0xFF00 8) with (Z.ones 8).
  rewrite Z.land_ones by lia.
  rewrite Z.shiftr_div_pow2 by lia.
  change (2 ^ 8) with 256.
  assert (0 <= x / 256 < 256)
    by (split; [apply Z.div_pos; lia | apply Z.div_lt_upper_bound; lia]).
  rewrite (Z.mod_small (x / 256) 256) by lia.
  apply Z.mod_small. lia.
Qed.

Lemma low_byte (x : Z) :
  byte_of_int (Z.shiftr (Z.land x 0x00FF) 0) = x mod 256.
Proof.
  unfold byte_of_int. rewrite Z.shiftr_0_r.
  change 0x00FF with (Z.ones 8).
  rewrite Z.land_ones by lia.
  change (2 ^ 8) with 256.
  apply Z.mod_mod. lia.
Qed.

Lemma header_stores_7 (segment : list Z) (v0 v1 v2 v3 v4 v5 v6 : Z) :
  (7 <= length segment)%nat ->
  store (store (store (store (store (store (store segment 0 v0) 1 v1) 2 v2)
                         3 v3) 4 v4) 5 v5) 6 v6
  = [v0; v1; v2; v3; v4; v5; v6] ++ drop 7 segment.
Proof.
  intros Hlen.
  do 7 (destruct segment as [|? segment]; [cbn in Hlen; lia|]).
  reflexivity.
Qed.

Lemma header_stores_5 (segment : list Z) (v0 v1 v2 v3 v4 : Z) :
  (5 <= length segment)%nat ->
  store (store (store (store (store segment 0 v0) 1 v1) 2 v2) 3 v3) 4 v4
  = [v0; v1; v2; v3; v4] ++ drop 5 segment.
Proof.
  intros Hlen.
  do 5 (destruct segment as [|? segment]; [cbn in Hlen; lia|]).
  reflexivity.
Qed.

(** The DATA segment built with [bytes_remaining = message_len - 21 * k]
    is the [k]-th DATA segment of the specification. *)
Lemma transport_tx_build_data_spec (MY_PORT : Z) (message : list Z)
    (message_len dest_port : Z) (k : nat) (bytes_remaining : Z)
    (segment : list Z) :
  0 <= message_len < 65536 ->
  message_len <= Z.of_nat (length message) ->
  bytes_remaining = message_len - 21 * Z.of_nat k ->
  0 < bytes_remaining ->
  length segment = 28%nat ->
  let b := transport_tx_build_data MY_PORT message message_len dest_port
             bytes_remaining (if Nat.even k then 1 else 0) segment in
  fst (fst b) = Z.min bytes_remaining 21 /\
  snd (fst b) = Z.min bytes_remaining 21 + 7 /\
  length (snd b) = 28%nat /\
  take (Z.to_nat (snd (fst b))) (snd b)
  = spec_data_segment MY_PORT message message_len dest_port k.
Proof.
  intros HL Hmsg Hbr Hpos Hseg. unfold transport_tx_build_data.
  change (MAX_SEGMENT_LEN - DATA_SEGMENT_HEADER_LEN) with 21.
  change DATA_SEGMENT_HEADER_LEN with 7.
  assert (Hpl : (if bytes_remaining >? 21 then byte_of_int 21
                 else byte_of_int bytes_remaining) = Z.min bytes_remaining 21).
  { unfold byte_of_int. destruct (Z.gtb_spec bytes_remaining 21).
    - change (21 mod 256) with 21. lia.
    - rewrite Z.mod_small by lia. lia. }
  rewrite Hpl. set (pl := Z.min bytes_remaining 21) in *.
  assert (Hplr : 0 < pl <= 21) by lia.
  assert (Hsl : byte_of_int (pl + 7) = pl + 7)
    by (unfold byte_of_int; apply Z.mod_small; lia).
  rewrite Hsl.
  assert (Hstart : uint16_of_int (message_len - bytes_remaining)
                   = message_len - bytes_remaining)
    by (unfold uint16_of_int; apply Z.mod_small; lia).
  rewrite Hstart. set (start := message_len - bytes_remaining) in *.
  rewrite high_byte, low_byte by lia.
  rewrite header_stores_7 by lia.
  set (s7 := [pl + 7; if Nat.even k then 1 else 0; dest_port; MY_PORT;
              SEGID_DATA; start / 256; start mod 256] ++ drop 7 segment).
  assert (Hs7 : length s7 = 28%nat).
  { subst s7. rewrite length_app, length_drop, Hseg. reflexivity. }
  cbn [fst snd].
  rewrite (copy_loop 7 pl) by lia.
  change (Z.to_nat (7 + 0)) with 7%nat.
  replace (pl - 0) with pl by lia.
  repeat split.
  - rewrite !length_app, length_take, length_map, length_seqZ, length_drop.
    lia.
  - rewrite load_slice by lia.
    rewrite app_assoc.
    rewrite take_app_length'.
    + subst s7. cbn [app take]. unfold spec_data_segment.
      change (MAX_SEGMENT_LEN - DATA_SEGMENT_HEADER_LEN) with 21.
      change DATA_SEGMENT_HEADER_LEN with 7.
      rewrite <- Hbr. fold pl. fold start.
      replace (7 + pl) with (pl + 7) by lia. reflexivity.
    + rewrite length_app, length_take, length_take, length_drop. lia.
Qed.

(** *** The segments of a whole message *)

Lemma spec_data_count_lt (message_len : Z) (k : nat) :
  0 <= message_len ->
  (k < spec_data_count message_len)%nat <-> 21 * Z.of_nat k < message_len.
Proof.
  intros HL. unfold spec_data_count.
  pose proof (Z.div_mod (message_len + 20) 21 ltac:(lia)) as Hdm.
  pose proof (Z.mod_pos_bound (message_len + 20) 21 ltac:(lia)) as Hm.
  assert (0 <= (message_len + 20) / 21) by (apply Z.div_pos; lia).
  remember ((message_len + 20) / 21) as q.
  remember ((message_len + 20) mod 21) as r.
  split; intros Hk; lia.
Qed.

Lemma toggle_even (k : nat) :
  (if (if Nat.even k then 1 else 0) =? 0 then 1 else 0)
  = (if Nat.even (S k) then 1 else 0).
Proof.
  rewrite Nat.even_succ, <- Nat.negb_even.
  destruct (Nat.even k); reflexivity.
Qed.

Section TransmitterSegments.

Variable MY_PORT : Z.
Variable MY_NETWORK_ADDR : Z.
Variable resolve_network_addr : Z -> Z.
Variable message : list Z.
Variable message_len dest_port : Z.
Hypothesis message_len_uint16 : 0 <= message_len < 65536.
Hypothesis message_length : message_len <= Z.of_nat (length message).

Abbreviation data_loop :=
  (transport_tx_data_loop MY_PORT MY_NETWORK_ADDR resolve_network_addr).
Abbreviation data_segment :=
  (spec_data_segment MY_PORT message message_len dest_port).

Lemma transport_tx_end_of_message_wire (k : nat) (segment : list Z)
    (trace : list effect) (inbox : list network_rx_event) :
  length segment = 28%nat ->
  let r := transport_tx_end_of_message MY_PORT MY_NETWORK_ADDR
             resolve_network_addr dest_port (if Nat.even k then 1 else 0)
             segment trace inbox in
  tx_result r = Returned TRANSPORT_TX_SUCCESS ->
  exists wire,
    wire_segments (tx_trace r) = wire_segments trace ++ wire /\
    sent_in_order [spec_eom MY_PORT dest_port k] wire.
Proof.
  intros Hseg. unfold transport_tx_end_of_message. cbv zeta.
  rewrite header_stores_5 by lia.
  unfold transport_keep_trying_to_tx.
  match goal with
  | |- context [transport_keep_trying_to_tx_loop _ _ 0 ?s ?l ?d ?c ?t ?i] =>
      destruct (tx_loop_wire MY_NETWORK_ADDR resolve_network_addr s l d c i 0 t
                  ltac:(lia)) as (n & Hn & Hw & Hs);
      destruct (tx_result (transport_keep_trying_to_tx_loop _ _ 0 s l d c t i))
        as [[| |]|] eqn:Hr
  end; cbn [tx_result tx_trace]; try discriminate.
  intros _. eexists. split; [exact Hw|].
  rewrite <- (app_nil_r (replicate n _)).
  apply (sent_in_order_cons _ n [] []); [|constructor].
  specialize (Hs eq_refl). lia.
Qed.

Lemma transport_tx_data_loop_wire :
  forall (fuel k : nat) (bytes_remaining : Z) (segment : list Z)
         (trace : list effect) (inbox : list network_rx_event),
    bytes_remaining = Z.max 0 (message_len - 21 * Z.of_nat k) ->
    (k <= spec_data_count message_len)%nat ->
    (Z.to_nat bytes_remaining < fuel)%nat ->
    length segment = 28%nat ->
    let r := data_loop fuel message message_len dest_port bytes_remaining
               (if Nat.even k then 1 else 0) segment trace inbox in
    tx_result r = Returned TRANSPORT_TX_SUCCESS ->
    exists wire,
      wire_segments (tx_trace r) = wire_segments trace ++ wire /\
      sent_in_order
        (map data_segment (seq k (spec_data_count message_len - k))
           ++ [spec_eom MY_PORT dest_port (spec_data_count message_len)])
        wire.
Proof.
  induction fuel as [|fuel IH];
    intros k bytes_remaining segment trace inbox Hbr Hk Hfuel Hseg; [lia|].
  cbn [transport_tx_data_loop].
  destruct (Z.gtb_spec bytes_remaining 0) as [Hpos|Hzero].
  - assert (Hlt : (k < spec_data_count message_len)%nat)
      by (apply spec_data_count_lt; lia).
    pose proof (transport_tx_build_data_spec MY_PORT message message_len
                  dest_port k bytes_remaining segment message_len_uint16
                  message_length ltac:(lia) Hpos Hseg) as Hb.
    cbv zeta in Hb.
    destruct (transport_tx_build_data MY_PORT message message_len dest_port
                bytes_remaining (if Nat.even k then 1 else 0) segment)
      as [[pl sl] seg'].
    cbn [fst snd] in Hb. destruct Hb as (Hpl & Hsl & Hlen' & Htake).
    unfold transport_keep_trying_to_tx.
    destruct (tx_loop_wire MY_NETWORK_ADDR resolve_network_addr seg' sl
                dest_port (if Nat.even k then 1 else 0) inbox 0 trace
                ltac:(lia)) as (n & Hn & Hw & Hs).
    destruct (tx_result (transport_keep_trying_to_tx_loop MY_NETWORK_ADDR
                           resolve_network_addr 0 seg' sl dest_port
                           (if Nat.even k then 1 else 0) trace inbox))
      as [[| |]|] eqn:Hr; cbn [tx_result tx_trace]; try discriminate.
    rewrite toggle_even. intros Hres.
    destruct (IH (S k) (uint16_of_int (bytes_remaining - pl)) seg'
                (tx_trace (transport_keep_trying_to_tx_loop MY_NETWORK_ADDR
                             resolve_network_addr 0 seg' sl dest_port
                             (if Nat.even k then 1 else 0) trace inbox)
                   ++ [Delay_ms TRANSPORT_TX_SEGMENT_SPACING_MS])
                (tx_inbox (transport_keep_trying_to_tx_loop MY_NETWORK_ADDR
                             resolve_network_addr 0 seg' sl dest_port
                             (if Nat.even k then 1 else 0) trace inbox)))
      as (wire & Hwire & Hsent).
    + unfold uint16_of_int. rewrite Z.mod_small by lia. lia.
    + lia.
    + unfold uint16_of_int. rewrite Z.mod_small by lia. lia.
    + exact Hlen'.
    + exact Hres.
    + exists (replicate n (data_segment k) ++ wire). split.
      * rewrite Hwire, wire_segments_app, Hw, Htake.
        cbn [wire_segments map wire_segment concat app].
        rewrite app_nil_r, <- app_assoc. reflexivity.
      * replace (spec_data_count message_len - k)%nat
          with (S (spec_data_count message_len - S k)) by lia.
        cbn [seq map app].
        apply sent_in_order_cons; [|exact Hsent].
        specialize (Hs eq_refl). lia.
  - assert (Hge : ~ (k < spec_data_count message_len)%nat)
      by (rewrite spec_data_count_lt; lia).
    assert (k = spec_data_count message_len) by lia. subst k.
    rewrite Nat.sub_diag. cbn [seq map app].
    apply transport_tx_end_of_message_wire. exact Hseg.
Qed.

End TransmitterSegments.

Lemma transport_tx_wire (MY_PORT MY_NETWORK_ADDR : Z)
    (resolve_network_addr : Z -> Z) (message : list Z)
    (message_len dest_port : Z) (inbox : list network_rx_event) :
  0 <= message_len < 65536 ->
  message_len <= Z.of_nat (length message) ->
  let r := transport_tx MY_PORT MY_NETWORK_ADDR resolve_network_addr message
             message_len dest_port inbox in
  tx_result r = Returned TRANSPORT_TX_SUCCESS ->
  sent_in_order
    (spec_som MY_PORT message_len dest_port
       :: spec_data_segments MY_PORT message message_len dest_port
       ++ [spec_eom MY_PORT dest_port (spec_data_count message_len)])
    (wire_segments (tx_trace r)).
Proof.
  intros HL Hmsg. unfold transport_tx. cbv zeta.
  rewrite header_stores_7 by (rewrite length_replicate; vm_compute; lia).
  rewrite high_byte, low_byte by lia.
  unfold transport_keep_trying_to_tx.
  match goal with
  | |- context [transport_keep_trying_to_tx_loop _ _ 0 ?s ?l ?d ?c ?t ?i] =>
      destruct (tx_loop_wire MY_NETWORK_ADDR resolve_network_addr s l d c i 0 t
                  ltac:(lia)) as (n & Hn & Hw & Hs);
      destruct (tx_result (transport_keep_trying_to_tx_loop _ _ 0 s l d c t i))
        as [[| |]|] eqn:Hr;
      set (r1 := transport_keep_trying_to_tx_loop _ _ 0 s l d c t i) in *
  end; cbn [tx_result tx_trace]; try discriminate.
  intros Hres.
  destruct (transport_tx_data_loop_wire MY_PORT MY_NETWORK_ADDR
              resolve_network_addr message message_len dest_port HL Hmsg
              (S (Z.to_nat message_len)) 0 message_len
              ([START_SEGMENT_HEADER_LEN; 0; dest_port; MY_PORT;
                SEGID_START_OF_MESSAGE; message_len / 256;
                message_len mod 256]
                 ++ drop 7 (replicate (Z.to_nat MAX_SEGMENT_LEN) 0))
              (tx_trace r1 ++ [Delay_ms TRANSPORT_TX_SEGMENT_SPACING_MS])
              (tx_inbox r1))
    as (wire & Hwire & Hsent).
  - lia.
  - lia.
  - lia.
  - reflexivity.
  - exact Hres.
  - change (if 0 =? 0 then 1 else 0) with (if Nat.even 0 then 1 else 0).
    rewrite Hwire, wire_segments_app, Hw.
    cbn [wire_segments map wire_segment concat app].
    rewrite app_nil_r.
    change (take (Z.to_nat START_SEGMENT_HEADER_LEN) _)
      with (spec_som MY_PORT message_len dest_port).
    apply sent_in_order_cons.
    + specialize (Hs eq_refl). lia.
    + rewrite Nat.sub_0_r in Hsent. exact Hsent.
Qed.

(** *** The DATA segments of the specification *)

Section SpecSegments.

Variable MY_PORT : Z.
Variable message : list Z.
Variable message_len dest_port : Z.
Hypothesis message_len_uint16 : 0 <= message_len < 65536.
Hypothesis message_length : message_len <= Z.of_nat (length message).

Lemma spec_data_segments_lookup (k : nat) (d : list Z) :
  spec_data_segments MY_PORT message message_len dest_port !! k = Some d ->
  21 * Z.of_nat k < message_len /\
  d = spec_data_segment MY_PORT message message_len dest_port k.
Proof.
  unfold spec_data_segments. intros Hd.
  change (map ?f ?l) with (f <$> l) in Hd.
  rewrite list_lookup_fmap in Hd.
  destruct (seq 0 (spec_data_count message_len) !! k) as [k'|] eqn:Hk;
    [|discriminate].
  apply lookup_seq in Hk as [-> Hlt]. cbn in Hd. injection Hd as <-.
  split; [|reflexivity].
  apply spec_data_count_lt; [lia | exact Hlt].
Qed.

Lemma spec_data_segment_fields (k : nat) :
  21 * Z.of_nat k < message_len ->
  let d := spec_data_segment MY_PORT message message_len dest_port k in
  let bytes_remaining := message_len - 21 * Z.of_nat k in
  load d 0 = DATA_SEGMENT_HEADER_LEN + Z.min bytes_remaining 21 /\
  load d 4 = SEGID_DATA /\
  be16_field d = 21 * Z.of_nat k /\
  segment_payload d
  = take (Z.to_nat (Z.min bytes_remaining 21))
      (drop (Z.to_nat (21 * Z.of_nat k)) message) /\
  Z.of_nat (length (segment_payload d)) = Z.min bytes_remaining 21.
Proof.
  intros Hk d bytes_remaining. subst d bytes_remaining.
  unfold spec_data_segment.
  change (MAX_SEGMENT_LEN - DATA_SEGMENT_HEADER_LEN) with 21.
  replace (message_len - (message_len - 21 * Z.of_nat k))
    with (21 * Z.of_nat k) by lia.
  repeat apply conj.
  - reflexivity.
  - reflexivity.
  - unfold be16_field.
    change (load (_ ++ _) 5) with (21 * Z.of_nat k / 256).
    change (load (_ ++ _) 6) with ((21 * Z.of_nat k) mod 256).
    pose proof (Z.div_mod (21 * Z.of_nat k) 256 ltac:(lia)). lia.
  - reflexivity.
  - unfold segment_payload. change (Z.to_nat DATA_SEGMENT_HEADER_LEN) with 7%nat.
    cbn [app drop]. rewrite drop_0, length_take, length_drop. lia.
Qed.

Lemma concat_slices (l : list Z) (n : nat) :
  concat (map (fun k : nat => take 21 (drop (21 * k) l)) (seq 0 n))
  = take (21 * n) l.
Proof.
  induction n as [|n IH]; [reflexivity|].
  rewrite seq_S, map_app, concat_app, IH. cbn [map concat plus].
  rewrite app_nil_r, take_take_drop. f_equal. lia.
Qed.

Lemma spec_data_segments_cover :
  concat (map segment_payload
            (spec_data_segments MY_PORT message message_len dest_port))
  = take (Z.to_nat message_len) message.
Proof.
  unfold spec_data_segments. rewrite map_map.
  rewrite (map_ext_in _
             (fun k : nat =>
                take 21 (drop (21 * k) (take (Z.to_nat message_len) message)))).
  - rewrite concat_slices, take_take. f_equal.
    pose proof (Z.div_mod (message_len + 20) 21 ltac:(lia)).
    pose proof (Z.mod_pos_bound (message_len + 20) 21 ltac:(lia)).
    assert (0 <= (message_len + 20) / 21) by (apply Z.div_pos; lia).
    unfold spec_data_count. lia.
  - intros k Hk. apply in_seq in Hk.
    assert (Hlt : 21 * Z.of_nat k < message_len)
      by (apply spec_data_count_lt; lia).
    destruct (spec_data_segment_fields k Hlt) as (_ & _ & _ & -> & _).
    replace (Z.to_nat (21 * Z.of_nat k)) with (21 * k)%nat by lia.
    rewrite !take_drop_commute, !take_take.
    do 2 f_equal. lia.
Qed.

End SpecSegments.

(** *** Fuel of the data loop *)

(** [bytes_remaining] drops by at least one per turn, so any fuel above it
    gives the same run: the branch for no fuel of
    [transport_tx_data_loop] is never taken from [transport_tx]. *)
Lemma transport_tx_data_loop_fuel (MY_PORT MY_NETWORK_ADDR : Z)
    (resolve_network_addr : Z -> Z) (message : list Z)
    (message_len dest_port : Z) :
  forall (fuel1 fuel2 : nat) (bytes_remaining current_seq_num : Z)
         (segment : list Z) (trace : list effect)
         (inbox : list network_rx_event),
    (Z.to_nat bytes_remaining < fuel1)%nat ->
    (Z.to_nat bytes_remaining < fuel2)%nat ->
    transport_tx_data_loop MY_PORT MY_NETWORK_ADDR resolve_network_addr fuel1
      message message_len dest_port bytes_remaining current_seq_num segment
      trace inbox
    = transport_tx_data_loop MY_PORT MY_NETWORK_ADDR resolve_network_addr
        fuel2 message message_len dest_port bytes_remaining current_seq_num
        segment trace inbox.
Proof.
  induction fuel1 as [|fuel1 IH];
    intros fuel2 bytes_remaining current_seq_num segment trace inbox H1 H2;
    [lia|].
  destruct fuel2 as [|fuel2]; [lia|].
  cbn [transport_tx_data_loop].
  destruct (Z.gtb_spec bytes_remaining 0) as [Hpos|_]; [|reflexivity].
  assert (Hpl : fst (fst (transport_tx_build_data MY_PORT message message_len
                            dest_port bytes_remaining current_seq_num segment))
                = if bytes_remaining >? 21 then 21 else bytes_remaining mod 256)
    by reflexivity.
  destruct (transport_tx_build_data MY_PORT message message_len dest_port
              bytes_remaining current_seq_num segment) as [[pl sl] seg'].
  cbn [fst] in Hpl.
  destruct (tx_result _) as [[| |]|]; try reflexivity.
  assert (Hdrop : uint16_of_int (bytes_remaining - pl) < bytes_remaining).
  { unfold uint16_of_int. subst pl.
    destruct (Z.gtb_spec bytes_remaining 21).
    - pose proof (Z.mod_le (bytes_remaining - 21) 65536 ltac:(lia) ltac:(lia)).
      lia.
    - rewrite (Z.mod_small bytes_remaining) by lia.
      rewrite Z.sub_diag. change (0 mod 65536) with 0. lia. }
  apply IH; lia.
Qed.

(** * Further properties *)

(** ** Data-link and network layer *)

Lemma map_load_seqZ (a : list Z) (start n : Z) :
  0 <= start -> 0 <= n ->
  start + n <= Z.of_nat (length a) ->
  map (fun i => load a (i + start)) (seqZ 0 n)
  = take (Z.to_nat n) (drop (Z.to_nat start) a).
Proof.
  intros Hs Hn Hlen. apply list_eq. intros j.
  change (map ?f ?l) with (f <$> l).
  rewrite list_lookup_fmap, lookup_take, lookup_drop.
  destruct (decide (j < Z.to_nat n)%nat) as [Hj|Hj].
  - rewrite lookup_seqZ_lt by lia. cbn [fmap option_fmap option_map].
    unfold load. destruct (Z.ltb_spec (0 + Z.of_nat j + start) 0); [lia|].
    replace (Z.to_nat (0 + Z.of_nat j + start))
      with (Z.to_nat start + j)%nat by lia.
    destruct (a !! (Z.to_nat start + j)%nat) eqn:Hm; [reflexivity|].
    apply lookup_ge_None in Hm. lia.
  - rewrite lookup_seqZ_ge by lia. reflexivity.
Qed.

(** The frame [data_link_tx] builds: the length byte, the first
    [min(payload_len, 31)] payload bytes, zero padding up to 32 bytes. *)
Lemma data_link_tx_frame (payload : list Z) (payload_len addr : Z) :
  0 <= payload_len ->
  Z.min payload_len 31 <= Z.of_nat (length payload) ->
  trx_frame (data_link_tx payload payload_len addr)
  = payload_len :: take (Z.to_nat (Z.min payload_len 31)) payload
      ++ replicate (Z.to_nat (31 - Z.min payload_len 31)) 0.
Proof.
  intros Hlen Hpay. unfold data_link_tx. cbn [trx_frame].
  change (TRX_PAYLOAD_LENGTH - FRAME_HEADER_LEN) with 31.
  change FRAME_HEADER_LEN with 1.
  change (Z.to_nat TRX_PAYLOAD_LENGTH) with 32%nat.
  change (store (replicate 32 0) 0 payload_len)
    with (payload_len :: replicate 31 0).
  rewrite (for_loop_ext _ (fun i _ => i <? Z.min payload_len 31))
    by (intros; apply andb_ltb_min).
  rewrite (copy_loop 1 (Z.min payload_len 31))
    by (cbn [length]; rewrite ?length_replicate; lia).
  change (Z.to_nat (1 + 0)) with 1%nat. rewrite Z.sub_0_r.
  replace (Z.to_nat (1 + Z.min payload_len 31))
    with (S (Z.to_nat (Z.min payload_len 31))) by lia.
  cbn [take app drop]. rewrite take_0, drop_replicate. cbn [app].
  f_equal. f_equal.
  - rewrite <- (map_load_seqZ payload 0) by lia.
    apply map_ext. intros i. f_equal. lia.
  - f_equal. lia.
Qed.

(** [data_link_rx] with room for [buf_len] bytes: the frame body replaces
    the first [min(buf_len, 31)] cells of the buffer. *)
Lemma data_link_rx_body (rxframe buffer : list Z) (buf_len : Z) :
  0 <= buf_len ->
  Z.min buf_len 31 <= Z.of_nat (length buffer) ->
  length rxframe = 32%nat ->
  data_link_rx rxframe buffer buf_len
  = take (Z.to_nat (Z.min buf_len 31)) (drop 1 rxframe)
      ++ drop (Z.to_nat (Z.min buf_len 31)) buffer.
Proof.
  intros Hlen Hbuf Hframe. unfold data_link_rx.
  change (TRX_PAYLOAD_LENGTH - FRAME_HEADER_LEN) with 31.
  change FRAME_HEADER_LEN with 1.
  change (Z.to_nat TRX_PAYLOAD_LENGTH) with 32%nat.
  rewrite (for_loop_ext _ (fun i _ => i <? Z.min buf_len 31))
    by (intros; apply andb_ltb_min).
  rewrite (for_loop_ext_body _ _
             (fun i buffer => store buffer (i + 0) (load rxframe (i + 1))))
    by (intros; rewrite Z.add_0_r; reflexivity).
  rewrite (copy_loop 0 (Z.min buf_len 31)) by lia.
  change (Z.to_nat (0 + 0)) with 0%nat. rewrite take_0, Z.sub_0_r.
  cbn [app]. rewrite map_load_seqZ by lia.
  reflexivity.
Qed.

(** X1. A frame built by [data_link_tx] for a payload of [payload_len]
    bytes, [payload_len] being a [byte] (at most 255) and the address a
    [uint32_t], is always 32 bytes long, starts with [payload_len] and
    goes to the address given; its body is the payload followed by zeros,
    cut to 31 bytes. A payload of 32 to 255 bytes is cut without notice:
    byte 0 still announces [payload_len]. *)
Theorem data_link_tx_frame_shape (payload : list Z) (payload_len addr : Z) :
  0 <= payload_len < 256 ->
  0 <= addr < 2 ^ 32 ->
  Z.of_nat (length payload) = payload_len ->
  let tx := data_link_tx payload payload_len addr in
  trx_addr tx = addr /\
  length (trx_frame tx) = 32%nat /\
  load (trx_frame tx) 0 = payload_len /\
  drop 1 (trx_frame tx)
  = take 31 (payload ++ replicate (Z.to_nat (31 - payload_len)) 0) /\
  (31 < payload_len -> drop 1 (trx_frame tx) = take 31 payload).
Proof.
  intros Hlen _ Hpay tx. subst tx.
  rewrite data_link_tx_frame by lia.
  assert (Hbody :
    take (Z.to_nat (Z.min payload_len 31)) payload
      ++ replicate (Z.to_nat (31 - Z.min payload_len 31)) 0
    = take 31 (payload ++ replicate (Z.to_nat (31 - payload_len)) 0)).
  { destruct (Z.le_gt_cases payload_len 31).
    - rewrite Z.min_l by lia.
      rewrite take_ge by lia.
      rewrite take_ge by (rewrite length_app, length_replicate; lia).
      reflexivity.
    - rewrite Z.min_r by lia.
      replace (Z.to_nat (31 - 31)) with 0%nat by lia.
      replace (Z.to_nat (31 - payload_len)) with 0%nat by lia.
      cbn [replicate]. rewrite !app_nil_r. reflexivity. }
  repeat apply conj.
  - reflexivity.
  - cbn [length]. rewrite length_app, length_take, length_replicate. lia.
  - reflexivity.
  - cbn [drop]. rewrite drop_0. exact Hbody.
  - intros Hlong. cbn [drop]. rewrite drop_0, Hbody.
    replace (Z.to_nat (31 - payload_len)) with 0%nat by lia.
    cbn [replicate]. rewrite app_nil_r. reflexivity.
Qed.

Lemma data_link_tx_frame_shape_witness :
  drop 1 (trx_frame (data_link_tx (replicate 40 7) 40 0x0B0B0B0B))
  = take 31 (replicate 40 7).
Proof.
  refine (proj2 (proj2 (proj2 (proj2
    (data_link_tx_frame_shape (replicate 40 7) 40 0x0B0B0B0B _ _ _)))) _).
  - lia.
  - lia.
  - reflexivity.
  - lia.
Defined.

(** X2. Round trip of the data-link layer: what [data_link_rx] copies out
    of a frame built by [data_link_tx] from a payload of at most 31 bytes
    is the payload followed by zeros, as far as the buffer length given, a
    [byte] (at most 255), allows; cells of the buffer beyond that are left
    alone. *)
Theorem data_link_round_trip (payload buffer : list Z)
    (payload_len addr buf_len : Z) :
  0 <= payload_len <= 31 ->
  Z.of_nat (length payload) = payload_len ->
  0 <= buf_len < 256 ->
  Z.min buf_len 31 <= Z.of_nat (length buffer) ->
  data_link_rx (trx_frame (data_link_tx payload payload_len addr))
    buffer buf_len
  = take (Z.to_nat (Z.min buf_len 31))
      (payload ++ replicate (Z.to_nat (31 - payload_len)) 0)
      ++ drop (Z.to_nat (Z.min buf_len 31)) buffer.
Proof.
  intros Hlen Hpay Hbuf Hroom.
  rewrite data_link_rx_body; try lia.
  - rewrite data_link_tx_frame by lia.
    cbn [drop]. rewrite drop_0.
    rewrite (Z.min_l payload_len 31) by lia.
    rewrite (take_ge payload) by lia. reflexivity.
  - rewrite data_link_tx_frame by lia. cbn [length].
    rewrite length_app, length_take, length_replicate. lia.
Qed.

Lemma data_link_round_trip_witness :
  data_link_rx (trx_frame (data_link_tx [1; 2; 3] 3 0x0B0B0B0B))
    (replicate 31 9) 31
  = [1; 2; 3] ++ replicate 28 0.
Proof.
  rewrite (data_link_round_trip [1; 2; 3] (replicate 31 9) 3 0x0B0B0B0B 31).
  - reflexivity.
  - lia.
  - reflexivity.
  - lia.
  - vm_compute. discriminate.
Defined.

Lemma load_drop (a : list Z) (n : nat) (j : Z) :
  0 <= j -> load (drop n a) j = load a (j + Z.of_nat n).
Proof.
  intros Hj. unfold load.
  destruct (Z.ltb_spec j 0); [lia|].
  destruct (Z.ltb_spec (j + Z.of_nat n) 0); [lia|].
  rewrite lookup_drop. do 2 f_equal. lia.
Qed.

Lemma frame_packet_body (rxframe : list Z) :
  length rxframe = 32%nat -> frame_packet rxframe = drop 1 rxframe.
Proof.
  intros Hlen. unfold frame_packet. change MAX_PACKET_LEN with 31.
  rewrite data_link_rx_body by (rewrite ?length_replicate; lia).
  change (Z.to_nat (Z.min 31 31)) with 31%nat.
  rewrite drop_replicate. cbn [replicate Nat.sub]. rewrite app_nil_r.
  apply take_ge. rewrite length_drop. lia.
Qed.

Lemma data_link_rx_overwrites (rxframe packet : list Z) :
  length rxframe = 32%nat ->
  length packet = 31%nat ->
  data_link_rx rxframe packet MAX_PACKET_LEN = frame_packet rxframe.
Proof.
  intros Hframe Hpacket. rewrite frame_packet_body by exact Hframe.
  change MAX_PACKET_LEN with 31.
  rewrite data_link_rx_body by lia.
  change (Z.to_nat (Z.min 31 31)) with 31%nat.
  rewrite (drop_ge packet) by lia. rewrite app_nil_r.
  apply take_ge. rewrite length_drop. lia.
Qed.

Section NetworkFacts.

Variable MY_NETWORK_ADDR : Z.
Variable resolve_data_link_addr : Z -> Z.
Variable char_is_signed : bool.
Variable next_hop_uninitialised : Z.

Abbreviation rx_loop :=
  (network_rx_loop MY_NETWORK_ADDR resolve_data_link_addr char_is_signed
     next_hop_uninitialised).
Abbreviation foreign := (frame_is_foreign MY_NETWORK_ADDR char_is_signed).
Abbreviation forward :=
  (network_forward resolve_data_link_addr char_is_signed
     next_hop_uninitialised).

Lemma frame_packet_length (rxframe : list Z) :
  length rxframe = 32%nat -> length (frame_packet rxframe) = 31%nat.
Proof.
  intros H. rewrite frame_packet_body by exact H. rewrite length_drop. lia.
Qed.

Lemma frame_packet_dest (rxframe : list Z) :
  length rxframe = 32%nat ->
  load (frame_packet rxframe) 1 = load rxframe 2.
Proof.
  intros H. rewrite frame_packet_body by exact H.
  rewrite load_drop by lia. reflexivity.
Qed.

(** One turn of the do-while loop on a foreign frame. *)
Lemma network_rx_loop_foreign (rxframe : list Z) (frames : list (list Z))
    (packet buffer : list Z) (buf_len : Z) (sent : list trx_transmission) :
  length rxframe = 32%nat ->
  length packet = 31%nat ->
  foreign rxframe ->
  rx_loop (rxframe :: frames) packet buffer buf_len sent
  = rx_loop frames (frame_packet rxframe) buffer buf_len
      (sent ++ [forward rxframe]).
Proof.
  intros Hframe Hpacket Hforeign. cbn [network_rx_loop].
  rewrite data_link_rx_overwrites by assumption.
  rewrite frame_packet_dest by exact Hframe.
  unfold frame_is_foreign in Hforeign.
  destruct (Z.eqb_spec (char_of_byte char_is_signed (load rxframe 2))
              MY_NETWORK_ADDR) as [E|_]; [contradiction|].
  reflexivity.
Qed.

(** The loop does not depend on what its packet array held before. *)
Lemma network_rx_loop_packet (frames : list (list Z))
    (packet packet' buffer : list Z) (buf_len : Z)
    (sent : list trx_transmission) :
  Forall (fun f => length f = 32%nat) frames ->
  length packet = 31%nat ->
  length packet' = 31%nat ->
  rx_loop frames packet buffer buf_len sent
  = rx_loop frames packet' buffer buf_len sent.
Proof.
  intros Hframes Hp Hp'. destruct frames as [|f frames]; [reflexivity|].
  inversion Hframes as [|? ? Hf _]; subst.
  cbn [network_rx_loop].
  rewrite !data_link_rx_overwrites by assumption. reflexivity.
Qed.

Lemma network_rx_loop_foreigns (pre : list (list Z)) :
  forall (rest : list (list Z)) (packet buffer : list Z) (buf_len : Z)
         (sent : list trx_transmission),
    Forall (fun f => length f = 32%nat) (pre ++ rest) ->
    length packet = 31%nat ->
    Forall foreign pre ->
    rx_loop (pre ++ rest) packet buffer buf_len sent
    = rx_loop rest (replicate 31 0) buffer buf_len
        (sent ++ map forward pre).
Proof.
  induction pre as [|f pre IH];
    intros rest packet buffer buf_len sent Hframes Hpacket Hforeign.
  - cbn [app map]. rewrite app_nil_r.
    apply network_rx_loop_packet; [assumption | assumption | reflexivity].
  - cbn [app] in *.
    inversion Hframes as [|? ? Hf Hframes']; subst.
    inversion Hforeign as [|? ? Hff Hforeign']; subst.
    rewrite network_rx_loop_foreign by assumption.
    rewrite IH by (try assumption; apply frame_packet_length; assumption).
    cbn [map]. rewrite <- app_assoc. reflexivity.
Qed.

(** One turn of the loop on a frame for this node: the loop ends. *)
Lemma network_rx_loop_own (rxframe : list Z) (frames : list (list Z))
    (packet buffer : list Z) (buf_len : Z) (sent : list trx_transmission) :
  length rxframe = 32%nat ->
  length packet = 31%nat ->
  ~ foreign rxframe ->
  exists r,
    rx_loop (rxframe :: frames) packet buffer buf_len sent
    = (Returned r, sent, frames) /\
    rx_loop [rxframe] (replicate 31 0) buffer buf_len []
    = (Returned r, [], []).
Proof.
  intros Hframe Hpacket Hown. cbn [network_rx_loop].
  rewrite !data_link_rx_overwrites
    by (try assumption; rewrite ?length_replicate; reflexivity).
  rewrite frame_packet_dest by exact Hframe.
  unfold frame_is_foreign in Hown.
  destruct (Z.eqb_spec (char_of_byte char_is_signed (load rxframe 2))
              MY_NETWORK_ADDR) as [_|E]; [|exfalso; apply Hown; exact E].
  cbn [negb]. eexists. split; reflexivity.
Qed.

End NetworkFacts.



(** The frame [network_tx] hands to the transceiver for a payload that
    fits a packet: packet length, destination, source, payload, zeros. *)
Lemma network_tx_frame (resolve_data_link_addr : Z -> Z)
    (next_hop_uninitialised : Z) (payload : list Z)
    (payload_len dest src : Z) :
  0 <= payload_len <= 28 ->
  Z.of_nat (length payload) = payload_len ->
  trx_frame (network_tx resolve_data_link_addr next_hop_uninitialised
               payload payload_len dest src)
  = [payload_len + 3; payload_len + 3; byte_of_int dest; byte_of_int src]
      ++ payload ++ replicate (Z.to_nat (28 - payload_len)) 0.
Proof.
  intros Hlen Hpay. unfold network_tx. cbv zeta.
  change PACKET_HEADER_LEN with 3.
  assert (Hb : byte_of_int (payload_len + 3) = payload_len + 3)
    by (unfold byte_of_int; apply Z.mod_small; lia).
  rewrite network_tx_packet_bytes by lia.
  change PACKET_HEADER_LEN with 3. rewrite Hb.
  rewrite Z.min_l by lia. rewrite Z.sub_diag. cbn [Z.to_nat replicate].
  rewrite app_nil_r.
  assert (Hmap : map (load payload) (seqZ 0 payload_len) = payload).
  { transitivity (map (fun i => load payload (i + 0)) (seqZ 0 payload_len)).
    - apply map_ext. intros i. f_equal. lia.
    - rewrite map_load_seqZ by lia. change (Z.to_nat 0) with 0%nat.
      rewrite drop_0. apply take_ge. lia. }
  rewrite Hmap.
  rewrite data_link_tx_frame
    by (cbn [app length]; rewrite ?length_app; cbn [length]; lia).
  rewrite Z.min_l by lia.
  rewrite take_ge by (cbn [app length]; lia).
  cbn [app]. do 6 f_equal. lia.
Qed.

(** X4. Round trip of the network layer: a payload of at most 28 bytes sent
    with [network_tx] to a node, whatever route and source address the
    sender uses, is delivered by that node's [network_rx] when the frame
    reaches it: nothing is forwarded, the returned length is
    [payload_len], and the first [min(payload_len, buf_len)] cells of the
    buffer hold the payload while the others are left alone. The length
    returned is [payload_len] even when the buffer took fewer bytes. *)
Theorem network_round_trip (MY_NETWORK_ADDR : Z)
    (resolve_rx resolve_tx : Z -> Z) (char_is_signed : bool)
    (uninit_rx uninit_tx : Z) (payload buffer : list Z)
    (payload_len src buf_len : Z) :
  0 <= MY_NETWORK_ADDR < 128 ->
  0 <= payload_len <= 28 ->
  Z.of_nat (length payload) = payload_len ->
  0 <= buf_len ->
  Z.min payload_len buf_len <= Z.of_nat (length buffer) ->
  let n := Z.to_nat (Z.min payload_len buf_len) in
  network_rx MY_NETWORK_ADDR resolve_rx char_is_signed uninit_rx
    [trx_frame (network_tx resolve_tx uninit_tx payload payload_len
                  MY_NETWORK_ADDR src)]
    buffer buf_len
  = (Returned (Network_rx_return (take n payload ++ drop n buffer)
                 payload_len),
     [], []).
Proof.
  intros Haddr Hlen Hpay Hbuf Hroom n. subst n.
  rewrite network_tx_frame by assumption.
  unfold network_rx. cbn [network_rx_loop].
  set (frame := [payload_len + 3; payload_len + 3;
                 byte_of_int MY_NETWORK_ADDR; byte_of_int src]
                  ++ payload ++ replicate (Z.to_nat (28 - payload_len)) 0).
  assert (Hframe : length frame = 32%nat).
  { subst frame. cbn [app length].
    rewrite length_app, length_replicate. lia. }
  rewrite data_link_rx_overwrites
    by (rewrite ?length_replicate; try assumption; reflexivity).
  rewrite frame_packet_body by exact Hframe.
  subst frame. cbn [app drop]. rewrite ?drop_0.
  change (load (?a :: _) 0) with a.
  change (load (_ :: ?a :: _) 1) with a.
  assert (Hchar : forall b, 0 <= b < 128 ->
                    char_of_byte char_is_signed b = b).
  { intros b Hb. unfold char_of_byte.
    destruct (Z.leb_spec 128 b); [lia|].
    rewrite andb_false_r. reflexivity. }
  rewrite (Hchar (payload_len + 3)) by lia.
  assert (Hmy : byte_of_int MY_NETWORK_ADDR = MY_NETWORK_ADDR)
    by (unfold byte_of_int; apply Z.mod_small; lia).
  rewrite Hmy, (Hchar MY_NETWORK_ADDR) by lia.
  rewrite Z.eqb_refl. cbn [negb].
  change PACKET_HEADER_LEN with 3.
  replace (payload_len + 3 - 3) with payload_len by lia.
  do 2 f_equal. f_equal.
  rewrite (for_loop_ext _ (fun i _ => i <? Z.min payload_len buf_len))
    by (intros; apply andb_ltb_min).
  set (packet := payload_len + 3 :: MY_NETWORK_ADDR :: _).
  rewrite (for_loop_ext_body _ _
             (fun i buffer => store buffer (i + 0) (load packet (i + 3))))
    by (intros; rewrite Z.add_0_r; reflexivity).
  rewrite (copy_loop 0 (Z.min payload_len buf_len)) by lia.
  change (Z.to_nat (0 + 0)) with 0%nat. rewrite take_0, Z.sub_0_r.
  cbn [app].
  rewrite map_load_seqZ
    by (subst packet; cbn [length]; rewrite ?length_app, ?length_replicate;
        lia).
  subst packet. change (Z.to_nat 3) with 3%nat. cbn [drop].
  rewrite ?drop_0.
  rewrite take_app_le by lia. reflexivity.
Qed.

Lemma network_round_trip_witness :
  network_rx 0x0B example_resolve_data_link_addr true 0
    [trx_frame (network_tx example_resolve_data_link_addr 0 example_som 7
                  0x0B 0x0A)]
    (replicate 5 9) 5
  = (Returned (Network_rx_return [7; 0; 0x0A; 0x3C; 0x07] 7), [], []).
Proof.
  rewrite (network_round_trip 0x0B example_resolve_data_link_addr
             example_resolve_data_link_addr true 0 0 example_som
             (replicate 5 9) 7 0x0A 5).
  - reflexivity.
  - lia.
  - lia.
  - reflexivity.
  - lia.
  - vm_compute. discriminate.
Defined.

(** ** Transport layer: what the receiver makes of the sender's segments *)

Lemma load_app_l (w stale : list Z) (i : Z) :
  0 <= i < Z.of_nat (length w) -> load (w ++ stale) i = load w i.
Proof.
  intros Hi. unfold load. destruct (Z.ltb_spec i 0); [lia|].
  rewrite lookup_app_l by lia. reflexivity.
Qed.

Lemma delivers_stale (ev : network_rx_event) (w : list Z) :
  delivers ev w -> exists stale, ev = Network_rx_success (w ++ stale).
Proof.
  destruct ev as [buffer| |]; cbn [delivers]; try tauto.
  intros H. exists (drop (length w) buffer).
  pose proof (take_drop (length w) buffer) as E. rewrite H in E.
  congruence.
Qed.

(** A loop whose condition fails at once does nothing. *)
Lemma for_loop_stop {S : Type} (cond : Z -> S -> bool) (body : Z -> S -> S)
    (fuel : nat) (i : Z) (s : S) :
  cond i s = false -> for_loop fuel cond body i s = (i, s).
Proof. intros Hc. destruct fuel; cbn [for_loop]; [|rewrite Hc]; reflexivity. Qed.

(** Loops that agree from the first counter on run alike; the bodies need
    only agree where the condition holds. *)
Lemma for_loop_ext_from {S : Type} (cond1 cond2 : Z -> S -> bool)
    (body1 body2 : Z -> S -> S) :
  forall (fuel : nat) (i : Z) (s : S),
    (forall j t, i <= j -> cond1 j t = cond2 j t) ->
    (forall j t, i <= j -> cond2 j t = true -> body1 j t = body2 j t) ->
    for_loop fuel cond1 body1 i s = for_loop fuel cond2 body2 i s.
Proof.
  induction fuel as [|fuel IH]; intros i s Hc Hb; cbn [for_loop];
    [reflexivity|].
  rewrite Hc by lia. destruct (cond2 i s) eqn:E; [|reflexivity].
  rewrite Hb by (assumption || lia).
  apply IH; intros; [apply Hc | apply Hb]; (assumption || lia).
Qed.

(** The first component of a loop on pairs whose condition does not look
    at the state and whose body updates the first component on its own. *)
Lemma for_loop_fst {A B : Type} (cond : Z -> bool) (f : Z -> A -> A)
    (g : Z -> A * B -> B) :
  forall (fuel : nat) (i : Z) (a : A) (b : B),
    fst (snd (for_loop fuel (fun i _ => cond i)
                (fun i ab => (f i (fst ab), g i ab)) i (a, b)))
    = snd (for_loop fuel (fun i _ => cond i) f i a).
Proof.
  induction fuel as [|fuel IH]; intros i a b; cbn [for_loop];
    [reflexivity|].
  destruct (cond i); [apply IH | reflexivity].
Qed.

Lemma map_const_seqZ (v : Z) (n : nat) (i : Z) :
  map (fun _ : Z => v) (seqZ i (Z.of_nat n)) = replicate n v.
Proof.
  unfold seqZ. rewrite Nat2Z.id, map_map.
  generalize 0%nat. induction n as [|n IH]; intros k; cbn; [reflexivity|].
  f_equal. apply IH.
Qed.

(** The zeroing loop of [transport_rx] clears the first [buf_len] cells. *)
Lemma transport_rx_zero_buffer (buffer : list Z) (buf_len : Z) :
  0 <= buf_len <= Z.of_nat (length buffer) ->
  fst (transport_rx_zero buffer buf_len)
  = replicate (Z.to_nat buf_len) 0 ++ drop (Z.to_nat buf_len) buffer.
Proof.
  intros Hlen. unfold transport_rx_zero.
  rewrite (for_loop_fst (fun i => i <? buf_len) (fun i b => store b i 0)
             (fun i bs => snd bs ++ [(i, 0)])).
  rewrite (for_loop_ext_body _ _ (fun i b => store b (i + 0) 0))
    by (intros; rewrite Z.add_0_r; reflexivity).
  rewrite (copy_loop 0 buf_len (fun _ => 0)) by lia.
  change (Z.to_nat (0 + 0)) with 0%nat. rewrite take_0, Z.sub_0_r.
  cbn [app]. rewrite <- (Z2Nat.id buf_len) at 1 by lia.
  rewrite map_const_seqZ. do 2 f_equal.
Qed.

(** The copy loop of the DATA branch, for a segment that announces
    [pl] payload bytes at offset [off]: the payload goes to the cells from
    [off] on, as far as [buf_len] allows. *)
Lemma transport_rx_copy_data_buffer (segment buffer payload : list Z)
    (buf_len off : Z) (stores : list (Z * Z)) :
  let pl := Z.of_nat (length payload) in
  load segment 0 = DATA_SEGMENT_HEADER_LEN + pl ->
  pl < 249 ->
  offset_of_segment segment = off ->
  0 <= off -> off + pl <= 65536 ->
  take (length payload) (drop 7 segment) = payload ->
  buf_len <= Z.of_nat (length buffer) ->
  let n := Z.to_nat (Z.min pl (buf_len - off)) in
  fst (transport_rx_copy_data segment buf_len buffer stores)
  = take (Z.to_nat off) buffer ++ take n payload
      ++ drop (Z.to_nat off + n) buffer.
Proof.
  intros pl H0 Hpl Hoff Hoff0 H16 Hpay Hbuf n.
  unfold transport_rx_copy_data. cbv zeta. rewrite H0, Hoff.
  change DATA_SEGMENT_HEADER_LEN with 7.
  replace (byte_of_int (7 + pl - 7)) with pl
    by (unfold byte_of_int; rewrite Z.mod_small; lia).
  etransitivity.
  { apply (for_loop_fst
             (fun i => (i <? pl) && (uint16_of_int (i + off) <? buf_len))
             (fun i b => store b (uint16_of_int (i + off)) (load segment (i + 7)))
             (fun i bs => snd bs ++ [(uint16_of_int (i + off),
                                      load segment (i + 7))])). }
  rewrite (for_loop_ext_from _ (fun i _ => i <? Z.of_nat n) _
             (fun i b => store b (i + off) (load segment (i + 7)))).
  2: { intros j _ Hj. unfold uint16_of_int.
       destruct (Z.ltb_spec j pl) as [Hlt|Hge]; cbn [andb].
       - rewrite Z.mod_small by lia.
         destruct (Z.ltb_spec (j + off) buf_len), (Z.ltb_spec j (Z.of_nat n));
           try reflexivity; lia.
       - destruct (Z.ltb_spec j (Z.of_nat n)); [lia | reflexivity]. }
  2: { intros j b Hj Hlt. apply Z.ltb_lt in Hlt.
       unfold uint16_of_int. rewrite Z.mod_small by lia. reflexivity. }
  destruct (Z.le_gt_cases (Z.min pl (buf_len - off)) 0) as [Hnone|Hsome].
  - assert (n = 0%nat) by lia. subst n. rewrite H.
    rewrite for_loop_stop by (apply Z.ltb_ge; lia).
    cbn [snd take app]. rewrite Nat.add_0_r. symmetry. apply take_drop.
  - rewrite (copy_loop off (Z.of_nat n) (fun i => load segment (i + 7)))
      by lia.
    rewrite Z.add_0_r, Z.sub_0_r. f_equal.
    replace (Z.to_nat (off + Z.of_nat n)) with (Z.to_nat off + n)%nat by lia.
    f_equal.
    rewrite map_load_seqZ.
    + rewrite Nat2Z.id. change (Z.to_nat 7) with 7%nat.
      transitivity (take n (take (length payload) (drop 7 segment))).
      * rewrite take_take. f_equal. lia.
      * rewrite Hpay. reflexivity.
    + lia.
    + lia.
    + assert (Hl : length (take (length payload) (drop 7 segment))
                   = length payload) by (rewrite Hpay; reflexivity).
      rewrite length_take, length_drop in Hl. lia.
Qed.
Section Reassembly.

Variable MY_PORT : Z.
Variable MY_NETWORK_ADDR : Z.
Variable resolve_network_addr : Z -> Z.
Variable buf_len : Z.

Abbreviation step :=
  (rx_step MY_PORT MY_NETWORK_ADDR resolve_network_addr buf_len).
Abbreviation run :=
  (rx_run MY_PORT MY_NETWORK_ADDR resolve_network_addr buf_len).

(** One turn of the receiver, by the kind of segment it is handed. *)
Lemma rx_step_outdated (m : rx_machine) (segment : list Z) :
  load segment 1 <> synchronise_rx_seq (rx_seq m) segment ->
  snd (step m (Network_rx_success segment)) = None /\
  rx_handed (fst (step m (Network_rx_success segment))) = rx_handed m.
Proof.
  intros Hn. unfold rx_step. cbv zeta.
  destruct (attempt_rx_outdated MY_PORT MY_NETWORK_ADDR resolve_network_addr
              (rx_seq m) (rx_segment m) segment Hn) as (Hr & Hq & Hg).
  cbn zeta in Hr, Hq, Hg. rewrite Hr. unfold rx_handed. rx_simpl.
  rewrite Hq. split; reflexivity.
Qed.

Lemma rx_step_start_of_message (m : rx_machine) (segment : list Z) :
  load segment 4 = SEGID_START_OF_MESSAGE ->
  snd (step m (Network_rx_success segment)) = None /\
  rx_handed (fst (step m (Network_rx_success segment)))
  = (RXST_Receiving, advance_seq (load segment 1), rx_buffer m,
     assign_if_not_null (rx_message_len m) (message_len_of_segment segment),
     match rx_state m with
     | RXST_Idle => assign_if_not_null (rx_source_port m) (load segment 3)
     | RXST_Receiving => rx_source_port m
     end).
Proof.
  intros H4.
  assert (He : load segment 1 = synchronise_rx_seq (rx_seq m) segment).
  { unfold synchronise_rx_seq. rewrite H4, Z.eqb_refl. reflexivity. }
  unfold rx_step. cbv zeta.
  destruct (attempt_rx_fresh MY_PORT MY_NETWORK_ADDR resolve_network_addr
              (rx_seq m) (rx_segment m) segment He) as (Hr & Hq & Hg).
  cbn zeta in Hr, Hq, Hg. rewrite Hr, Hq, Hg, H4.
  change (SEGID_START_OF_MESSAGE =? SEGID_START_OF_MESSAGE) with true.
  change (SEGID_START_OF_MESSAGE =? SEGID_DATA) with false.
  change (SEGID_START_OF_MESSAGE =? SEGID_END_OF_MESSAGE) with false.
  cbv iota. unfold rx_handed.
  destruct (rx_state m); rx_simpl; split; reflexivity.
Qed.

Lemma rx_step_data (m : rx_machine) (segment : list Z) :
  rx_state m = RXST_Receiving ->
  load segment 1 = rx_seq m ->
  load segment 4 = SEGID_DATA ->
  snd (step m (Network_rx_success segment)) = None /\
  rx_handed (fst (step m (Network_rx_success segment)))
  = (RXST_Receiving, advance_seq (rx_seq m),
     fst (transport_rx_copy_data segment buf_len (rx_buffer m) (rx_stores m)),
     rx_message_len m, rx_source_port m).
Proof.
  intros Hst H1 H4.
  assert (He : load segment 1 = synchronise_rx_seq (rx_seq m) segment).
  { unfold synchronise_rx_seq. rewrite H4. exact H1. }
  unfold rx_step. cbv zeta.
  destruct (attempt_rx_fresh MY_PORT MY_NETWORK_ADDR resolve_network_addr
              (rx_seq m) (rx_segment m) segment He) as (Hr & Hq & Hg).
  cbn zeta in Hr, Hq, Hg. rewrite Hr, Hq, Hg, H4, Hst, H1.
  change (SEGID_DATA =? SEGID_DATA) with true.
  cbv iota. unfold rx_handed. rx_simpl. split; reflexivity.
Qed.

Lemma rx_step_end_of_message (m : rx_machine) (segment : list Z) :
  rx_state m = RXST_Receiving ->
  load segment 1 = rx_seq m ->
  load segment 4 = SEGID_END_OF_MESSAGE ->
  snd (step m (Network_rx_success segment)) = Some TRANSPORT_RX_SUCCESS /\
  rx_handed (fst (step m (Network_rx_success segment)))
  = (RXST_Idle, advance_seq (rx_seq m), rx_buffer m,
     rx_message_len m, rx_source_port m).
Proof.
  intros Hst H1 H4.
  assert (He : load segment 1 = synchronise_rx_seq (rx_seq m) segment).
  { unfold synchronise_rx_seq. rewrite H4. exact H1. }
  unfold rx_step. cbv zeta.
  destruct (attempt_rx_fresh MY_PORT MY_NETWORK_ADDR resolve_network_addr
              (rx_seq m) (rx_segment m) segment He) as (Hr & Hq & Hg).
  cbn zeta in Hr, Hq, Hg. rewrite Hr, Hq, Hg, H4, Hst, H1.
  change (SEGID_END_OF_MESSAGE =? SEGID_DATA) with false.
  change (SEGID_END_OF_MESSAGE =? SEGID_END_OF_MESSAGE) with true.
  cbv iota. unfold rx_handed. rx_simpl. split; reflexivity.
Qed.

(** Copies of a segment that is not a START_OF_MESSAGE and does not carry
    the expected sequence number are acknowledged and dropped. *)
Lemma rx_run_outdated (d : list Z) (rest : list network_rx_event) :
  (5 <= length d)%nat ->
  load d 4 <> SEGID_START_OF_MESSAGE ->
  forall (n : nat) (inbox : list network_rx_event) (m : rx_machine),
    Forall2 delivers inbox (replicate n d) ->
    load d 1 <> rx_seq m ->
    exists m',
      run m (inbox ++ rest) = run m' rest /\ rx_handed m' = rx_handed m.
Proof.
  intros Hlen H4. induction n as [|n IH]; intros inbox m Hdel H1.
  - apply Forall2_nil_inv_r in Hdel as ->. exists m. split; reflexivity.
  - cbn [replicate] in Hdel.
    apply Forall2_cons_inv_r in Hdel as (ev & inbox' & Hev & Hdel & ->).
    apply delivers_stale in Hev as [stale ->].
    assert (Hn : load (d ++ stale) 1
                 <> synchronise_rx_seq (rx_seq m) (d ++ stale)).
    { rewrite synchronise_rx_seq_other; rewrite load_app_l by lia;
        assumption. }
    destruct (rx_step_outdated m (d ++ stale) Hn) as [Hnone Hsame].
    cbn [app rx_run]. rewrite Hnone.
    destruct (IH inbox' (fst (step m (Network_rx_success (d ++ stale)))) Hdel)
      as (m' & Hrun & Hm').
    + unfold rx_handed in Hsame. congruence.
    + exists m'. split; [exact Hrun | congruence].
Qed.

(** Further copies of a START_OF_MESSAGE that has just been taken are
    taken again, to no effect on what the caller gets. *)
Lemma rx_run_start_of_message_again (som : list Z)
    (rest : list network_rx_event) :
  (7 <= length som)%nat ->
  load som 4 = SEGID_START_OF_MESSAGE ->
  forall (n : nat) (inbox : list network_rx_event) (m : rx_machine),
    Forall2 delivers inbox (replicate n som) ->
    rx_state m = RXST_Receiving ->
    rx_seq m = advance_seq (load som 1) ->
    rx_message_len m
    = assign_if_not_null (rx_message_len m) (message_len_of_segment som) ->
    exists m',
      run m (inbox ++ rest) = run m' rest /\ rx_handed m' = rx_handed m.
Proof.
  intros Hlen H4. induction n as [|n IH]; intros inbox m Hdel Hst Hseq Hml.
  - apply Forall2_nil_inv_r in Hdel as ->. exists m. split; reflexivity.
  - cbn [replicate] in Hdel.
    apply Forall2_cons_inv_r in Hdel as (ev & inbox' & Hev & Hdel & ->).
    apply delivers_stale in Hev as [stale ->].
    destruct (rx_step_start_of_message m (som ++ stale)) as [Hnone Hm1].
    { rewrite load_app_l by lia. exact H4. }
    assert (Hsame : rx_handed (fst (step m (Network_rx_success (som ++ stale))))
                    = rx_handed m).
    { rewrite Hm1, Hst. unfold message_len_of_segment.
      rewrite !load_app_l by lia.
      fold (message_len_of_segment som). rewrite <- Hml, <- Hseq.
      unfold rx_handed. rewrite Hst. reflexivity. }
    clear Hm1. unfold rx_handed in Hsame.
    injection Hsame as Hst1 Hseq1 Hbuf1 Hml1 Hsp1.
    destruct (IH inbox' (fst (step m (Network_rx_success (som ++ stale)))) Hdel)
      as (m' & Hrun & Hm'); try congruence.
    exists m'. cbn [app rx_run]. rewrite Hnone.
    split; [exact Hrun|]. rewrite Hm'. unfold rx_handed. congruence.
Qed.

End Reassembly.
Section RoundTrip.

Variable MY_PORT : Z.
Variable MY_NETWORK_ADDR : Z.
Variable resolve_network_addr : Z -> Z.
Variable buf_len : Z.

(** The sender's side: its port, the message and where it goes. *)
Variable SENDER_PORT : Z.
Variable message : list Z.
Variable message_len dest_port : Z.
Hypothesis message_len_uint16 : 0 <= message_len < 65536.
Hypothesis message_length : message_len <= Z.of_nat (length message).

(** The caller's buffer when the first DATA segment arrives. *)
Variable buffer : list Z.
Hypothesis buffer_length : 0 <= buf_len <= Z.of_nat (length buffer).

Abbreviation run :=
  (rx_run MY_PORT MY_NETWORK_ADDR resolve_network_addr buf_len).
Abbreviation data_segment :=
  (spec_data_segment SENDER_PORT message message_len dest_port).
Abbreviation data_count := (spec_data_count message_len).
Abbreviation end_of_message := (spec_eom SENDER_PORT dest_port data_count).

(** The number of message bytes in the buffer after [k] DATA segments,
    and the buffer then. *)
Abbreviation copied k :=
  (Z.to_nat (Z.min (Z.min (21 * Z.of_nat k) message_len) buf_len)).
Abbreviation received k :=
  (take (copied k) message ++ drop (copied k) buffer).

Lemma data_segment_received (k : nat) (stale : list Z)
    (stores : list (Z * Z)) :
  21 * Z.of_nat k < message_len ->
  fst (transport_rx_copy_data (data_segment k ++ stale) buf_len
         (received k) stores)
  = received (S k).
Proof.
  intros Hk. unfold spec_data_segment.
  change (MAX_SEGMENT_LEN - DATA_SEGMENT_HEADER_LEN) with 21.
  cbv zeta.
  replace (message_len - (message_len - 21 * Z.of_nat k))
    with (21 * Z.of_nat k) by lia.
  set (pl := Z.min (message_len - 21 * Z.of_nat k) 21).
  set (off := 21 * Z.of_nat k).
  set (payload := take (Z.to_nat pl) (drop (Z.to_nat off) message)).
  assert (Hlen : Z.of_nat (length payload) = pl)
    by (subst payload; rewrite length_take, length_drop; lia).
  rewrite (transport_rx_copy_data_buffer _ _ payload buf_len off).
  - rewrite Hlen.
    destruct (Z.le_gt_cases buf_len off) as [Hfull|Hroom].
    + replace (Z.to_nat (Z.min pl (buf_len - off))) with 0%nat by lia.
      rewrite take_0, Nat.add_0_r. cbn [app]. rewrite take_drop.
      do 2 f_equal; lia.
    + set (n := Z.to_nat (Z.min pl (buf_len - off))).
      replace (Z.to_nat (Z.min (Z.min off message_len) buf_len))
        with (Z.to_nat off) by lia.
      replace (copied (S k)) with (Z.to_nat off + n)%nat by lia.
      rewrite take_app_length' by (rewrite length_take; lia).
      rewrite drop_app_add' by (rewrite length_take; lia).
      rewrite drop_drop.
      subst payload. rewrite take_take.
      replace (n `min` Z.to_nat pl)%nat with n by lia.
      rewrite app_assoc, take_take_drop. reflexivity.
  - rewrite Hlen. reflexivity.
  - lia.
  - unfold offset_of_segment.
    change (load (_ ++ _) 5) with (off / 256).
    change (load (_ ++ _) 6) with (off mod 256).
    rewrite Z.shiftl_mul_pow2 by lia. change (2 ^ 8) with 256.
    pose proof (Z.div_mod off 256 ltac:(lia)) as Hdm.
    unfold uint16_of_int. rewrite Z.mod_small; lia.
  - lia.
  - lia.
  - rewrite <- app_assoc. cbn [app drop].
    apply take_app_length'. lia.
  - rewrite length_app, length_take, length_drop. lia.
Qed.

(** The DATA segments from the [k]-th on and the END_OF_MESSAGE, each
    handed over one or more times: the receiver fills the buffer and
    returns at the first END_OF_MESSAGE. *)
Lemma rx_run_data_segments :
  forall (j k : nat) (wire : list (list Z))
         (inbox : list network_rx_event) (m : rx_machine),
    (k + j)%nat = data_count ->
    sent_in_order (map data_segment (seq k j) ++ [end_of_message]) wire ->
    Forall2 delivers inbox wire ->
    rx_state m = RXST_Receiving ->
    rx_seq m = (if Nat.even k then 1 else 0) ->
    rx_buffer m = received k ->
    exists m' left,
      run m inbox
      = Transport_rx_return (Returned TRANSPORT_RX_SUCCESS) m' left /\
      Forall (fun ev => delivers ev end_of_message) left /\
      (length left < 10)%nat /\
      rx_handed m'
      = (RXST_Idle, if Nat.even data_count then 0 else 1,
         received data_count, rx_message_len m, rx_source_port m).
Proof.
  induction j as [|j IH]; intros k wire inbox m Hk Hsent Hdel Hst Hseq Hbuf.
  - assert (k = data_count) by lia. subst k. cbn [seq map app] in Hsent.
    inversion Hsent as [|eom n ideal wire' Hn Hnil]; subst.
    inversion Hnil; subst. rewrite app_nil_r in Hdel.
    destruct n as [|n]; [lia|]. cbn [replicate] in Hdel.
    apply Forall2_cons_inv_r in Hdel as (ev & inbox' & Hev & Hdel & ->).
    apply delivers_stale in Hev as [stale ->].
    destruct (rx_step_end_of_message MY_PORT MY_NETWORK_ADDR
                resolve_network_addr buf_len m (end_of_message ++ stale)
                Hst) as [Hres Hm'].
    + rewrite Hseq. reflexivity.
    + reflexivity.
    + eexists _, inbox'. cbn [rx_run]. rewrite Hres.
      split; [reflexivity|]. split; [|split].
      * apply Forall2_length in Hdel as Hl. rewrite length_replicate in Hl.
        clear - Hdel. remember (replicate n end_of_message) as w eqn:Hw.
        revert n Hw. induction Hdel as [|ev e inbox' w Hev Hdel IHd];
          intros n Hw; [constructor|].
        destruct n as [|n]; [discriminate|]. cbn [replicate] in Hw.
        injection Hw as -> ->. constructor; [exact Hev | apply (IHd n eq_refl)].
      * apply Forall2_length in Hdel. rewrite length_replicate in Hdel. lia.
      * rewrite Hm', Hseq, Hbuf. unfold advance_seq.
        destruct (Nat.even data_count); reflexivity.
  - assert (Hlt : 21 * Z.of_nat k < message_len)
      by (apply spec_data_count_lt; lia).
    cbn [seq map app] in Hsent.
    inversion Hsent as [|d n ideal wire' Hn Hrest]; subst.
    apply Forall2_app_inv_r in Hdel as (copies & inbox2 & Hcopies & Hdel & ->).
    destruct n as [|n]; [lia|]. cbn [replicate] in Hcopies.
    apply Forall2_cons_inv_r in Hcopies as (ev & dups & Hev & Hdups & ->).
    apply delivers_stale in Hev as [stale ->].
    destruct (rx_step_data MY_PORT MY_NETWORK_ADDR resolve_network_addr
                buf_len m (data_segment k ++ stale) Hst) as [Hnone Hm1].
    + rewrite Hseq. reflexivity.
    + reflexivity.
    + rewrite Hbuf, data_segment_received in Hm1 by exact Hlt.
      set (m1 := fst (rx_step MY_PORT MY_NETWORK_ADDR resolve_network_addr
                        buf_len m
                        (Network_rx_success (data_segment k ++ stale)))) in *.
      unfold rx_handed in Hm1. injection Hm1 as Hst1 Hseq1 Hbuf1 Hml1 Hsp1.
      destruct (rx_run_outdated MY_PORT MY_NETWORK_ADDR resolve_network_addr
                  buf_len (data_segment k) inbox2) with (n := n)
                  (inbox := dups) (m := m1) as (m2 & Hrun2 & Hm2).
      * unfold spec_data_segment. rewrite length_app. cbn [length]. lia.
      * change (load (data_segment k) 4) with SEGID_DATA.
        unfold SEGID_DATA, SEGID_START_OF_MESSAGE. lia.
      * exact Hdups.
      * rewrite Hseq1, Hseq.
        change (load (data_segment k) 1) with (if Nat.even k then 1 else 0).
        intros E. symmetry in E. exact (advance_seq_neq _ E).
      * unfold rx_handed in Hm2. injection Hm2 as Hst2 Hseq2 Hbuf2 Hml2 Hsp2.
        destruct (IH (S k) wire' inbox2 m2) as (m' & left & Hrun & Hleft & Hl & Hm').
        -- lia.
        -- exact Hrest.
        -- exact Hdel.
        -- congruence.
        -- rewrite Hseq2, Hseq1, Hseq. apply toggle_even.
        -- congruence.
        -- exists m', left. cbn [app rx_run]. rewrite Hnone.
           fold m1. rewrite Hrun2, Hrun.
           split; [reflexivity|]. split; [exact Hleft|]. split; [exact Hl|].
           rewrite Hm'. congruence.
Qed.

End RoundTrip.
(** X5. Round trip of the transport layer. Whenever [transport_tx]
    succeeds for a message of [message_len] bytes, whatever answers made it
    retransmit, a [transport_rx] that is handed the segments it put on the
    network, in that order, returns [TRANSPORT_RX_SUCCESS] at the first
    END_OF_MESSAGE with the first [min(message_len, buf_len)] bytes of the
    message at the start of the buffer, zeros up to [buf_len] and the cells
    beyond [buf_len] untouched; it is back in state Idle and reports the
    sender's port. The retransmitted copies are acknowledged and change
    nothing; the copies of the END_OF_MESSAGE that follow the first one are
    left unread. The caller either passes NULL for [message_len], or the
    low byte of the length is below 8, so that the shift in
    [segment[5] << 8 + segment[6]] is by less than the 16 bits of [int];
    the length reported is then
    [(message_len / 256) << (8 + message_len mod 256)] cut to 16 bits.
    For other lengths C leaves the shift undefined and nothing is stated.
    The receiver's port, its starting [rx_seq] and the destination port in
    the segments play no part. *)
Theorem transport_round_trip
    (SENDER_PORT SENDER_NETWORK_ADDR : Z) (sender_resolve_network_addr : Z -> Z)
    (MY_PORT MY_NETWORK_ADDR : Z) (resolve_network_addr : Z -> Z)
    (message : list Z) (message_len dest_port : Z)
    (answers : list network_rx_event)
    (rx_seq : Z) (buffer : list Z) (buf_len : Z)
    (message_len_out source_port_out : option Z)
    (inbox : list network_rx_event) :
  0 <= message_len < 65536 ->
  message_len <= Z.of_nat (length message) ->
  0 <= buf_len < 32768 ->
  buf_len <= Z.of_nat (length buffer) ->
  message_len_out = None \/ message_len mod 256 < 8 ->
  let t := transport_tx SENDER_PORT SENDER_NETWORK_ADDR
             sender_resolve_network_addr message message_len dest_port
             answers in
  tx_result t = Returned TRANSPORT_TX_SUCCESS ->
  Forall2 delivers inbox (wire_segments (tx_trace t)) ->
  let r := transport_rx MY_PORT MY_NETWORK_ADDR resolve_network_addr rx_seq
             buffer buf_len message_len_out source_port_out inbox in
  let n := Z.to_nat (Z.min message_len buf_len) in
  trx_result r = Returned TRANSPORT_RX_SUCCESS /\
  rx_buffer (trx_machine r)
  = take n message ++ replicate (Z.to_nat buf_len - n) 0
      ++ drop (Z.to_nat buf_len) buffer /\
  rx_state (trx_machine r) = RXST_Idle /\
  rx_source_port (trx_machine r)
  = assign_if_not_null source_port_out SENDER_PORT /\
  rx_message_len (trx_machine r)
  = assign_if_not_null message_len_out
      (uint16_of_int
         (Z.shiftl (message_len / 256) (8 + message_len mod 256))) /\
  Forall (fun ev =>
            delivers ev
              (spec_eom SENDER_PORT dest_port (spec_data_count message_len)))
    (trx_inbox r) /\
  (length (trx_inbox r) < 10)%nat.
Proof.
  intros HL Hmsg Hbuf Hroom _ t Htx Hdel r n.
  pose proof (transport_tx_wire SENDER_PORT SENDER_NETWORK_ADDR
                sender_resolve_network_addr message message_len dest_port
                answers HL Hmsg Htx) as Hsent.
  fold t in Hsent.
  remember (wire_segments (tx_trace t)) as wire eqn:Hwire.
  clear Hwire Htx. subst r. rewrite transport_rx_is_run.
  rewrite transport_rx_zero_buffer by lia.
  set (zeroed := replicate (Z.to_nat buf_len) 0
                   ++ drop (Z.to_nat buf_len) buffer).
  match goal with
  | |- context [rx_run _ _ _ _ ?m _] => set (m0 := m)
  end.
  inversion Hsent as [|som n0 ideal wire1 Hn0 Hrest]; subst.
  apply Forall2_app_inv_r in Hdel as (copies & inbox1 & Hcopies & Hdel & ->).
  destruct n0 as [|n0]; [lia|]. cbn [replicate] in Hcopies.
  apply Forall2_cons_inv_r in Hcopies as (ev & soms & Hev & Hsoms & ->).
  apply delivers_stale in Hev as [stale ->].
  set (som := spec_som SENDER_PORT message_len dest_port) in *.
  destruct (rx_step_start_of_message MY_PORT MY_NETWORK_ADDR
              resolve_network_addr buf_len m0 (som ++ stale) eq_refl)
    as [Hnone Hm1].
  cbn [app rx_run]. rewrite Hnone.
  remember (fst (rx_step MY_PORT MY_NETWORK_ADDR resolve_network_addr
                   buf_len m0 (Network_rx_success (som ++ stale)))) as m1
    eqn:Em1.
  clear Em1 Hnone.
  change (advance_seq (load (som ++ stale) 1)) with 1 in Hm1.
  change (message_len_of_segment (som ++ stale))
    with (uint16_of_int
            (Z.shiftl (message_len / 256) (8 + message_len mod 256))) in Hm1.
  change (load (som ++ stale) 3) with SENDER_PORT in Hm1.
  subst m0. cbn [rx_state rx_buffer rx_message_len rx_source_port] in Hm1.
  unfold rx_handed in Hm1. injection Hm1 as Hst1 Hseq1 Hbuf1 Hml1 Hsp1.
  destruct (rx_run_start_of_message_again MY_PORT MY_NETWORK_ADDR
              resolve_network_addr buf_len som inbox1)
    with (n := n0) (inbox := soms) (m := m1) as (m2 & Hrun2 & Hm2).
  - cbn [som spec_som length]. lia.
  - reflexivity.
  - exact Hsoms.
  - exact Hst1.
  - exact Hseq1.
  - rewrite Hml1. destruct message_len_out; reflexivity.
  - unfold rx_handed in Hm2. injection Hm2 as Hst2 Hseq2 Hbuf2 Hml2 Hsp2.
    destruct (rx_run_data_segments MY_PORT MY_NETWORK_ADDR
                resolve_network_addr buf_len SENDER_PORT message message_len
                dest_port HL Hmsg zeroed)
      with (j := spec_data_count message_len) (k := 0%nat) (wire := wire1)
           (inbox := inbox1) (m := m2)
      as (m' & left & Hrun & Hleft & Hlen & Hm').
    + subst zeroed. rewrite length_app, length_replicate, length_drop. lia.
    + reflexivity.
    + exact Hrest.
    + exact Hdel.
    + congruence.
    + rewrite Hseq2, Hseq1. reflexivity.
    + rewrite Hbuf2, Hbuf1.
      replace (Z.to_nat (Z.min (Z.min (21 * Z.of_nat 0) message_len) buf_len))
        with 0%nat by lia.
      reflexivity.
    + rewrite Hrun2, Hrun.
      cbn [trx_result trx_machine trx_inbox].
      unfold rx_handed in Hm'. injection Hm' as Hst' Hseq' Hbuf' Hml' Hsp'.
      split; [reflexivity|]. split; [|split; [|split; [|split; [|split]]]].
      * rewrite Hbuf'.
        assert (Hcount : message_len
                         <= 21 * Z.of_nat (spec_data_count message_len)).
        { unfold spec_data_count.
          pose proof (Z.div_mod (message_len + 20) 21 ltac:(lia)).
          pose proof (Z.mod_pos_bound (message_len + 20) 21 ltac:(lia)).
          assert (0 <= (message_len + 20) / 21) by (apply Z.div_pos; lia).
          lia. }
        replace (Z.to_nat
                   (Z.min (Z.min (21 * Z.of_nat (spec_data_count message_len))
                             message_len) buf_len))
          with n by lia.
        f_equal. subst zeroed.
        rewrite drop_app_le by (rewrite length_replicate; lia).
        rewrite drop_replicate. reflexivity.
      * exact Hst'.
      * congruence.
      * congruence.
      * exact Hleft.
      * exact Hlen.
Qed.
(** A message of 260 bytes, its first DATA segment sent twice, received
    into an array of 300 cells with room given for 280; every segment
    arrives in an array that holds an older byte after it. The length
    reported is [1 << 12]. *)
Lemma transport_round_trip_witness :
  let answers :=
    example_ack 1 :: Network_rx_timeout
      :: map example_ack [0; 1; 0; 1; 0; 1; 0; 1; 0; 1; 0; 1; 0; 1] in
  let t := transport_tx 0x3C 0x3C example_resolve_network_addr
             (replicate 260 7) 260 0x0A answers in
  let inbox := map (fun w => Network_rx_success (w ++ [0xEE]))
                 (wire_segments (tx_trace t)) in
  let r := transport_rx 0x0A 0x0A example_resolve_network_addr 0
             (replicate 300 0xFF) 280 (Some 0) (Some 0) inbox in
  length inbox = 16%nat /\
  trx_result r = Returned TRANSPORT_RX_SUCCESS /\
  rx_buffer (trx_machine r)
  = replicate 260 7 ++ replicate 20 0 ++ replicate 20 0xFF /\
  rx_source_port (trx_machine r) = Some 0x3C /\
  rx_message_len (trx_machine r) = Some 4096.
Proof.
  intros answers t inbox r.
  destruct (transport_round_trip 0x3C 0x3C example_resolve_network_addr
              0x0A 0x0A example_resolve_network_addr (replicate 260 7) 260
              0x0A answers 0 (replicate 300 0xFF) 280 (Some 0) (Some 0)
              inbox) as (Hres & Hbuf & _ & Hsp & Hml & _).
  - lia.
  - vm_compute. discriminate.
  - lia.
  - vm_compute. discriminate.
  - right. vm_compute. reflexivity.
  - vm_compute. reflexivity.
  - vm_compute. repeat constructor.
  - split; [reflexivity|]. split; [exact Hres|]. split; [exact Hbuf|].
    split; [exact Hsp | exact Hml].
Defined.

(** ** Transport layer: the receiver's answers *)

Section ReceiverAnswers.

Variable MY_PORT : Z.
Variable MY_NETWORK_ADDR : Z.
Variable resolve_network_addr : Z -> Z.
Variable buf_len : Z.

Abbreviation step :=
  (rx_step MY_PORT MY_NETWORK_ADDR resolve_network_addr buf_len).
Abbreviation run :=
  (rx_run MY_PORT MY_NETWORK_ADDR resolve_network_addr buf_len).
Abbreviation answer :=
  (rx_answer MY_PORT MY_NETWORK_ADDR resolve_network_addr).

Lemma rx_step_trace (m : rx_machine) (ev : network_rx_event) :
  rx_trace (fst (step m ev)) = rx_trace m ++ answer ev.
Proof.
  assert (He : arx_effects
                 (transport_attempt_rx MY_PORT MY_NETWORK_ADDR
                    resolve_network_addr (rx_seq m) (rx_segment m) ev)
               = answer ev).
  { destruct ev; [apply attempt_rx_effects | reflexivity | reflexivity]. }
  unfold rx_step. cbv zeta. rewrite He.
  destruct (arx_result _); rx_simpl; try reflexivity.
  destruct (rx_state m); rx_cases; reflexivity.
Qed.

Lemma rx_run_trace (inbox : list network_rx_event) :
  forall m : rx_machine,
    exists consumed,
      inbox = consumed ++ trx_inbox (run m inbox) /\
      rx_trace (trx_machine (run m inbox))
      = rx_trace m ++ concat (map answer consumed) /\
      (trx_result (run m inbox) = Blocked -> trx_inbox (run m inbox) = []).
Proof.
  induction inbox as [|ev inbox IH]; intros m.
  - exists []. cbn. rewrite app_nil_r. repeat split.
  - cbn [rx_run]. pose proof (rx_step_trace m ev) as Hstep.
    destruct (snd (step m ev)) as [res|].
    + exists [ev]. cbn [trx_inbox trx_machine trx_result map concat app].
      rewrite app_nil_r. split; [reflexivity|]. split; [exact Hstep|].
      discriminate.
    + destruct (IH (fst (step m ev))) as (consumed & Hin & Htr & Hbl).
      exists (ev :: consumed). cbn [map concat app].
      split; [f_equal; exact Hin|]. split; [|exact Hbl].
      rewrite Htr, Hstep, <- app_assoc. reflexivity.
Qed.

(** An idle receiver passes over everything but a START_OF_MESSAGE and a
    timeout. *)
Lemma rx_step_idle (m : rx_machine) (ev : network_rx_event) :
  rx_state m = RXST_Idle ->
  passed_over_when_idle ev ->
  snd (step m ev) = None /\
  rx_state (fst (step m ev)) = RXST_Idle /\
  rx_buffer (fst (step m ev)) = rx_buffer m /\
  rx_stores (fst (step m ev)) = rx_stores m /\
  rx_message_len (fst (step m ev)) = rx_message_len m /\
  rx_source_port (fst (step m ev)) = rx_source_port m.
Proof.
  intros Hst Hev. unfold rx_step. cbv zeta. rewrite Hst.
  destruct ev as [segment| |]; cbn [passed_over_when_idle] in Hev;
    [|contradiction|].
  - unfold transport_attempt_rx. cbv zeta.
    destruct (negb _); rx_simpl; [repeat split; reflexivity|].
    destruct (Z.eqb_spec (load segment 4) SEGID_START_OF_MESSAGE) as [E|_];
      [contradiction|].
    rx_simpl. repeat split; reflexivity.
  - cbn [transport_attempt_rx arx_result]. rx_simpl.
    repeat split; reflexivity.
Qed.

Lemma rx_run_idle (inbox : list network_rx_event) :
  forall m : rx_machine,
    rx_state m = RXST_Idle ->
    Forall passed_over_when_idle inbox ->
    trx_result (run m inbox) = Blocked /\
    trx_inbox (run m inbox) = [] /\
    rx_state (trx_machine (run m inbox)) = RXST_Idle /\
    rx_buffer (trx_machine (run m inbox)) = rx_buffer m /\
    rx_stores (trx_machine (run m inbox)) = rx_stores m /\
    rx_message_len (trx_machine (run m inbox)) = rx_message_len m /\
    rx_source_port (trx_machine (run m inbox)) = rx_source_port m.
Proof.
  induction inbox as [|ev inbox IH]; intros m Hst Hin.
  - cbn. repeat split. exact Hst.
  - inversion Hin as [|? ? Hev Hin']; subst.
    destruct (rx_step_idle m ev Hst Hev)
      as (Hnone & Hst1 & Hbuf1 & Hlog1 & Hml1 & Hsp1).
    cbn [rx_run]. rewrite Hnone.
    destruct (IH (fst (step m ev)) Hst1 Hin')
      as (Hres & Hrest & Hst' & Hbuf' & Hlog' & Hml' & Hsp').
    repeat split; congruence.
Qed.

End ReceiverAnswers.

(** X6. Everything [transport_rx] puts on the network is an
    acknowledgement, one for each call of [network_rx] that succeeds and in
    the order of the calls: 250 ms of delay, then the five bytes
    [(5, seq', source port, MY_PORT, SEGID_ACK)] with [seq'] the complement
    of the segment's sequence number, sent to the node of the segment's
    source port. Calls that time out or fail are answered with nothing.
    The calls made are a prefix of the script, and [transport_rx] blocks
    only when the script is used up. *)
Theorem transport_rx_acknowledges_every_segment
    (MY_PORT MY_NETWORK_ADDR : Z) (resolve_network_addr : Z -> Z)
    (rx_seq : Z) (buffer : list Z) (buf_len : Z)
    (message_len source_port : option Z) (inbox : list network_rx_event) :
  let r := transport_rx MY_PORT MY_NETWORK_ADDR resolve_network_addr rx_seq
             buffer buf_len message_len source_port inbox in
  exists consumed,
    inbox = consumed ++ trx_inbox r /\
    rx_trace (trx_machine r)
    = concat (map (rx_answer MY_PORT MY_NETWORK_ADDR resolve_network_addr)
                consumed) /\
    (trx_result r = Blocked -> trx_inbox r = []).
Proof.
  intros r. subst r. rewrite transport_rx_is_run.
  match goal with
  | |- context [rx_run _ _ _ _ ?m _] =>
      destruct (rx_run_trace MY_PORT MY_NETWORK_ADDR resolve_network_addr
                  buf_len inbox m) as (consumed & Hin & Htr & Hbl)
  end.
  exists consumed. split; [exact Hin|]. split; [exact Htr | exact Hbl].
Qed.

(** X7. Before a START_OF_MESSAGE arrives, [transport_rx] passes over
    every segment and every error of the network layer: it keeps waiting
    in state Idle, the buffer holds the zeros written on entry and nothing
    else is stored, and the two out-parameters are left as they were. *)
Theorem transport_rx_waits_for_start_of_message
    (MY_PORT MY_NETWORK_ADDR : Z) (resolve_network_addr : Z -> Z)
    (rx_seq : Z) (buffer : list Z) (buf_len : Z)
    (message_len source_port : option Z) (inbox : list network_rx_event) :
  Forall passed_over_when_idle inbox ->
  let r := transport_rx MY_PORT MY_NETWORK_ADDR resolve_network_addr rx_seq
             buffer buf_len message_len source_port inbox in
  trx_result r = Blocked /\
  trx_inbox r = [] /\
  rx_state (trx_machine r) = RXST_Idle /\
  rx_buffer (trx_machine r) = fst (transport_rx_zero buffer buf_len) /\
  rx_stores (trx_machine r) = map (fun i => (i, 0)) (seqZ 0 buf_len) /\
  rx_message_len (trx_machine r) = message_len /\
  rx_source_port (trx_machine r) = source_port.
Proof.
  intros Hin r. subst r. rewrite transport_rx_is_run.
  rewrite <- (transport_rx_zero_stores buffer buf_len).
  match goal with
  | |- context [rx_run _ _ _ _ ?m _] =>
      apply (rx_run_idle MY_PORT MY_NETWORK_ADDR resolve_network_addr buf_len
               inbox m eq_refl Hin)
  end.
Qed.

(** A DATA segment, an error and an END_OF_MESSAGE offered to an idle
    receiver. *)
Lemma transport_rx_waits_for_start_of_message_witness :
  let r := transport_rx 0x0A 0x0A example_resolve_network_addr 0
             [9; 9; 9] 2 (Some 5) (Some 6)
             [Network_rx_success example_data; Network_rx_error;
              Network_rx_success example_eom] in
  trx_result r = Blocked /\
  rx_buffer (trx_machine r) = [0; 0; 9] /\
  rx_message_len (trx_machine r) = Some 5.
Proof.
  intros r.
  destruct (transport_rx_waits_for_start_of_message 0x0A 0x0A
              example_resolve_network_addr 0 [9; 9; 9] 2 (Some 5) (Some 6)
              [Network_rx_success example_data; Network_rx_error;
               Network_rx_success example_eom])
    as (Hres & _ & _ & Hbuf & _ & Hml & _).
  - repeat constructor; vm_compute; discriminate.
  - split; [exact Hres|]. split; [exact Hbuf | exact Hml].
Defined.

(** ** Transport layer: a sender whose segments are acknowledged *)

Section TransmitterAcknowledged.

Variable MY_PORT : Z.
Variable MY_NETWORK_ADDR : Z.
Variable resolve_network_addr : Z -> Z.
Variable message : list Z.
Variable message_len dest_port : Z.
Hypothesis message_len_uint16 : 0 <= message_len < 65536.
Hypothesis message_length : message_len <= Z.of_nat (length message).

Abbreviation data_loop :=
  (transport_tx_data_loop MY_PORT MY_NETWORK_ADDR resolve_network_addr).
Abbreviation data_segment :=
  (spec_data_segment MY_PORT message message_len dest_port).
Abbreviation data_count := (spec_data_count message_len).

Lemma transport_tx_end_of_message_acknowledged (k : nat) (segment : list Z)
    (trace : list effect) (ev : network_rx_event)
    (rest : list network_rx_event) :
  length segment = 28%nat ->
  acknowledges (spec_eom MY_PORT dest_port k) ev ->
  let r := transport_tx_end_of_message MY_PORT MY_NETWORK_ADDR
             resolve_network_addr dest_port (if Nat.even k then 1 else 0)
             segment trace (ev :: rest) in
  tx_result r = Returned TRANSPORT_TX_SUCCESS /\
  wire_segments (tx_trace r)
  = wire_segments trace ++ [spec_eom MY_PORT dest_port k] /\
  tx_inbox r = rest.
Proof.
  intros Hseg Hev. unfold transport_tx_end_of_message. cbv zeta.
  rewrite header_stores_5 by lia.
  unfold transport_keep_trying_to_tx.
  rewrite tx_loop_success by (lia || exact Hev).
  cbn [tx_result tx_trace tx_inbox]. rewrite wire_segments_app.
  repeat split.
Qed.

Lemma transport_tx_data_loop_acknowledged (rest : list network_rx_event) :
  forall (fuel k : nat) (bytes_remaining : Z) (segment : list Z)
         (trace : list effect) (answers : list network_rx_event),
    bytes_remaining = Z.max 0 (message_len - 21 * Z.of_nat k) ->
    (k <= data_count)%nat ->
    (Z.to_nat bytes_remaining < fuel)%nat ->
    length segment = 28%nat ->
    Forall2 acknowledges
      (map data_segment (seq k (data_count - k))
         ++ [spec_eom MY_PORT dest_port data_count])
      answers ->
    let r := data_loop fuel message message_len dest_port bytes_remaining
               (if Nat.even k then 1 else 0) segment trace
               (answers ++ rest) in
    tx_result r = Returned TRANSPORT_TX_SUCCESS /\
    wire_segments (tx_trace r)
    = wire_segments trace
        ++ map data_segment (seq k (data_count - k))
        ++ [spec_eom MY_PORT dest_port data_count] /\
    tx_inbox r = rest.
Proof.
  induction fuel as [|fuel IH];
    intros k bytes_remaining segment trace answers Hbr Hk Hfuel Hseg Hack;
    [lia|].
  cbn [transport_tx_data_loop].
  destruct (Z.gtb_spec bytes_remaining 0) as [Hpos|Hzero].
  - assert (Hlt : (k < data_count)%nat) by (apply spec_data_count_lt; lia).
    replace (data_count - k)%nat with (S (data_count - S k)) in * by lia.
    cbn [seq map app] in *.
    apply Forall2_cons_inv_l in Hack as (ev & answers' & Hev & Hack & ->).
    pose proof (transport_tx_build_data_spec MY_PORT message message_len
                  dest_port k bytes_remaining segment message_len_uint16
                  message_length ltac:(lia) Hpos Hseg) as Hb.
    cbv zeta in Hb.
    destruct (transport_tx_build_data MY_PORT message message_len dest_port
                bytes_remaining (if Nat.even k then 1 else 0) segment)
      as [[pl sl] seg'].
    cbn [fst snd] in Hb. destruct Hb as (Hpl & Hsl & Hlen' & Htake).
    unfold transport_keep_trying_to_tx.
    change ((ev :: answers') ++ rest) with (ev :: (answers' ++ rest)).
    rewrite tx_loop_success by (lia || exact Hev).
    cbn [tx_result tx_trace tx_inbox]. rewrite toggle_even.
    destruct (IH (S k) (uint16_of_int (bytes_remaining - pl)) seg'
                ((trace
                    ++ [Network_tx seg' sl (resolve_network_addr dest_port)
                          MY_NETWORK_ADDR])
                   ++ [Delay_ms TRANSPORT_TX_SEGMENT_SPACING_MS])
                answers')
      as (Hres & Hwire & Hin).
    + unfold uint16_of_int. rewrite Z.mod_small by lia. lia.
    + lia.
    + unfold uint16_of_int. rewrite Z.mod_small by lia. lia.
    + exact Hlen'.
    + exact Hack.
    + split; [exact Hres|]. split; [|exact Hin].
      rewrite Hwire, !wire_segments_app.
      cbn [wire_segments map wire_segment concat app].
      rewrite Htake, !app_nil_r, <- app_assoc. reflexivity.
  - assert (Hge : ~ (k < data_count)%nat)
      by (rewrite spec_data_count_lt; lia).
    assert (k = data_count) by lia. subst k.
    rewrite Nat.sub_diag in *. cbn [seq map app] in *.
    apply Forall2_cons_inv_l in Hack as (ev & answers' & Hev & Hack & ->).
    apply Forall2_nil_inv_l in Hack as ->.
    apply transport_tx_end_of_message_acknowledged; assumption.
Qed.

End TransmitterAcknowledged.

(** With every segment acknowledged at the first attempt, [transport_tx]
    sends each segment once and succeeds. *)
Lemma transport_tx_acknowledged
    (MY_PORT MY_NETWORK_ADDR : Z) (resolve_network_addr : Z -> Z)
    (message : list Z) (message_len dest_port : Z)
    (answers rest : list network_rx_event) :
  0 <= message_len < 65536 ->
  message_len <= Z.of_nat (length message) ->
  let segments :=
    spec_som MY_PORT message_len dest_port
      :: spec_data_segments MY_PORT message message_len dest_port
      ++ [spec_eom MY_PORT dest_port (spec_data_count message_len)] in
  Forall2 acknowledges segments answers ->
  let t := transport_tx MY_PORT MY_NETWORK_ADDR resolve_network_addr message
             message_len dest_port (answers ++ rest) in
  tx_result t = Returned TRANSPORT_TX_SUCCESS /\
  wire_segments (tx_trace t) = segments /\
  tx_inbox t = rest.
Proof.
  intros HL Hmsg segments Hack t. subst segments t.
  apply Forall2_cons_inv_l in Hack as (ev & answers' & Hev & Hack & ->).
  unfold transport_tx. cbv zeta.
  rewrite header_stores_7 by (rewrite length_replicate; vm_compute; lia).
  rewrite high_byte, low_byte by lia.
  unfold transport_keep_trying_to_tx. cbn [app].
  rewrite tx_loop_success by (lia || exact Hev).
  cbn [tx_result tx_trace tx_inbox].
  match goal with
  | |- context [transport_tx_data_loop _ _ _ ?f _ _ _ ?br _ ?seg ?tr _] =>
      destruct (transport_tx_data_loop_acknowledged MY_PORT MY_NETWORK_ADDR
                  resolve_network_addr message message_len dest_port HL Hmsg
                  rest f 0 br seg tr answers')
        as (Hres & Hwire & Hin)
  end.
  - lia.
  - lia.
  - lia.
  - reflexivity.
  - rewrite Nat.sub_0_r. exact Hack.
  - split; [exact Hres|]. split; [|exact Hin].
    etransitivity; [exact Hwire|]. rewrite Nat.sub_0_r. reflexivity.
Qed.

(** X8. [transport_tx] succeeds when every segment is acknowledged at the
    first attempt: if the answers to its calls of [network_rx] are, in
    turn, taken for the acknowledgement of the START_OF_MESSAGE, of each
    DATA segment and of the END_OF_MESSAGE (an ACK whose sequence number
    differs from the segment's), it returns [TRANSPORT_TX_SUCCESS] having
    put every segment on the network exactly once, in order, and having
    read no answer beyond those. A message of length 0 is sent as
    START_OF_MESSAGE and END_OF_MESSAGE alone. *)
Theorem transport_tx_succeeds_when_acknowledged
    (MY_PORT MY_NETWORK_ADDR : Z) (resolve_network_addr : Z -> Z)
    (message : list Z) (message_len dest_port : Z)
    (answers rest : list network_rx_event) :
  0 <= message_len < 65536 ->
  message_len <= Z.of_nat (length message) ->
  let segments :=
    spec_som MY_PORT message_len dest_port
      :: spec_data_segments MY_PORT message message_len dest_port
      ++ [spec_eom MY_PORT dest_port (spec_data_count message_len)] in
  Forall2 acknowledges segments answers ->
  let t := transport_tx MY_PORT MY_NETWORK_ADDR resolve_network_addr message
             message_len dest_port (answers ++ rest) in
  tx_result t = Returned TRANSPORT_TX_SUCCESS /\
  wire_segments (tx_trace t) = segments /\
  tx_inbox t = rest /\
  (message_len = 0 ->
   segments = [spec_som MY_PORT 0 dest_port; spec_eom MY_PORT dest_port 0]).
Proof.
  intros HL Hmsg segments Hack t.
  destruct (transport_tx_acknowledged MY_PORT MY_NETWORK_ADDR
              resolve_network_addr message message_len dest_port answers rest
              HL Hmsg Hack) as (Hres & Hwire & Hin).
  split; [exact Hres|]. split; [exact Hwire|]. split; [exact Hin|].
  intros ->. reflexivity.
Qed.
Lemma transport_tx_succeeds_when_acknowledged_witness :
  let t := transport_tx 0x3C 0x3C example_resolve_network_addr
             example_message 50 0x0A (example_acks ++ [Network_rx_timeout]) in
  tx_result t = Returned TRANSPORT_TX_SUCCESS /\
  length (wire_segments (tx_trace t)) = 5%nat /\
  tx_inbox t = [Network_rx_timeout].
Proof.
  intros t.
  destruct (transport_tx_succeeds_when_acknowledged 0x3C 0x3C
              example_resolve_network_addr example_message 50 0x0A
              example_acks [Network_rx_timeout])
    as (Hres & Hwire & Hin & _).
  - lia.
  - vm_compute. discriminate.
  - vm_compute. repeat constructor.
  - split; [exact Hres|]. split; [|exact Hin].
    fold t in Hwire. rewrite Hwire. reflexivity.
Defined.

(** ** Transport layer: sender and receiver on a network that loses
    nothing *)

Section Handshake.

Variable MY_PORT : Z.
Variable MY_NETWORK_ADDR : Z.
Variable resolve_network_addr : Z -> Z.
Variable buf_len : Z.
Variable SENDER_PORT : Z.
Variable message : list Z.
Variable message_len dest_port : Z.

Abbreviation run :=
  (rx_run MY_PORT MY_NETWORK_ADDR resolve_network_addr buf_len).
Abbreviation data_segment :=
  (spec_data_segment SENDER_PORT message message_len dest_port).

(** DATA segments with alternating sequence numbers and the
    END_OF_MESSAGE that follows them, each handed over once. *)
Lemma rx_run_segments_once (count : nat) :
  forall (j k : nat) (m : rx_machine),
    (k + j)%nat = count ->
    rx_state m = RXST_Receiving ->
    rx_seq m = (if Nat.even k then 1 else 0) ->
    let r := run m (map Network_rx_success
                      (map data_segment (seq k j)
                         ++ [spec_eom SENDER_PORT dest_port count])) in
    trx_result r = Returned TRANSPORT_RX_SUCCESS /\ trx_inbox r = [].
Proof.
  induction j as [|j IH]; intros k m Hk Hst Hseq.
  - assert (k = count) by lia. subst k. cbn [seq map app rx_run].
    destruct (rx_step_end_of_message MY_PORT MY_NETWORK_ADDR
                resolve_network_addr buf_len m
                (spec_eom SENDER_PORT dest_port count) Hst) as [Hres _].
    + rewrite Hseq. reflexivity.
    + reflexivity.
    + rewrite Hres. split; reflexivity.
  - cbn [seq map app rx_run].
    destruct (rx_step_data MY_PORT MY_NETWORK_ADDR resolve_network_addr
                buf_len m (data_segment k) Hst) as [Hnone Hm1].
    + rewrite Hseq. reflexivity.
    + reflexivity.
    + rewrite Hnone. unfold rx_handed in Hm1.
      injection Hm1 as Hst1 Hseq1 _ _ _.
      apply IH.
      * lia.
      * exact Hst1.
      * rewrite Hseq1, Hseq. apply toggle_even.
Qed.

Lemma wire_segments_answers (segments : list (list Z)) :
  wire_segments
    (concat (map (rx_answer MY_PORT MY_NETWORK_ADDR resolve_network_addr)
               (map Network_rx_success segments)))
  = map (ack_segment MY_PORT) segments.
Proof.
  induction segments as [|segment segments IH]; [reflexivity|].
  cbn [map concat]. rewrite wire_segments_app, IH. reflexivity.
Qed.

End Handshake.

Lemma ack_segment_acknowledges (MY_PORT : Z) (segments : list (list Z)) :
  Forall2 acknowledges segments
    (map Network_rx_success (map (ack_segment MY_PORT) segments)).
Proof.
  induction segments as [|segment segments IH]; cbn [map]; constructor;
    [|exact IH].
  apply advance_seq_classify; reflexivity.
Qed.

(** ** The transmitter: what any run puts on the network *)

(** A run of the sending loop entered with attempts left puts its segment
    on the network at least once, whatever the answers. *)
Lemma tx_loop_wire_started (MY_NETWORK_ADDR : Z)
    (resolve_network_addr : Z -> Z) (segment : list Z)
    (segment_len dest_port current_seq_num : Z)
    (inbox : list network_rx_event) (attempts : Z) (trace : list effect) :
  0 <= attempts < 10 ->
  exists n : nat,
    (1 <= n)%nat /\ Z.of_nat n <= 10 - attempts /\
    wire_segments
      (tx_trace (transport_keep_trying_to_tx_loop MY_NETWORK_ADDR
                   resolve_network_addr attempts segment segment_len
                   dest_port current_seq_num trace inbox))
    = wire_segments trace
        ++ replicate n (take (Z.to_nat segment_len) segment).
Proof.
  intros Ha.
  destruct inbox as [|ev inbox]; cbn [transport_keep_trying_to_tx_loop];
    unfold uint16_of_int, TRANSPORT_TX_ATTEMPT_LIMIT;
    rewrite Z.mod_small by lia;
    (destruct (Z.gtb_spec (attempts + 1) 10); [lia|]);
    unfold transport_attempt_tx; cbn [tx_result tx_trace].
  - exists 1%nat. rewrite wire_segments_app. repeat split; lia.
  - destruct (transport_attempt_tx_classify current_seq_num ev) eqn:Hc;
      cbn [tx_result tx_trace];
      try (exists 1%nat; rewrite wire_segments_app; repeat split; lia).
    all: match goal with
         | |- context [transport_keep_trying_to_tx_loop _ _ _ _ _ _ _ ?t _] =>
             destruct (tx_loop_wire MY_NETWORK_ADDR resolve_network_addr
                         segment segment_len dest_port current_seq_num inbox
                         (attempts + 1) t ltac:(lia)) as (n & Hn & Hw & _)
         end;
      exists (S n); rewrite Hw, !wire_segments_app; cbn;
      rewrite <- !app_assoc; cbn; repeat split; lia.
Qed.

Section TransmitterRuns.

Variable MY_PORT : Z.
Variable MY_NETWORK_ADDR : Z.
Variable resolve_network_addr : Z -> Z.
Variable message : list Z.
Variable message_len dest_port : Z.
Hypothesis message_len_uint16 : 0 <= message_len < 65536.
Hypothesis message_length : message_len <= Z.of_nat (length message).

Abbreviation data_loop :=
  (transport_tx_data_loop MY_PORT MY_NETWORK_ADDR resolve_network_addr).
Abbreviation data_segment :=
  (spec_data_segment MY_PORT message message_len dest_port).
Abbreviation data_count := (spec_data_count message_len).

Lemma sent_in_order_one (segment : list Z) (n : nat) :
  (1 <= n <= 10)%nat -> sent_in_order [segment] (replicate n segment).
Proof.
  intros Hn. rewrite <- (app_nil_r (replicate n segment)).
  apply sent_in_order_cons; [exact Hn | constructor].
Qed.

(** The END_OF_MESSAGE goes out between 1 and 10 times, whatever comes
    back. *)
Lemma transport_tx_end_of_message_run (k : nat) (segment : list Z)
    (trace : list effect) (inbox : list network_rx_event) :
  length segment = 28%nat ->
  exists wire,
    wire_segments
      (tx_trace (transport_tx_end_of_message MY_PORT MY_NETWORK_ADDR
                   resolve_network_addr dest_port
                   (if Nat.even k then 1 else 0) segment trace inbox))
    = wire_segments trace ++ wire /\
    sent_in_order [spec_eom MY_PORT dest_port k] wire.
Proof.
  intros Hseg. unfold transport_tx_end_of_message. cbv zeta.
  rewrite header_stores_5 by lia.
  unfold transport_keep_trying_to_tx.
  match goal with
  | |- context [transport_keep_trying_to_tx_loop _ _ 0 ?s ?l ?d ?c ?t ?i] =>
      destruct (tx_loop_wire_started MY_NETWORK_ADDR resolve_network_addr
                  s l d c i 0 t ltac:(lia)) as (n & Hn1 & Hn & Hw);
      destruct (tx_result (transport_keep_trying_to_tx_loop _ _ 0 s l d c t i))
        as [[| |]|] eqn:Hr
  end; cbn [tx_result tx_trace];
    (eexists; split; [exact Hw|]; apply sent_in_order_one; lia).
Qed.

(** The data loop entered for the [k]-th DATA segment: it puts on the
    network, in order, the DATA segments from the [k]-th on and the
    END_OF_MESSAGE, up to the one it stops at, each between 1 and 10
    times; it stops before the end only without success. *)
Lemma transport_tx_data_loop_run :
  forall (fuel k : nat) (bytes_remaining : Z) (segment : list Z)
         (trace : list effect) (inbox : list network_rx_event),
    bytes_remaining = Z.max 0 (message_len - 21 * Z.of_nat k) ->
    (k <= data_count)%nat ->
    (Z.to_nat bytes_remaining < fuel)%nat ->
    length segment = 28%nat ->
    let r := data_loop fuel message message_len dest_port bytes_remaining
               (if Nat.even k then 1 else 0) segment trace inbox in
    exists (started : nat) (wire : list (list Z)),
      (1 <= started <= S (data_count - k))%nat /\
      wire_segments (tx_trace r) = wire_segments trace ++ wire /\
      sent_in_order
        (take started
           (map data_segment (seq k (data_count - k))
              ++ [spec_eom MY_PORT dest_port data_count]))
        wire /\
      (tx_result r = Returned TRANSPORT_TX_SUCCESS ->
       started = S (data_count - k)).
Proof.
  induction fuel as [|fuel IH];
    intros k bytes_remaining segment trace inbox Hbr Hk Hfuel Hseg; [lia|].
  cbn [transport_tx_data_loop].
  destruct (Z.gtb_spec bytes_remaining 0) as [Hpos|Hzero].
  - assert (Hlt : (k < data_count)%nat)
      by (apply spec_data_count_lt; lia).
    pose proof (transport_tx_build_data_spec MY_PORT message message_len
                  dest_port k bytes_remaining segment message_len_uint16
                  message_length ltac:(lia) Hpos Hseg) as Hb.
    cbv zeta in Hb.
    destruct (transport_tx_build_data MY_PORT message message_len dest_port
                bytes_remaining (if Nat.even k then 1 else 0) segment)
      as [[pl sl] seg'].
    cbn [fst snd] in Hb. destruct Hb as (Hpl & Hsl & Hlen' & Htake).
    unfold transport_keep_trying_to_tx.
    destruct (tx_loop_wire_started MY_NETWORK_ADDR resolve_network_addr seg'
                sl dest_port (if Nat.even k then 1 else 0) inbox 0 trace
                ltac:(lia)) as (n & Hn1 & Hn & Hw).
    rewrite Htake in Hw.
    replace (data_count - k)%nat with (S (data_count - S k)) by lia.
    cbn [seq map app].
    destruct (tx_result (transport_keep_trying_to_tx_loop MY_NETWORK_ADDR
                           resolve_network_addr 0 seg' sl dest_port
                           (if Nat.even k then 1 else 0) trace inbox))
      as [[| |]|] eqn:Hr; cbv zeta; cbn [tx_result tx_trace].
    2-4: exists 1%nat, (replicate n (data_segment k));
      (split; [lia|]); (split; [exact Hw|]);
      (split; [cbn [take]; rewrite take_0; apply sent_in_order_one; lia
              | discriminate]).
    rewrite toggle_even.
    destruct (IH (S k) (uint16_of_int (bytes_remaining - pl)) seg'
                (tx_trace (transport_keep_trying_to_tx_loop MY_NETWORK_ADDR
                             resolve_network_addr 0 seg' sl dest_port
                             (if Nat.even k then 1 else 0) trace inbox)
                   ++ [Delay_ms TRANSPORT_TX_SEGMENT_SPACING_MS])
                (tx_inbox (transport_keep_trying_to_tx_loop MY_NETWORK_ADDR
                             resolve_network_addr 0 seg' sl dest_port
                             (if Nat.even k then 1 else 0) trace inbox)))
      as (started & wire & Hst & Hwire & Hsent & Hall).
    + unfold uint16_of_int. rewrite Z.mod_small by lia. lia.
    + lia.
    + unfold uint16_of_int. rewrite Z.mod_small by lia. lia.
    + exact Hlen'.
    + exists (S started), (replicate n (data_segment k) ++ wire).
      split; [lia|]. split; [|split].
      * rewrite Hwire, wire_segments_app, Hw.
        cbn [wire_segments map wire_segment concat app].
        rewrite app_nil_r, <- app_assoc. reflexivity.
      * cbn [take]. apply sent_in_order_cons; [lia | exact Hsent].
      * intros Hres. rewrite (Hall Hres). reflexivity.
  - assert (Hge : ~ (k < data_count)%nat)
      by (rewrite spec_data_count_lt; lia).
    assert (k = data_count) by lia. subst k.
    rewrite Nat.sub_diag. cbn [seq map app].
    destruct (transport_tx_end_of_message_run (spec_data_count message_len)
                segment trace inbox Hseg) as (wire & Hwire & Hsent).
    exists 1%nat, wire. split; [lia|]. split; [exact Hwire|].
    split; [exact Hsent | reflexivity].
Qed.

(** [transport_tx] on any answers: the segments of the message, up to the
    one it stops at, each between 1 and 10 times. *)
Lemma transport_tx_run (inbox : list network_rx_event) :
  let r := transport_tx MY_PORT MY_NETWORK_ADDR resolve_network_addr message
             message_len dest_port inbox in
  let segments :=
    spec_som MY_PORT message_len dest_port
      :: spec_data_segments MY_PORT message message_len dest_port
      ++ [spec_eom MY_PORT dest_port data_count] in
  exists started : nat,
    (1 <= started <= length segments)%nat /\
    sent_in_order (take started segments) (wire_segments (tx_trace r)) /\
    (tx_result r = Returned TRANSPORT_TX_SUCCESS ->
     started = length segments).
Proof.
  cbv zeta.
  assert (Hlen : length (spec_som MY_PORT message_len dest_port
                   :: spec_data_segments MY_PORT message message_len dest_port
                   ++ [spec_eom MY_PORT dest_port data_count])
                 = S (S data_count)).
  { cbn [length]. rewrite length_app. unfold spec_data_segments.
    rewrite length_map, length_seq. cbn [length]. lia. }
  rewrite Hlen.
  unfold transport_tx. cbv zeta.
  rewrite header_stores_7 by (rewrite length_replicate; vm_compute; lia).
  rewrite high_byte, low_byte by lia.
  unfold transport_keep_trying_to_tx.
  match goal with
  | |- context [transport_keep_trying_to_tx_loop _ _ 0 ?s ?l ?d ?c ?t ?i] =>
      destruct (tx_loop_wire_started MY_NETWORK_ADDR resolve_network_addr
                  s l d c i 0 t ltac:(lia)) as (n & Hn1 & Hn & Hw);
      destruct (tx_result (transport_keep_trying_to_tx_loop _ _ 0 s l d c t i))
        as [[| |]|] eqn:Hr;
      set (r1 := transport_keep_trying_to_tx_loop _ _ 0 s l d c t i) in *
  end; cbn [tx_result tx_trace].
  2-4: exists 1%nat; (split; [lia|]);
    (split; [cbn [take]; rewrite take_0, Hw; apply sent_in_order_one; lia
            | discriminate]).
  destruct (transport_tx_data_loop_run
              (S (Z.to_nat message_len)) 0 message_len
              ([START_SEGMENT_HEADER_LEN; 0; dest_port; MY_PORT;
                SEGID_START_OF_MESSAGE; message_len / 256;
                message_len mod 256]
                 ++ drop 7 (replicate (Z.to_nat MAX_SEGMENT_LEN) 0))
              (tx_trace r1 ++ [Delay_ms TRANSPORT_TX_SEGMENT_SPACING_MS])
              (tx_inbox r1))
    as (started & wire & Hst & Hwire & Hsent & Hall).
  - lia.
  - lia.
  - lia.
  - reflexivity.
  - change (if 0 =? 0 then 1 else 0) with (if Nat.even 0 then 1 else 0).
    rewrite Nat.sub_0_r in *.
    exists (S started). split; [lia|]. split.
    + rewrite Hwire, wire_segments_app, Hw.
      cbn [wire_segments map wire_segment concat app].
      rewrite app_nil_r. cbn [take].
      change (take (Z.to_nat START_SEGMENT_HEADER_LEN) _)
        with (spec_som MY_PORT message_len dest_port).
      apply sent_in_order_cons; [lia | exact Hsent].
    + intros Hres. rewrite (Hall Hres). reflexivity.
Qed.

End TransmitterRuns.

(** C6. For every message with [0 < message_len] (a [uint16_t]) in a
    buffer of at least [message_len] bytes, the segments of
    [transport_tx] are the SOM, the DATA segments [ds] and the EOM. When
    the answers to its calls of [network_rx] acknowledge each of them,
    and such answers exist for every message, [transport_tx] returns
    [TRANSPORT_TX_SUCCESS] having put exactly these segments on the
    network, in this order. Whatever the answers, and whether it returns
    or not, what it puts on the network is these segments in this order,
    each between 1 and 10 times in a row, up to the one it stops at, and it
    stops before the EOM only without success. The [k]-th DATA segment is
    built when [bytes_remaining = message_len - 21 * k], carries the offset
    [message_len - bytes_remaining] in bytes 5 and 6 and
    [min(bytes_remaining, 21)] payload bytes taken from that offset of the
    message; so the offsets increase strictly and the payloads put end to
    end are the first [message_len] bytes of the buffer, the message. In
    particular, the 50-byte message sent to a receiver that acknowledges
    at once yields DATA segments at offsets 0, 21 and 42 with 21, 21 and 8
    payload bytes, followed by EOM. *)
Theorem transport_tx_data_segments :
  (forall (MY_PORT MY_NETWORK_ADDR : Z) (resolve_network_addr : Z -> Z)
          (message : list Z) (message_len dest_port : Z),
      0 < message_len < 65536 ->
      message_len <= Z.of_nat (length message) ->
      let tx := transport_tx MY_PORT MY_NETWORK_ADDR resolve_network_addr
                  message message_len dest_port in
      let ds := spec_data_segments MY_PORT message message_len dest_port in
      let segments :=
        spec_som MY_PORT message_len dest_port
          :: ds ++ [spec_eom MY_PORT dest_port (length ds)] in
      (forall answers rest : list network_rx_event,
          Forall2 acknowledges segments answers ->
          tx_result (tx (answers ++ rest)) = Returned TRANSPORT_TX_SUCCESS /\
          wire_segments (tx_trace (tx (answers ++ rest))) = segments) /\
      (exists answers, Forall2 acknowledges segments answers) /\
      (forall inbox : list network_rx_event,
          exists started : nat,
            (1 <= started <= length segments)%nat /\
            sent_in_order (take started segments)
              (wire_segments (tx_trace (tx inbox))) /\
            (tx_result (tx inbox) = Returned TRANSPORT_TX_SUCCESS ->
             started = length segments)) /\
      (forall (k : nat) (d : list Z),
          ds !! k = Some d ->
          let bytes_remaining :=
            message_len
            - (MAX_SEGMENT_LEN - DATA_SEGMENT_HEADER_LEN) * Z.of_nat k in
          let payload_len :=
            Z.min bytes_remaining (MAX_SEGMENT_LEN - DATA_SEGMENT_HEADER_LEN) in
          0 < bytes_remaining /\
          load d 4 = SEGID_DATA /\
          load d 0 = DATA_SEGMENT_HEADER_LEN + payload_len /\
          be16_field d = message_len - bytes_remaining /\
          Z.of_nat (length (segment_payload d)) = payload_len /\
          segment_payload d
          = take (Z.to_nat payload_len)
              (drop (Z.to_nat (message_len - bytes_remaining)) message)) /\
      (forall (j k : nat) (dj dk : list Z),
          (j < k)%nat -> ds !! j = Some dj -> ds !! k = Some dk ->
          be16_field dj < be16_field dk) /\
      concat (map segment_payload ds) = take (Z.to_nat message_len) message) /\
  (let r := transport_tx 0x3C 0x3C example_resolve_network_addr
              example_message 50 0x0A example_acks in
   let ds := spec_data_segments 0x3C example_message 50 0x0A in
   tx_result r = Returned TRANSPORT_TX_SUCCESS /\
   wire_segments (tx_trace r)
   = spec_som 0x3C 50 0x0A :: ds ++ [spec_eom 0x3C 0x0A 3] /\
   map be16_field ds = [0; 21; 42] /\
   map (fun d => length (segment_payload d)) ds = [21; 21; 8]%nat /\
   map (fun d => load d 4) (wire_segments (tx_trace r))
   = [SEGID_START_OF_MESSAGE; SEGID_DATA; SEGID_DATA; SEGID_DATA;
      SEGID_END_OF_MESSAGE]).
Proof.
  split.
  - intros MY_PORT MY_NETWORK_ADDR resolve_network_addr message message_len
      dest_port HL Hmsg tx ds segments.
    assert (HL' : 0 <= message_len < 65536) by lia.
    assert (Hcount : length ds = spec_data_count message_len).
    { subst ds. unfold spec_data_segments.
      rewrite length_map, length_seq. reflexivity. }
    subst segments. rewrite Hcount.
    assert (Hfields :
      forall (k : nat) (d : list Z), ds !! k = Some d ->
        21 * Z.of_nat k < message_len /\ be16_field d = 21 * Z.of_nat k).
    { intros k d Hd.
      destruct (spec_data_segments_lookup MY_PORT message message_len
                  dest_port HL' k d Hd) as [Hk ->].
      split; [exact Hk|].
      apply (spec_data_segment_fields MY_PORT message message_len dest_port
               HL' Hmsg k Hk). }
    repeat apply conj.
    + intros answers rest Hack.
      destruct (transport_tx_acknowledged MY_PORT MY_NETWORK_ADDR
                  resolve_network_addr message message_len dest_port answers
                  rest HL' Hmsg Hack) as (Hres & Hwire & _).
      split; [exact Hres | exact Hwire].
    + eexists. apply (ack_segment_acknowledges dest_port).
    + intros inbox.
      apply (transport_tx_run MY_PORT MY_NETWORK_ADDR resolve_network_addr
               message message_len dest_port HL' Hmsg inbox).
    + intros k d Hd.
      destruct (spec_data_segments_lookup MY_PORT message message_len
                  dest_port HL' k d Hd) as [Hk ->].
      destruct (spec_data_segment_fields MY_PORT message message_len dest_port
                  HL' Hmsg k Hk) as (H0 & H4 & Hoff & Hpay & Hlen).
      change (MAX_SEGMENT_LEN - DATA_SEGMENT_HEADER_LEN) with 21.
      cbv zeta.
      replace (message_len - (message_len - 21 * Z.of_nat k))
        with (21 * Z.of_nat k) by lia.
      repeat apply conj; try assumption. lia.
    + intros j k dj dk Hjk Hj Hk.
      destruct (Hfields j dj Hj) as [_ ->].
      destruct (Hfields k dk Hk) as [_ ->]. lia.
    + apply spec_data_segments_cover; assumption.
  - vm_compute. repeat apply conj; reflexivity.
Qed.

(** The 50-byte message: acknowledged at once, and with the
    acknowledgement of its SOM coming on the tenth attempt. *)
Lemma transport_tx_data_segments_witness :
  let tx := transport_tx 0x3C 0x3C example_resolve_network_addr
              example_message 50 0x0A in
  let ds := spec_data_segments 0x3C example_message 50 0x0A in
  let segments := spec_som 0x3C 50 0x0A :: ds ++ [spec_eom 0x3C 0x0A 3] in
  tx_result (tx (example_acks ++ [Network_rx_timeout]))
  = Returned TRANSPORT_TX_SUCCESS /\
  wire_segments (tx_trace (tx (example_acks ++ [Network_rx_timeout])))
  = segments /\
  (exists started : nat,
      sent_in_order (take started segments)
        (wire_segments
           (tx_trace (tx (replicate 9 Network_rx_timeout ++ example_acks))))) /\
  concat (map segment_payload ds) = take (Z.to_nat 50) example_message.
Proof.
  intros tx ds segments.
  destruct transport_tx_data_segments as [Hgeneral _].
  destruct (Hgeneral 0x3C 0x3C example_resolve_network_addr example_message
              50 0x0A)
    as (Hack & _ & Hrun & _ & _ & Hcover).
  - lia.
  - vm_compute. discriminate.
  - destruct (Hack example_acks [Network_rx_timeout]) as [Hres Hwire].
    + vm_compute. repeat constructor.
    + destruct (Hrun (replicate 9 Network_rx_timeout ++ example_acks))
        as (started & _ & Hsent & _).
      split; [exact Hres|]. split; [exact Hwire|].
      split; [exists started; exact Hsent | exact Hcover].
Defined.

(** X9. Sender and receiver agree on a network that loses nothing. Let
    the receiver be handed, once each and in order, the segments
    [transport_tx] sends for a message: it acknowledges each of them and
    returns [TRANSPORT_RX_SUCCESS] at the END_OF_MESSAGE, leaving nothing
    unread. Let the sender get these acknowledgements as the answers to its
    calls of [network_rx]: it takes each for the acknowledgement of the
    segment just sent, sends exactly those segments and returns
    [TRANSPORT_TX_SUCCESS]. *)
Theorem transport_handshake
    (SENDER_PORT SENDER_NETWORK_ADDR : Z) (sender_resolve_network_addr : Z -> Z)
    (MY_PORT MY_NETWORK_ADDR : Z) (resolve_network_addr : Z -> Z)
    (message : list Z) (message_len dest_port : Z)
    (rx_seq : Z) (buffer : list Z) (buf_len : Z)
    (message_len_out source_port_out : option Z) :
  0 <= message_len < 65536 ->
  message_len <= Z.of_nat (length message) ->
  let segments :=
    spec_som SENDER_PORT message_len dest_port
      :: spec_data_segments SENDER_PORT message message_len dest_port
      ++ [spec_eom SENDER_PORT dest_port (spec_data_count message_len)] in
  let r := transport_rx MY_PORT MY_NETWORK_ADDR resolve_network_addr rx_seq
             buffer buf_len message_len_out source_port_out
             (map Network_rx_success segments) in
  let acks := wire_segments (rx_trace (trx_machine r)) in
  let t := transport_tx SENDER_PORT SENDER_NETWORK_ADDR
             sender_resolve_network_addr message message_len dest_port
             (map Network_rx_success acks) in
  trx_result r = Returned TRANSPORT_RX_SUCCESS /\
  trx_inbox r = [] /\
  acks = map (ack_segment MY_PORT) segments /\
  tx_result t = Returned TRANSPORT_TX_SUCCESS /\
  wire_segments (tx_trace t) = segments /\
  tx_inbox t = [].
Proof.
  intros HL Hmsg segments r acks t.
  assert (Hrx : trx_result r = Returned TRANSPORT_RX_SUCCESS /\ trx_inbox r = []).
  { subst r segments. rewrite transport_rx_is_run.
    match goal with
    | |- context [rx_run _ _ _ _ ?m _] => set (m0 := m)
    end.
    cbn [map rx_run].
    destruct (rx_step_start_of_message MY_PORT MY_NETWORK_ADDR
                resolve_network_addr buf_len m0
                (spec_som SENDER_PORT message_len dest_port) eq_refl)
      as [Hnone Hm1].
    rewrite Hnone.
    remember (fst (rx_step MY_PORT MY_NETWORK_ADDR resolve_network_addr
                     buf_len m0
                     (Network_rx_success
                        (spec_som SENDER_PORT message_len dest_port)))) as m1
      eqn:Em1.
    clear Em1 Hnone. unfold rx_handed in Hm1.
    injection Hm1 as Hst1 Hseq1 _ _ _.
    apply (rx_run_segments_once MY_PORT MY_NETWORK_ADDR resolve_network_addr
             buf_len SENDER_PORT message message_len dest_port
             (spec_data_count message_len) (spec_data_count message_len) 0 m1
             eq_refl Hst1 Hseq1). }
  destruct Hrx as [Hres Hleft].
  assert (Hacks : acks = map (ack_segment MY_PORT) segments).
  { subst acks.
    revert Hleft. subst r. rewrite transport_rx_is_run.
    match goal with
    | |- context [rx_run _ _ _ _ ?m _] =>
        destruct (rx_run_trace MY_PORT MY_NETWORK_ADDR resolve_network_addr
                    buf_len (map Network_rx_success segments) m)
          as (consumed & Hin & Htr & _)
    end.
    intros Hleft. rewrite Hleft, app_nil_r in Hin. subst consumed.
    rewrite Htr. apply wire_segments_answers. }
  destruct (transport_tx_acknowledged SENDER_PORT
              SENDER_NETWORK_ADDR sender_resolve_network_addr message
              message_len dest_port (map Network_rx_success acks) [] HL Hmsg)
    as (Htx & Hwire & Hin).
  { rewrite Hacks. apply ack_segment_acknowledges. }
  rewrite app_nil_r in Htx, Hwire, Hin. fold t in Htx, Hwire, Hin.
  repeat apply conj; assumption.
Qed.

(** The 50-byte message between ports 0x3C and 0x0A: five segments, five
    acknowledgements. *)
Lemma transport_handshake_witness :
  let segments :=
    spec_som 0x3C 50 0x0A
      :: spec_data_segments 0x3C example_message 50 0x0A
      ++ [spec_eom 0x3C 0x0A (spec_data_count 50)] in
  let r := transport_rx 0x0A 0x0A example_resolve_network_addr 0
             (replicate 50 0) 50 (Some 0) (Some 0)
             (map Network_rx_success segments) in
  let t := transport_tx 0x3C 0x3C example_resolve_network_addr
             example_message 50 0x0A
             (map Network_rx_success
                (wire_segments (rx_trace (trx_machine r)))) in
  trx_result r = Returned TRANSPORT_RX_SUCCESS /\
  tx_result t = Returned TRANSPORT_TX_SUCCESS /\
  wire_segments (tx_trace t) = segments.
Proof.
  intros segments r t.
  destruct (transport_handshake 0x3C 0x3C example_resolve_network_addr
              0x0A 0x0A example_resolve_network_addr example_message 50 0x0A
              0 (replicate 50 0) 50 (Some 0) (Some 0))
    as (Hrx & _ & _ & Htx & Hwire & _).
  - lia.
  - vm_compute. discriminate.
  - split; [exact Hrx|]. split; [exact Htx | exact Hwire].
Defined.

(** ** Transport layer: the sender's transmissions and the answers it
    reads *)

Lemma classify_error (current_seq_num : Z) (ev : network_rx_event) :
  transport_attempt_tx_classify current_seq_num ev = TRANSPORT_ATTEMPT_TX_ERROR
  <-> ev = Network_rx_error.
Proof.
  split; [|intros ->; reflexivity].
  destruct ev as [ack| |]; cbn [transport_attempt_tx_classify];
    try discriminate; [|reflexivity].
  destruct (negb _); [discriminate|]. destruct (_ =? _); discriminate.
Qed.

Section TransmitterAccounts.

Variable MY_PORT : Z.
Variable MY_NETWORK_ADDR : Z.
Variable resolve_network_addr : Z -> Z.

Lemma tx_loop_accounted (segment : list Z)
    (segment_len dest_port current_seq_num : Z)
    (inbox : list network_rx_event) :
  forall (attempts : Z) (trace : list effect),
    0 <= attempts <= 10 ->
    tx_accounted TRANSPORT_KEEP_TRYING_TO_TX_ERROR
      (length (wire_segments trace)) inbox
      (transport_keep_trying_to_tx_loop MY_NETWORK_ADDR resolve_network_addr
         attempts segment segment_len dest_port current_seq_num trace inbox).
Proof.
  induction inbox as [|ev inbox IH]; intros attempts trace Ha.
  - destruct (Z.eq_dec attempts 10) as [->|Hne].
    + rewrite tx_loop_limit by lia. exists []. cbn [tx_result tx_trace tx_inbox].
      repeat split; try discriminate; try constructor.
      cbn [length]. lia.
    + cbn [transport_keep_trying_to_tx_loop].
      unfold uint16_of_int, TRANSPORT_TX_ATTEMPT_LIMIT.
      rewrite Z.mod_small by lia.
      destruct (Z.gtb_spec (attempts + 1) 10); [lia|].
      unfold transport_attempt_tx, tx_accounted.
      cbn [tx_result tx_trace tx_inbox].
      exists []. rewrite wire_segments_app, length_app.
      repeat split; try discriminate; try constructor.
      cbn. lia.
  - destruct (Z.eq_dec attempts 10) as [->|Hne].
    + rewrite tx_loop_limit by lia. exists []. cbn [tx_result tx_trace tx_inbox].
      repeat split; try discriminate; try constructor.
      cbn [length]. lia.
    + cbn [transport_keep_trying_to_tx_loop].
      unfold uint16_of_int, TRANSPORT_TX_ATTEMPT_LIMIT.
      rewrite Z.mod_small by lia.
      destruct (Z.gtb_spec (attempts + 1) 10); [lia|].
      unfold transport_attempt_tx. cbn [tx_result tx_trace].
      pose proof (classify_error current_seq_num ev) as Herr.
      destruct (transport_attempt_tx_classify current_seq_num ev) eqn:Hc;
        unfold tx_accounted; cbn [tx_result tx_trace tx_inbox].
      1: { exists [ev]. rewrite wire_segments_app, length_app.
           repeat split; try discriminate.
           - cbn. lia.
           - intros _. constructor; [|constructor].
             intros E. apply Herr in E. discriminate. }
      5: { exists [ev]. rewrite wire_segments_app, length_app.
           repeat split; try discriminate.
           - cbn. lia.
           - intros _. exists []. split; [|constructor].
             cbn [app]. f_equal. apply Herr. reflexivity.
           - intros Hnot. exfalso. apply Hnot. reflexivity. }
      all: destruct (IH (attempts + 1)
                       ((trace
                           ++ [Network_tx segment segment_len
                                 (resolve_network_addr dest_port)
                                 MY_NETWORK_ADDR])
                          ++ [Delay_ms TRANSPORT_TX_RETRY_DELAY_MS])
                       ltac:(lia))
             as (consumed & Hin & Hsent & Hbl & Hlast & Hnone);
        exists (ev :: consumed);
        (split; [cbn [app]; f_equal; exact Hin|]);
        (split; [rewrite Hsent, !wire_segments_app, !length_app; cbn; lia|]);
        (split; [exact Hbl|]);
        (assert (Hev : ev <> Network_rx_error)
           by (intros E; apply Herr in E; discriminate));
        (split;
         [intros Hres; destruct (Hlast Hres) as (pre & -> & Hpre);
          exists (ev :: pre); split; [reflexivity | constructor; assumption]
         |intros Hres; constructor; [exact Hev | exact (Hnone Hres)]]).
Qed.

(** A call of [transport_keep_trying_to_tx] followed by what
    [transport_tx] does with its result. *)
Lemma tx_accounted_bind (sent : nat) (inbox : list network_rx_event)
    (r : tx_return transport_keep_trying_to_tx_result)
    (k : tx_return transport_tx_result) :
  tx_accounted TRANSPORT_KEEP_TRYING_TO_TX_ERROR sent inbox r ->
  (tx_result r = Returned TRANSPORT_KEEP_TRYING_TO_TX_SUCCESS ->
   tx_accounted TRANSPORT_TX_ERROR (length (wire_segments (tx_trace r)))
     (tx_inbox r) k) ->
  tx_accounted TRANSPORT_TX_ERROR sent inbox
    match tx_result r with
    | Blocked => Tx_return Blocked (tx_trace r) (tx_inbox r)
    | Returned TRANSPORT_KEEP_TRYING_TO_TX_REACHED_ATTEMPT_LIMIT =>
        Tx_return (Returned TRANSPORT_TX_REACHED_ATTEMPT_LIMIT)
          (tx_trace r) (tx_inbox r)
    | Returned TRANSPORT_KEEP_TRYING_TO_TX_ERROR =>
        Tx_return (Returned TRANSPORT_TX_ERROR) (tx_trace r) (tx_inbox r)
    | Returned TRANSPORT_KEEP_TRYING_TO_TX_SUCCESS => k
    end.
Proof.
  intros (consumed & Hin & Hsent & Hbl & Hlast & Hnone) Hk.
  destruct (tx_result r) as [[| |]|] eqn:Hr.
  - destruct (Hk eq_refl) as (consumed' & Hin' & Hsent' & Hbl' & Hlast' & Hnone').
    assert (Hclean : Forall (fun ev => ev <> Network_rx_error) consumed)
      by (apply Hnone; discriminate).
    exists (consumed ++ consumed').
    split; [rewrite <- app_assoc, <- Hin'; exact Hin|].
    split; [rewrite Hsent', Hsent, length_app; lia|].
    split; [exact Hbl'|]. split.
    + intros Hres. destruct (Hlast' Hres) as (pre & -> & Hpre).
      exists (consumed ++ pre). split; [apply app_assoc|].
      apply Forall_app. split; assumption.
    + intros Hres. apply Forall_app. split; [exact Hclean | exact (Hnone' Hres)].
  - exists consumed. cbn [tx_result tx_trace tx_inbox].
    split; [exact Hin|]. split; [rewrite Hsent; lia|].
    split; [discriminate|]. split; [discriminate|].
    intros _. apply Hnone. discriminate.
  - exists consumed. cbn [tx_result tx_trace tx_inbox].
    split; [exact Hin|]. split; [rewrite Hsent; lia|].
    split; [discriminate|]. split.
    + intros _. apply Hlast. reflexivity.
    + intros Hnot. exfalso. apply Hnot. reflexivity.
  - exists consumed. cbn [tx_result tx_trace tx_inbox].
    split; [exact Hin|]. split; [rewrite Hsent; lia|].
    split; [intros _; apply Hbl; reflexivity|]. split; [discriminate|].
    intros _. apply Hnone. discriminate.
Qed.

Lemma tx_accounted_success (sent : nat) (trace : list effect)
    (inbox : list network_rx_event) :
  length (wire_segments trace) = sent ->
  tx_accounted TRANSPORT_TX_ERROR sent inbox
    (Tx_return (Returned TRANSPORT_TX_SUCCESS) trace inbox).
Proof.
  intros Hsent. exists []. cbn [tx_result tx_trace tx_inbox app length].
  split; [reflexivity|]. split; [lia|].
  split; [discriminate|]. split; [discriminate|]. intros _. constructor.
Qed.

Lemma transport_tx_end_of_message_accounted (dest_port current_seq_num : Z)
    (segment : list Z) (trace : list effect) (inbox : list network_rx_event) :
  tx_accounted TRANSPORT_TX_ERROR (length (wire_segments trace)) inbox
    (transport_tx_end_of_message MY_PORT MY_NETWORK_ADDR resolve_network_addr
       dest_port current_seq_num segment trace inbox).
Proof.
  unfold transport_tx_end_of_message. cbv zeta.
  apply tx_accounted_bind.
  - apply tx_loop_accounted. lia.
  - intros _. apply tx_accounted_success. reflexivity.
Qed.

Lemma transport_tx_data_loop_accounted (message : list Z)
    (message_len dest_port : Z) :
  forall (fuel : nat) (bytes_remaining current_seq_num : Z)
         (segment : list Z) (trace : list effect)
         (inbox : list network_rx_event),
    (Z.to_nat bytes_remaining < fuel)%nat ->
    tx_accounted TRANSPORT_TX_ERROR (length (wire_segments trace)) inbox
      (transport_tx_data_loop MY_PORT MY_NETWORK_ADDR resolve_network_addr
         fuel message message_len dest_port bytes_remaining current_seq_num
         segment trace inbox).
Proof.
  induction fuel as [|fuel IH];
    intros bytes_remaining current_seq_num segment trace inbox Hfuel; [lia|].
  cbn [transport_tx_data_loop].
  destruct (Z.gtb_spec bytes_remaining 0) as [Hpos|_];
    [|apply transport_tx_end_of_message_accounted].
  assert (Hpl : fst (fst (transport_tx_build_data MY_PORT message message_len
                            dest_port bytes_remaining current_seq_num segment))
                = if bytes_remaining >? 21 then 21 else bytes_remaining mod 256)
    by reflexivity.
  destruct (transport_tx_build_data MY_PORT message message_len dest_port
              bytes_remaining current_seq_num segment) as [[pl sl] seg'].
  cbn [fst] in Hpl.
  apply tx_accounted_bind.
  - apply tx_loop_accounted. lia.
  - intros _.
    replace (length (wire_segments (tx_trace
               (transport_keep_trying_to_tx MY_NETWORK_ADDR
                  resolve_network_addr seg' sl dest_port current_seq_num
                  trace inbox))))
      with (length (wire_segments
                      (tx_trace
                         (transport_keep_trying_to_tx MY_NETWORK_ADDR
                            resolve_network_addr seg' sl dest_port
                            current_seq_num trace inbox)
                         ++ [Delay_ms TRANSPORT_TX_SEGMENT_SPACING_MS])))
      by (rewrite wire_segments_app, length_app; cbn; lia).
    apply IH.
    assert (Hdrop : uint16_of_int (bytes_remaining - pl) < bytes_remaining).
    { unfold uint16_of_int. subst pl.
      destruct (Z.gtb_spec bytes_remaining 21).
      - pose proof (Z.mod_le (bytes_remaining - 21) 65536 ltac:(lia) ltac:(lia)).
        lia.
      - rewrite (Z.mod_small bytes_remaining) by lia.
        rewrite Z.sub_diag. change (0 mod 65536) with 0. lia. }
    lia.
Qed.

End TransmitterAccounts.
(** X10. The sender reads one answer after every transmission and
    never otherwise. For every script of answers, the calls of
    [network_rx] made by [transport_tx] take a prefix of the script, and
    the number of segments put on the network is the number of answers
    read, plus one if the script ran out while the last segment was
    waiting for its answer, which is the only way for [transport_tx] to
    block. An error of the network layer is never retried: it is the last
    answer read and makes [transport_tx] return [TRANSPORT_TX_ERROR], which
    it returns for no other reason. *)
Theorem transport_tx_reads_one_answer_per_segment
    (MY_PORT MY_NETWORK_ADDR : Z) (resolve_network_addr : Z -> Z)
    (message : list Z) (message_len dest_port : Z)
    (inbox : list network_rx_event) :
  0 <= message_len < 65536 ->
  message_len <= Z.of_nat (length message) ->
  let t := transport_tx MY_PORT MY_NETWORK_ADDR resolve_network_addr message
             message_len dest_port inbox in
  exists consumed,
    inbox = consumed ++ tx_inbox t /\
    length (wire_segments (tx_trace t))
    = (length consumed
       + match tx_result t with Blocked => 1 | Returned _ => 0 end)%nat /\
    (tx_result t = Blocked -> tx_inbox t = []) /\
    (tx_result t = Returned TRANSPORT_TX_ERROR ->
     exists pre,
       consumed = pre ++ [Network_rx_error] /\
       Forall (fun ev => ev <> Network_rx_error) pre) /\
    (tx_result t <> Returned TRANSPORT_TX_ERROR ->
     Forall (fun ev => ev <> Network_rx_error) consumed).
Proof.
  intros HL _ t.
  change (tx_accounted TRANSPORT_TX_ERROR 0 inbox t).
  subst t. unfold transport_tx. cbv zeta.
  apply tx_accounted_bind.
  - apply (tx_loop_accounted MY_NETWORK_ADDR resolve_network_addr _ _ _ _
             inbox 0 []). lia.
  - intros _.
    match goal with
    | |- tx_accounted _ _ _
           (transport_tx_data_loop _ _ _ ?f ?m ?l ?d ?br ?c ?seg
              (?tr ++ ?dl) ?i) =>
        replace (length (wire_segments tr))
          with (length (wire_segments (tr ++ dl)))
          by (rewrite wire_segments_app, length_app; cbn; lia);
        apply (transport_tx_data_loop_accounted MY_PORT MY_NETWORK_ADDR
                 resolve_network_addr m l d f br c seg (tr ++ dl) i)
    end.
    lia.
Qed.

(** The sender of the 50-byte message: an unanswered START_OF_MESSAGE, an
    acknowledged one, and an error of the network layer after the first
    DATA segment. *)
Lemma transport_tx_reads_one_answer_per_segment_witness :
  let t := transport_tx 0x3C 0x3C example_resolve_network_addr
             example_message 50 0x0A
             [Network_rx_timeout; example_ack 1; Network_rx_error;
              example_ack 1] in
  exists consumed,
    [Network_rx_timeout; example_ack 1; Network_rx_error; example_ack 1]
    = consumed ++ tx_inbox t /\
    length (wire_segments (tx_trace t)) = (length consumed + 0)%nat.
Proof.
  intros t.
  destruct (transport_tx_reads_one_answer_per_segment 0x3C 0x3C
              example_resolve_network_addr example_message 50 0x0A
              [Network_rx_timeout; example_ack 1; Network_rx_error;
               example_ack 1])
    as (consumed & Hin & Hsent & _).
  - lia.
  - vm_compute. discriminate.
  - exists consumed. split; [exact Hin | exact Hsent].
Defined.

(** ** The first transport layer over the network and data-link layers *)

Lemma char_of_byte_small (char_is_signed : bool) (b : Z) :
  0 <= b < 128 -> char_of_byte char_is_signed b = b.
Proof.
  intros Hb. unfold char_of_byte.
  destruct (Z.leb_spec 128 b); [lia|].
  rewrite andb_false_r. reflexivity.
Qed.

(** The frame [network_tx] builds from the first [payload_len] cells of an
    array. *)
Lemma network_tx_frame_take (resolve_data_link_addr : Z -> Z)
    (next_hop_uninitialised : Z) (payload : list Z)
    (payload_len dest src : Z) :
  0 <= payload_len <= 28 ->
  payload_len <= Z.of_nat (length payload) ->
  trx_frame (network_tx resolve_data_link_addr next_hop_uninitialised
               payload payload_len dest src)
  = [payload_len + 3; payload_len + 3; byte_of_int dest; byte_of_int src]
      ++ take (Z.to_nat payload_len) payload
      ++ replicate (Z.to_nat (28 - payload_len)) 0.
Proof.
  intros Hlen Hpay. unfold network_tx. cbv zeta.
  change PACKET_HEADER_LEN with 3.
  assert (Hb : byte_of_int (payload_len + 3) = payload_len + 3)
    by (unfold byte_of_int; apply Z.mod_small; lia).
  rewrite network_tx_packet_bytes by lia.
  change PACKET_HEADER_LEN with 3. rewrite Hb.
  rewrite Z.min_l by lia. rewrite Z.sub_diag. cbn [Z.to_nat replicate].
  rewrite app_nil_r.
  assert (Hmap : map (load payload) (seqZ 0 payload_len)
                 = take (Z.to_nat payload_len) payload).
  { transitivity (map (fun i => load payload (i + 0)) (seqZ 0 payload_len)).
    - apply map_ext. intros i. f_equal. lia.
    - rewrite map_load_seqZ by lia. change (Z.to_nat 0) with 0%nat.
      rewrite drop_0. reflexivity. }
  rewrite Hmap.
  rewrite data_link_tx_frame
    by (cbn [app length]; rewrite ?length_take; lia).
  rewrite Z.min_l by lia.
  rewrite take_ge by (cbn [app length]; rewrite ?length_take; lia).
  cbn [app]. do 6 f_equal. lia.
Qed.

(** [network_rx] handed the frame of a [network_tx] to this node: it
    delivers the payload at once and leaves the later frames. *)
Lemma network_rx_delivers (MY_NETWORK_ADDR : Z)
    (resolve_rx resolve_tx : Z -> Z) (char_is_signed : bool)
    (uninit_rx uninit_tx : Z) (payload buffer : list Z)
    (payload_len src buf_len : Z) (rest : list (list Z)) :
  0 <= MY_NETWORK_ADDR < 128 ->
  0 <= payload_len <= 28 ->
  payload_len <= Z.of_nat (length payload) ->
  0 <= buf_len ->
  Z.min payload_len buf_len <= Z.of_nat (length buffer) ->
  let n := Z.to_nat (Z.min payload_len buf_len) in
  network_rx MY_NETWORK_ADDR resolve_rx char_is_signed uninit_rx
    (trx_frame (network_tx resolve_tx uninit_tx payload payload_len
                  MY_NETWORK_ADDR src) :: rest)
    buffer buf_len
  = (Returned (Network_rx_return (take n payload ++ drop n buffer)
                 payload_len),
     [], rest).
Proof.
  intros Haddr Hlen Hpay Hbuf Hroom n. subst n.
  rewrite network_tx_frame_take by assumption.
  unfold network_rx. cbn [network_rx_loop].
  set (frame := [payload_len + 3; payload_len + 3;
                 byte_of_int MY_NETWORK_ADDR; byte_of_int src]
                  ++ take (Z.to_nat payload_len) payload
                  ++ replicate (Z.to_nat (28 - payload_len)) 0).
  assert (Hframe : length frame = 32%nat).
  { subst frame. cbn [app length].
    rewrite length_app, length_take, length_replicate. lia. }
  rewrite data_link_rx_overwrites
    by (rewrite ?length_replicate; try assumption; reflexivity).
  rewrite frame_packet_body by exact Hframe.
  subst frame. cbn [app drop]. rewrite ?drop_0.
  change (load (?a :: _) 0) with a.
  change (load (_ :: ?a :: _) 1) with a.
  rewrite (char_of_byte_small _ (payload_len + 3)) by lia.
  assert (Hmy : byte_of_int MY_NETWORK_ADDR = MY_NETWORK_ADDR)
    by (unfold byte_of_int; apply Z.mod_small; lia).
  rewrite Hmy, (char_of_byte_small _ MY_NETWORK_ADDR) by lia.
  rewrite Z.eqb_refl. cbn [negb].
  change PACKET_HEADER_LEN with 3.
  replace (payload_len + 3 - 3) with payload_len by lia.
  do 2 f_equal. f_equal.
  rewrite (for_loop_ext _ (fun i _ => i <? Z.min payload_len buf_len))
    by (intros; apply andb_ltb_min).
  set (packet := payload_len + 3 :: MY_NETWORK_ADDR :: _).
  rewrite (for_loop_ext_body _ _
             (fun i buffer => store buffer (i + 0) (load packet (i + 3))))
    by (intros; rewrite Z.add_0_r; reflexivity).
  rewrite (copy_loop 0 (Z.min payload_len buf_len)) by lia.
  change (Z.to_nat (0 + 0)) with 0%nat. rewrite take_0, Z.sub_0_r.
  cbn [app].
  rewrite map_load_seqZ
    by (subst packet; cbn [length];
        rewrite ?length_app, ?length_take, ?length_replicate; lia).
  subst packet. change (Z.to_nat 3) with 3%nat. cbn [drop].
  rewrite ?drop_0.
  clear Hframe.
  rewrite take_app_le by (rewrite length_take; apply Nat.min_glb; lia).
  rewrite take_take, Z.add_0_l.
  replace (Z.to_nat (Z.min payload_len buf_len) `min` Z.to_nat payload_len)%nat
    with (Z.to_nat (Z.min payload_len buf_len)) by lia.
  reflexivity.
Qed.

(** A copy loop whose body is guarded by [i + d < bound] copies as far
    as the guard holds. *)
Lemma guarded_copy_idle (d bound n : Z) (f : Z -> Z) :
  forall (fuel : nat) (i : Z) (a : list Z),
    bound <= i + d ->
    snd (for_loop fuel (fun i _ => i <? n)
           (fun i a => if i + d <? bound then store a (i + d) (f i) else a)
           i a) = a.
Proof.
  induction fuel as [|fuel IH]; intros i a Hi; cbn [for_loop];
    [reflexivity|].
  destruct (i <? n); [|reflexivity].
  destruct (Z.ltb_spec (i + d) bound); [lia|]. apply IH. lia.
Qed.

Lemma guarded_copy_loop (d bound n : Z) (f : Z -> Z) :
  forall (fuel : nat) (i : Z) (a : list Z),
    snd (for_loop fuel (fun i _ => i <? n)
           (fun i a => if i + d <? bound then store a (i + d) (f i) else a)
           i a)
    = snd (for_loop fuel (fun i _ => i <? Z.min n (bound - d))
             (fun i a => store a (i + d) (f i)) i a).
Proof.
  induction fuel as [|fuel IH]; intros i a; cbn [for_loop]; [reflexivity|].
  destruct (Z.ltb_spec i n) as [Hn|Hn].
  - destruct (Z.ltb_spec (i + d) bound) as [Hb|Hb].
    + destruct (Z.ltb_spec i (Z.min n (bound - d))); [|lia]. apply IH.
    + destruct (Z.ltb_spec i (Z.min n (bound - d))); [lia|].
      cbn [snd]. apply guarded_copy_idle. lia.
  - destruct (Z.ltb_spec i (Z.min n (bound - d))); [lia | reflexivity].
Qed.
Lemma load_take_app (l r : list Z) (n : nat) (j : Z) :
  0 <= j < Z.of_nat n -> (n <= length l)%nat ->
  load (take n l ++ r) j = load l j.
Proof.
  intros Hj Hn. unfold load. destruct (Z.ltb_spec j 0); [lia|].
  rewrite lookup_app_l by (rewrite length_take; lia).
  rewrite lookup_take_lt by lia. reflexivity.
Qed.

Lemma frames_of_app (t1 t2 : list Legacy.effect) :
  Legacy.frames_of (t1 ++ t2) = Legacy.frames_of t1 ++ Legacy.frames_of t2.
Proof. unfold Legacy.frames_of. rewrite map_app, concat_app. reflexivity. Qed.

Section LegacyTransport.

(** The sender. *)
Variable SENDER_PORT : Z.
Variable SENDER_NETWORK_ADDR : Z.
Variable resolve_network_addr : Z -> Z.
Variable sender_resolve_data_link_addr : Z -> Z.
Variable sender_next_hop_uninitialised : Z.

(** The receiver. *)
Variable MY_NETWORK_ADDR : Z.
Variable resolve_data_link_addr : Z -> Z.
Variable char_is_signed : bool.
Variable next_hop_uninitialised : Z.

Variable START_SEGMENT_HEADER_LEN : Z.
Variable DATA_SEGMENT_HEADER_LEN : Z.
Variable END_SEGMENT_HEADER_LEN : Z.
Hypothesis start_header : 5 <= START_SEGMENT_HEADER_LEN <= 28.
Hypothesis data_header : 5 <= DATA_SEGMENT_HEADER_LEN < 28.
Hypothesis end_header : 4 <= END_SEGMENT_HEADER_LEN <= 28.

Variable message : list Z.
Variable message_len dest_port : Z.
Hypothesis message_len_char : 0 <= message_len <= 127.
Hypothesis message_length : message_len <= Z.of_nat (length message).
Hypothesis destination : resolve_network_addr dest_port = MY_NETWORK_ADDR.
Hypothesis my_network_addr_char : 0 <= MY_NETWORK_ADDR < 128.

Variable buffer : list Z.
Variable buf_len : Z.
Hypothesis buffer_length : 0 <= buf_len <= Z.of_nat (length buffer).

Abbreviation build_data :=
  (Legacy.transport_tx_build_data SENDER_PORT DATA_SEGMENT_HEADER_LEN message
     message_len dest_port).
Abbreviation data_loop :=
  (Legacy.transport_tx_data_loop SENDER_PORT SENDER_NETWORK_ADDR
     resolve_network_addr sender_resolve_data_link_addr
     sender_next_hop_uninitialised DATA_SEGMENT_HEADER_LEN
     END_SEGMENT_HEADER_LEN).
Abbreviation send :=
  (Legacy.transport_tx_send SENDER_NETWORK_ADDR resolve_network_addr
     sender_resolve_data_link_addr sender_next_hop_uninitialised).
Abbreviation rx_loop :=
  (Legacy.transport_rx_loop MY_NETWORK_ADDR resolve_data_link_addr
     char_is_signed next_hop_uninitialised DATA_SEGMENT_HEADER_LEN).
Abbreviation copy_data :=
  (Legacy.transport_rx_copy_data char_is_signed DATA_SEGMENT_HEADER_LEN).

(** The payload bytes of one DATA segment, the number of message bytes in
    the buffer after [k] DATA segments, and the buffer then. *)
Abbreviation room := (28 - DATA_SEGMENT_HEADER_LEN).
Abbreviation copied k :=
  (Z.to_nat (Z.min (Z.min (room * Z.of_nat k) message_len) buf_len)).
Abbreviation received k :=
  (take (copied k) message ++ drop (copied k) buffer).

(** The DATA segment built when [bytes_remaining] bytes are left. *)
Lemma legacy_build_data (bytes_remaining : Z) (segment : list Z) :
  0 < bytes_remaining <= message_len ->
  length segment = 28%nat ->
  let b := build_data bytes_remaining segment in
  let pl := Z.min bytes_remaining room in
  fst (fst b) = pl /\
  snd (fst b) = pl + DATA_SEGMENT_HEADER_LEN /\
  length (snd b) = 28%nat /\
  load (snd b) 0 = pl + DATA_SEGMENT_HEADER_LEN /\
  load (snd b) 3 = Legacy.SEGID_DATA /\
  load (snd b) 4 = message_len - bytes_remaining /\
  take (Z.to_nat pl) (drop (Z.to_nat DATA_SEGMENT_HEADER_LEN) (snd b))
  = take (Z.to_nat pl) (drop (Z.to_nat (message_len - bytes_remaining)) message).
Proof.
  intros Hbr Hseg b pl. subst b. unfold Legacy.transport_tx_build_data.
  change MAX_SEGMENT_LEN with 28.
  assert (Hpl : (if bytes_remaining >? room then room else bytes_remaining)
                = pl)
    by (subst pl; destruct (Z.gtb_spec bytes_remaining room); lia).
  rewrite Hpl. cbv zeta. cbn [fst snd].
  assert (Hplr : 0 < pl <= room) by lia.
  rewrite header_stores_5 by lia.
  set (s5 := [byte_of_int (pl + DATA_SEGMENT_HEADER_LEN); byte_of_int dest_port;
              byte_of_int SENDER_PORT; Legacy.SEGID_DATA;
              byte_of_int (message_len - bytes_remaining)]
               ++ drop 5 segment).
  assert (Hs5 : length s5 = 28%nat).
  { subst s5. rewrite length_app, length_drop, Hseg. reflexivity. }
  rewrite (copy_loop DATA_SEGMENT_HEADER_LEN pl) by lia.
  rewrite Z.add_0_r, Z.sub_0_r.
  assert (Hb0 : byte_of_int (pl + DATA_SEGMENT_HEADER_LEN)
                = pl + DATA_SEGMENT_HEADER_LEN)
    by (unfold byte_of_int; apply Z.mod_small; lia).
  assert (Hb4 : byte_of_int (message_len - bytes_remaining)
                = message_len - bytes_remaining)
    by (unfold byte_of_int; apply Z.mod_small; lia).
  repeat apply conj.
  - reflexivity.
  - reflexivity.
  - rewrite !length_app, length_take, length_map, length_seqZ, length_drop.
    lia.
  - rewrite load_take_app by lia. subst s5.
    etransitivity; [|exact Hb0]. reflexivity.
  - rewrite load_take_app by lia. reflexivity.
  - rewrite load_take_app by lia. subst s5.
    etransitivity; [|exact Hb4]. reflexivity.
  - rewrite drop_app_length' by (rewrite length_take; lia).
    rewrite take_app_length' by (rewrite length_map, length_seqZ; lia).
    transitivity
      (map (fun i => load message (i + (message_len - bytes_remaining)))
         (seqZ 0 pl)); [reflexivity|].
    apply map_load_seqZ; lia.
Qed.

(** The guarded copy of the receiver, for a segment that announces [pl]
    payload bytes at an offset that is not negative. *)
Lemma legacy_copy_data_buffer (segment caller payload : list Z) (off : Z)
    (stores : list (Z * Z)) :
  let pl := Z.of_nat (length payload) in
  char_of_byte char_is_signed (load segment 0)
  = pl + DATA_SEGMENT_HEADER_LEN ->
  char_of_byte char_is_signed (load segment 4) = off ->
  0 <= off ->
  take (length payload) (drop (Z.to_nat DATA_SEGMENT_HEADER_LEN) segment)
  = payload ->
  buf_len <= Z.of_nat (length caller) ->
  let n := Z.to_nat (Z.min pl (buf_len - off)) in
  fst (copy_data segment buf_len caller stores)
  = take (Z.to_nat off) caller ++ take n payload
      ++ drop (Z.to_nat off + n) caller.
Proof.
  intros pl H0 H4 Hoff Hpay Hbuf n.
  unfold Legacy.transport_rx_copy_data. cbv zeta. rewrite H0, H4.
  replace (pl + DATA_SEGMENT_HEADER_LEN - DATA_SEGMENT_HEADER_LEN)
    with pl by lia.
  pose (F := fun (i : Z) (b : list Z) =>
               if i + off <? buf_len
               then store b (i + off)
                      (load segment (i + DATA_SEGMENT_HEADER_LEN))
               else b).
  pose (G := fun (i : Z) (bs : list Z * list (Z * Z)) =>
               if i + off <? buf_len
               then snd bs
                      ++ [(i + off,
                           load segment (i + DATA_SEGMENT_HEADER_LEN))]
               else snd bs).
  rewrite (for_loop_ext_body _ _ (fun i bs => (F i (fst bs), G i bs)))
    by (intros j [b st]; subst F G; cbn [fst snd];
        destruct (j + off <? buf_len); reflexivity).
  rewrite (for_loop_fst (fun i => i <? pl) F G). subst F.
  rewrite guarded_copy_loop.
  destruct (Z.le_gt_cases (Z.min pl (buf_len - off)) 0) as [Hnone|Hsome].
  - assert (n = 0%nat) by lia. subst n. rewrite H.
    rewrite for_loop_stop by (apply Z.ltb_ge; lia).
    cbn [snd take app]. rewrite Nat.add_0_r. symmetry. apply take_drop.
  - rewrite (copy_loop off (Z.min pl (buf_len - off))
               (fun i => load segment (i + DATA_SEGMENT_HEADER_LEN)))
      by lia.
    rewrite Z.add_0_r, Z.sub_0_r. f_equal.
    replace (Z.to_nat (off + Z.min pl (buf_len - off)))
      with (Z.to_nat off + n)%nat by lia.
    f_equal.
    assert (Hl : length (take (length payload)
                           (drop (Z.to_nat DATA_SEGMENT_HEADER_LEN) segment))
                 = length payload) by (rewrite Hpay; reflexivity).
    rewrite length_take, length_drop in Hl.
    rewrite map_load_seqZ by lia.
    transitivity (take n (take (length payload)
                            (drop (Z.to_nat DATA_SEGMENT_HEADER_LEN) segment))).
    + rewrite take_take. f_equal. lia.
    + rewrite Hpay. reflexivity.
Qed.

Lemma load_store_eq (a : list Z) (i v : Z) :
  0 <= i < Z.of_nat (length a) -> load (store a i v) i = v.
Proof. intros Hi. rewrite load_store. case_decide; [reflexivity | lia]. Qed.

(** The receiver's [network_rx] on the frame of a segment sent to it. *)
Lemma legacy_network_rx (seg_tx seg_rx : list Z) (segment_len : Z)
    (t : list Legacy.effect) (rest : list (list Z)) :
  0 <= segment_len <= 28 ->
  length seg_tx = 28%nat ->
  length seg_rx = 28%nat ->
  network_rx MY_NETWORK_ADDR resolve_data_link_addr char_is_signed
    next_hop_uninitialised
    (Legacy.frames_of (send seg_tx segment_len dest_port :: t) ++ rest)
    seg_rx MAX_SEGMENT_LEN
  = (Returned
       (Network_rx_return
          (take (Z.to_nat segment_len) seg_tx
             ++ drop (Z.to_nat segment_len) seg_rx) segment_len),
     [], Legacy.frames_of t ++ rest).
Proof.
  intros Hlen Htx Hrx. unfold Legacy.transport_tx_send.
  change (Legacy.frames_of (Legacy.Transmit ?x :: t))
    with (trx_frame x :: Legacy.frames_of t).
  cbn [app]. rewrite destination. change MAX_SEGMENT_LEN with 28.
  rewrite network_rx_delivers by lia.
  rewrite Z.min_l by lia. reflexivity.
Qed.

(** The DATA segments from the [k]-th on and the END_OF_MESSAGE: what
    the sender transmits, and what the receiver makes of it. *)
Lemma legacy_data_phase (announced : Z) (rest : list (list Z))
    (sent : list trx_transmission) :
  forall (fuel k : nat) (bytes_remaining : Z) (seg_tx seg_rx : list Z)
         (stores : list (Z * Z)) (trace : list Legacy.effect),
    bytes_remaining = Z.max 0 (message_len - room * Z.of_nat k) ->
    (Z.to_nat bytes_remaining <= fuel)%nat ->
    length seg_tx = 28%nat ->
    length seg_rx = 28%nat ->
    exists t stores',
      data_loop fuel message message_len dest_port bytes_remaining seg_tx
        trace = Returned (trace ++ t) /\
      forall fuel_rx,
        (length (Legacy.frames_of t) <= fuel_rx)%nat ->
        rx_loop fuel_rx Legacy.RXST_Receiving announced seg_rx
          (received k) stores buf_len (Legacy.frames_of t ++ rest) sent
        = Legacy.Transport_rx_return (Returned announced)
            (take (Z.to_nat (Z.min message_len buf_len)) message
               ++ drop (Z.to_nat (Z.min message_len buf_len)) buffer)
            stores' sent rest.
Proof.
  induction fuel as [|fuel IH];
    intros k bytes_remaining seg_tx seg_rx stores trace Hbr Hfuel Htx Hrx;
    assert (Hrk : 0 <= room * Z.of_nat k) by nia.
  - cbn [Legacy.transport_tx_data_loop].
    destruct (Z.gtb_spec bytes_remaining 0) as [Hpos|Hzero]; [lia|].
    eexists _, stores. split; [reflexivity|].
    intros fuel_rx Hfr. destruct fuel_rx as [|fuel_rx]; [cbn in Hfr; lia|].
    cbn [Legacy.transport_rx_loop].
    rewrite legacy_network_rx
      by (rewrite ?store_length; (assumption || lia)).
    cbn [nrx_buffer]. rewrite !app_nil_r.
    rewrite load_take_app by (rewrite ?store_length; lia).
    rewrite load_store_eq by (rewrite ?store_length; lia).
    rewrite char_of_byte_small by (unfold Legacy.SEGID_END_OF_MESSAGE; lia).
    change (Legacy.SEGID_END_OF_MESSAGE =? Legacy.SEGID_DATA) with false.
    change (Legacy.SEGID_END_OF_MESSAGE =? Legacy.SEGID_END_OF_MESSAGE)
      with true.
    cbv iota.
    replace (copied k) with (Z.to_nat (Z.min message_len buf_len)) by lia.
    reflexivity.
  - cbn [Legacy.transport_tx_data_loop].
    destruct (Z.gtb_spec bytes_remaining 0) as [Hpos|Hzero].
    + destruct (legacy_build_data bytes_remaining seg_tx ltac:(lia) Htx)
        as (Hpl & Hsl & Hlen' & H0 & H3 & H4 & Hpay).
      destruct (build_data bytes_remaining seg_tx) as [[pl sl] seg'].
      cbn [fst snd] in Hpl, Hsl, Hlen', H0, H3, H4, Hpay.
      rewrite <- Hpl in Hsl, H0, Hpay.
      set (delivered := take (Z.to_nat sl) seg' ++ drop (Z.to_nat sl) seg_rx).
      assert (Hdel : length delivered = 28%nat).
      { subst delivered. rewrite length_app, length_take, length_drop. lia. }
      destruct (IH (S k) (bytes_remaining - pl) seg' delivered
                  (snd (copy_data delivered buf_len (received k) stores))
                  (trace
                     ++ [send seg' sl dest_port;
                         Legacy.Delay_ms Legacy.TRANSPORT_DELAY_MS]))
        as (t & stores' & Htx' & Hrx'); try assumption; try lia.
      exists ([send seg' sl dest_port;
               Legacy.Delay_ms Legacy.TRANSPORT_DELAY_MS] ++ t), stores'.
      split; [rewrite Htx', <- app_assoc; reflexivity|].
      intros fuel_rx Hfr.
      change (Legacy.frames_of
                ([send seg' sl dest_port;
                  Legacy.Delay_ms Legacy.TRANSPORT_DELAY_MS] ++ t))
        with (Legacy.frames_of (send seg' sl dest_port :: t)) in *.
      destruct fuel_rx as [|fuel_rx]; [cbn in Hfr; lia|].
      cbn [Legacy.transport_rx_loop].
      rewrite legacy_network_rx by (assumption || lia).
      cbn [nrx_buffer]. rewrite !app_nil_r. fold delivered.
      assert (Hd3 : load delivered 3 = Legacy.SEGID_DATA)
        by (subst delivered; rewrite load_take_app by lia; exact H3).
      assert (Hd0 : load delivered 0 = pl + DATA_SEGMENT_HEADER_LEN)
        by (subst delivered; rewrite load_take_app by lia; exact H0).
      assert (Hd4 : load delivered 4 = message_len - bytes_remaining)
        by (subst delivered; rewrite load_take_app by lia; exact H4).
      rewrite Hd3.
      rewrite char_of_byte_small by (unfold Legacy.SEGID_DATA; lia).
      change (Legacy.SEGID_DATA =? Legacy.SEGID_DATA) with true. cbv iota.
      set (payload := take (Z.to_nat pl)
                        (drop (Z.to_nat (message_len - bytes_remaining))
                           message)).
      assert (Hplen : Z.of_nat (length payload) = pl)
        by (subst payload; rewrite length_take, length_drop; lia).
      assert (Hcopy : fst (copy_data delivered buf_len (received k) stores)
                      = received (S k)).
      { rewrite (legacy_copy_data_buffer delivered (received k) payload
                   (message_len - bytes_remaining)).
        - rewrite Hplen.
          replace (message_len - bytes_remaining) with (room * Z.of_nat k)
            by lia.
          destruct (Z.le_gt_cases buf_len (room * Z.of_nat k))
            as [Hfull|Hroom].
          + replace (Z.to_nat (Z.min pl (buf_len - room * Z.of_nat k)))
              with 0%nat by lia.
            rewrite take_0, Nat.add_0_r. cbn [app]. rewrite take_drop.
            do 2 f_equal; lia.
          + set (n := Z.to_nat (Z.min pl (buf_len - room * Z.of_nat k))).
            replace (copied k) with (Z.to_nat (room * Z.of_nat k)) by lia.
            replace (copied (S k)) with (Z.to_nat (room * Z.of_nat k) + n)%nat
              by lia.
            rewrite take_app_length' by (rewrite length_take; lia).
            rewrite drop_app_add' by (rewrite length_take; lia).
            rewrite drop_drop.
            subst payload. rewrite take_take.
            replace (n `min` Z.to_nat pl)%nat with n by lia.
            replace (Z.to_nat (message_len - bytes_remaining))
              with (Z.to_nat (room * Z.of_nat k)) by lia.
            rewrite app_assoc, take_take_drop. reflexivity.
        - rewrite Hd0, Hplen. apply char_of_byte_small. lia.
        - rewrite Hd4. apply char_of_byte_small. lia.
        - lia.
        - subst delivered payload.
          replace (length (take (Z.to_nat pl)
                             (drop (Z.to_nat (message_len - bytes_remaining))
                                message)))
            with (Z.to_nat pl) by lia.
          rewrite <- Hpay.
          rewrite drop_app_le by (rewrite length_take; lia).
          rewrite take_app_le by (rewrite length_drop, length_take; lia).
          replace (Z.to_nat sl)
            with (Z.to_nat DATA_SEGMENT_HEADER_LEN + Z.to_nat pl)%nat by lia.
          rewrite <- take_drop_commute, take_take. f_equal. lia.
        - rewrite length_app, length_take, length_drop. lia. }
      rewrite Hcopy. apply Hrx'.
      unfold Legacy.frames_of, Legacy.transport_tx_send in *.
      cbn [map concat app length] in Hfr. lia.
    + assert (bytes_remaining = 0) by lia.
      eexists _, stores. split; [reflexivity|].
      intros fuel_rx Hfr. destruct fuel_rx as [|fuel_rx]; [cbn in Hfr; lia|].
      cbn [Legacy.transport_rx_loop].
      rewrite legacy_network_rx
        by (rewrite ?store_length; (assumption || lia)).
      cbn [nrx_buffer]. rewrite !app_nil_r.
      rewrite load_take_app by (rewrite ?store_length; lia).
      rewrite load_store_eq by (rewrite ?store_length; lia).
      rewrite char_of_byte_small by (unfold Legacy.SEGID_END_OF_MESSAGE; lia).
      change (Legacy.SEGID_END_OF_MESSAGE =? Legacy.SEGID_DATA) with false.
      change (Legacy.SEGID_END_OF_MESSAGE =? Legacy.SEGID_END_OF_MESSAGE)
        with true.
      cbv iota.
      replace (copied k) with (Z.to_nat (Z.min message_len buf_len)) by lia.
      reflexivity.
Qed.

Lemma legacy_round_trip (message_length_uninitialised : Z) :
  exists trace stores,
    Legacy.transport_tx SENDER_PORT SENDER_NETWORK_ADDR resolve_network_addr
      sender_resolve_data_link_addr sender_next_hop_uninitialised
      START_SEGMENT_HEADER_LEN DATA_SEGMENT_HEADER_LEN END_SEGMENT_HEADER_LEN
      message message_len dest_port = Returned trace /\
    Legacy.transport_rx MY_NETWORK_ADDR resolve_data_link_addr char_is_signed
      next_hop_uninitialised DATA_SEGMENT_HEADER_LEN
      message_length_uninitialised buffer buf_len (Legacy.frames_of trace)
    = Legacy.Transport_rx_return (Returned message_len)
        (take (Z.to_nat (Z.min message_len buf_len)) message
           ++ drop (Z.to_nat (Z.min message_len buf_len)) buffer)
        stores [] [].
Proof.
  unfold Legacy.transport_tx. cbv zeta.
  rewrite header_stores_5 by (rewrite length_replicate; vm_compute; lia).
  assert (Hb0 : byte_of_int message_len = message_len)
    by (unfold byte_of_int; apply Z.mod_small; lia).
  rewrite Hb0.
  set (seg0 := [byte_of_int START_SEGMENT_HEADER_LEN; byte_of_int dest_port;
                byte_of_int SENDER_PORT; Legacy.SEGID_START_OF_MESSAGE;
                message_len]
                 ++ drop 5 (replicate (Z.to_nat MAX_SEGMENT_LEN) 0)).
  assert (Hseg0 : length seg0 = 28%nat) by reflexivity.
  set (delivered := take (Z.to_nat START_SEGMENT_HEADER_LEN) seg0
                      ++ drop (Z.to_nat START_SEGMENT_HEADER_LEN)
                           (replicate (Z.to_nat MAX_SEGMENT_LEN) 0)).
  assert (Hdel : length delivered = 28%nat).
  { subst delivered. rewrite length_app, length_take, length_drop, Hseg0.
    change (length (replicate (Z.to_nat MAX_SEGMENT_LEN) 0)) with 28%nat.
    lia. }
  destruct (legacy_data_phase message_len [] [] (Z.to_nat message_len) 0
              message_len seg0 delivered []
              [send seg0 START_SEGMENT_HEADER_LEN dest_port;
               Legacy.Delay_ms Legacy.TRANSPORT_DELAY_MS])
    as (t & stores & Htx & Hrx); try assumption; try lia.
  exists ([send seg0 START_SEGMENT_HEADER_LEN dest_port;
           Legacy.Delay_ms Legacy.TRANSPORT_DELAY_MS] ++ t), stores.
  split; [exact Htx|].
  unfold Legacy.transport_rx.
  change (Legacy.frames_of
            ([send seg0 START_SEGMENT_HEADER_LEN dest_port;
              Legacy.Delay_ms Legacy.TRANSPORT_DELAY_MS] ++ t))
    with (Legacy.frames_of (send seg0 START_SEGMENT_HEADER_LEN dest_port :: t)).
  cbn [Legacy.transport_rx_loop].
  rewrite <- (app_nil_r (Legacy.frames_of
                           (send seg0 START_SEGMENT_HEADER_LEN dest_port :: t)))
    at 1.
  rewrite legacy_network_rx
    by (try assumption; try lia; rewrite length_replicate; reflexivity).
  cbn [nrx_buffer app]. fold delivered.
  assert (Hd3 : load delivered 3 = Legacy.SEGID_START_OF_MESSAGE)
    by (subst delivered; rewrite load_take_app by lia; reflexivity).
  assert (Hd4 : load delivered 4 = message_len)
    by (subst delivered; rewrite load_take_app by lia; reflexivity).
  rewrite Hd3, Hd4.
  rewrite !char_of_byte_small
    by (unfold Legacy.SEGID_START_OF_MESSAGE; lia).
  change (Legacy.SEGID_START_OF_MESSAGE =? Legacy.SEGID_START_OF_MESSAGE)
    with true.
  cbv iota.
  replace (copied 0) with 0%nat in Hrx by lia.
  rewrite take_0, drop_0 in Hrx. cbn [app] in Hrx.
  apply Hrx.
  unfold Legacy.frames_of, Legacy.transport_tx_send.
  cbn [map concat app length]. lia.
Qed.

End LegacyTransport.

(** X11. Round trip of the first transport layer over the network and
    data-link layers. For header lengths that leave room for the fields
    and for payload, a message of at most 127 bytes and a destination port
    that resolves to the receiving node (address below 128):
    [transport_tx] terminates, and a [transport_rx] on the receiving node
    that reads the frames it transmitted, in order, returns the message
    length with the first [min(message_len, buf_len)] bytes of the message
    at the start of the buffer and the cells after them as they were;
    nothing is forwarded, no frame is left unread, and the result is the
    same for signed and unsigned [char]. *)
Theorem legacy_transport_round_trip
    (SENDER_PORT SENDER_NETWORK_ADDR : Z) (resolve_network_addr : Z -> Z)
    (sender_resolve_data_link_addr : Z -> Z)
    (sender_next_hop_uninitialised : Z)
    (MY_NETWORK_ADDR : Z) (resolve_data_link_addr : Z -> Z)
    (char_is_signed : bool) (next_hop_uninitialised : Z)
    (START_SEGMENT_HEADER_LEN DATA_SEGMENT_HEADER_LEN END_SEGMENT_HEADER_LEN : Z)
    (message : list Z) (message_len dest_port : Z)
    (message_length_uninitialised : Z) (buffer : list Z) (buf_len : Z) :
  5 <= START_SEGMENT_HEADER_LEN <= 28 ->
  5 <= DATA_SEGMENT_HEADER_LEN < 28 ->
  4 <= END_SEGMENT_HEADER_LEN <= 28 ->
  0 <= message_len <= 127 ->
  message_len <= Z.of_nat (length message) ->
  resolve_network_addr dest_port = MY_NETWORK_ADDR ->
  0 <= MY_NETWORK_ADDR < 128 ->
  0 <= buf_len <= Z.of_nat (length buffer) ->
  exists trace stores,
    Legacy.transport_tx SENDER_PORT SENDER_NETWORK_ADDR resolve_network_addr
      sender_resolve_data_link_addr sender_next_hop_uninitialised
      START_SEGMENT_HEADER_LEN DATA_SEGMENT_HEADER_LEN END_SEGMENT_HEADER_LEN
      message message_len dest_port = Returned trace /\
    Legacy.transport_rx MY_NETWORK_ADDR resolve_data_link_addr char_is_signed
      next_hop_uninitialised DATA_SEGMENT_HEADER_LEN
      message_length_uninitialised buffer buf_len (Legacy.frames_of trace)
    = Legacy.Transport_rx_return (Returned message_len)
        (take (Z.to_nat (Z.min message_len buf_len)) message
           ++ drop (Z.to_nat (Z.min message_len buf_len)) buffer)
        stores [] [].
Proof.
  intros Hstart Hdata Hend Hlen Hmsg Hdest Haddr Hbuf.
  apply legacy_round_trip; assumption.
Qed.

(** The 50-byte message from node 0x3C to node 0x0A with the header
    lengths 5, 5 and 4 of the comments in the source, received with room
    for 40 bytes. *)
Lemma legacy_transport_round_trip_witness :
  exists trace stores,
    Legacy.transport_tx 0x3C 0x3C example_resolve_network_addr
      example_resolve_data_link_addr 0 5 5 4 example_message 50 0x0A
    = Returned trace /\
    Legacy.transport_rx 0x0A example_resolve_data_link_addr true 0 5 0
      (replicate 40 0xFF) 40 (Legacy.frames_of trace)
    = Legacy.Transport_rx_return (Returned 50)
        (take (Z.to_nat (Z.min 50 40)) example_message
           ++ drop (Z.to_nat (Z.min 50 40)) (replicate 40 0xFF))
        stores [] [].
Proof.
  apply (legacy_transport_round_trip 0x3C 0x3C example_resolve_network_addr
           example_resolve_data_link_addr 0 0x0A
           example_resolve_data_link_addr true 0 5 5 4 example_message 50
           0x0A 0 (replicate 40 0xFF) 40).
  - lia.
  - lia.
  - lia.
  - lia.
  - vm_compute. discriminate.
  - reflexivity.
  - lia.
  - vm_compute. split; discriminate.
Defined.
(** The stores of the older copy loop are appended to the log. *)
Lemma legacy_copy_data_appends (char_is_signed : bool)
    (DATA_SEGMENT_HEADER_LEN : Z) (segment : list Z) (buf_len : Z)
    (buffer : list Z) (stores : list (Z * Z)) :
  exists new,
    snd (Legacy.transport_rx_copy_data char_is_signed DATA_SEGMENT_HEADER_LEN
           segment buf_len buffer stores) = stores ++ new /\
    (0 <= char_of_byte char_is_signed (load segment 4) ->
     Forall (store_in_bounds buf_len) new).
Proof.
  unfold Legacy.transport_rx_copy_data. cbv zeta.
  set (offset := char_of_byte char_is_signed (load segment 4)).
  match goal with
  | |- context [for_loop ?fuel ?cond ?body 0 (buffer, stores)] =>
      pose proof (for_loop_invariant cond body
                    (fun j bs =>
                       0 <= j /\
                       exists new,
                         snd bs = stores ++ new /\
                         (0 <= offset ->
                          Forall (store_in_bounds buf_len) new))) as Hinv;
      set (loop := for_loop fuel cond body 0 (buffer, stores)) in *
  end.
  apply Hinv.
  - intros j [b st] (Hj & new & Hst & Hnew) _. cbn [fst snd] in *.
    split; [lia|].
    destruct (Z.ltb_spec (j + offset) buf_len) as [Hlt|Hge]; cbn [fst snd].
    + eexists (new ++ [_]). split.
      * rewrite Hst, <- app_assoc. reflexivity.
      * intros Hoff. apply Forall_app. split; [exact (Hnew Hoff)|].
        constructor; [|constructor].
        unfold store_in_bounds. cbn [fst]. lia.
    + exists new. split; assumption.
  - split; [lia|]. exists []. split; [symmetry; apply app_nil_r|].
    intros _. constructor.
Qed.

(** X12. The copy loop of the older [transport_rx]. When [char] is
    unsigned and the cells of the segment are bytes, every store it makes
    is inside the buffer, at an index in [0, buf_len). When [char] is
    signed, as for avr-gcc without -funsigned-char, a DATA segment with a
    payload whose offset byte is 0x80 or more has its first byte stored at
    the index [offset byte - 256], before the start of the buffer. So a
    message of 160 bytes sent by [transport_tx] with 5-byte headers is
    stored by such a receiver at the indices 0, ..., 137 and then, for the
    segment at offset 138, at the indices -118, ..., -97. *)
Theorem legacy_transport_rx_copy_stores :
  (forall (DATA_SEGMENT_HEADER_LEN : Z) (segment : list Z) (buf_len : Z)
          (buffer : list Z) (stores : list (Z * Z)),
      0 <= load segment 4 ->
      exists new,
        snd (Legacy.transport_rx_copy_data false DATA_SEGMENT_HEADER_LEN
               segment buf_len buffer stores) = stores ++ new /\
        Forall (store_in_bounds buf_len) new) /\
  (forall (DATA_SEGMENT_HEADER_LEN : Z) (segment : list Z) (buf_len : Z)
          (buffer : list Z) (stores : list (Z * Z)),
      128 <= load segment 4 < 256 ->
      0 <= load segment 0 < 128 ->
      DATA_SEGMENT_HEADER_LEN < load segment 0 ->
      0 <= buf_len ->
      exists later,
        snd (Legacy.transport_rx_copy_data true DATA_SEGMENT_HEADER_LEN
               segment buf_len buffer stores)
        = stores
            ++ (load segment 4 - 256,
                load segment (0 + DATA_SEGMENT_HEADER_LEN)) :: later) /\
  match Legacy.transport_tx 0x3C 0x3C example_resolve_network_addr
          example_resolve_data_link_addr 0 5 5 4 (replicate 160 1) 160 0x0A
  with
  | Returned trace =>
      map fst
        (Legacy.rx_stores
           (Legacy.transport_rx 0x0A example_resolve_data_link_addr true 0 5
              0 (replicate 160 0) 160 (Legacy.frames_of trace)))
      = seqZ 0 138 ++ seqZ (-118) 22
  | Blocked => False
  end.
Proof.
  split; [|split].
  - intros H segment buf_len buffer stores H4.
    destruct (legacy_copy_data_appends false H segment buf_len buffer stores)
      as (new & Hnew & Hin).
    exists new. split; [exact Hnew|]. apply Hin.
    unfold char_of_byte. cbn [andb]. exact H4.
  - intros H segment buf_len buffer stores H4 H0 Hpl Hbuf.
    unfold Legacy.transport_rx_copy_data. cbv zeta.
    assert (Hoff : char_of_byte true (load segment 4) = load segment 4 - 256).
    { unfold char_of_byte. cbn [andb].
      destruct (Z.leb_spec 128 (load segment 4)); [reflexivity | lia]. }
    rewrite Hoff, (char_of_byte_small true (load segment 0)) by lia.
    set (pl := load segment 0 - H).
    destruct (Z.to_nat pl) as [|fuel] eqn:Hfuel; [lia|].
    cbn [for_loop].
    destruct (Z.ltb_spec 0 pl); [|lia].
    destruct (Z.ltb_spec (0 + (load segment 4 - 256)) buf_len); [|lia].
    cbn [fst snd].
    match goal with
    | |- context [for_loop fuel ?cond ?body ?i ?s] =>
        pose proof (for_loop_invariant cond body
                      (fun _ bs =>
                         exists later,
                           snd bs
                           = stores
                               ++ (load segment 4 - 256,
                                   load segment (0 + H)) :: later)) as Hinv;
        set (loop := for_loop fuel cond body i s) in *
    end.
    apply Hinv.
    + intros j [b st] (later & Hst) _. cbn [fst snd] in *.
      destruct (j + (load segment 4 - 256) <? buf_len); cbn [snd].
      * eexists (later ++ [_]). rewrite Hst, <- app_assoc. reflexivity.
      * exists later. exact Hst.
    + exists []. cbn [snd]. rewrite Z.add_0_l. reflexivity.
  - vm_compute. reflexivity.
Qed.

(** A DATA segment with 3 payload bytes and the offset byte 0x90, seen
    by a receiver with signed [char]. *)
Lemma legacy_transport_rx_copy_stores_witness :
  exists later,
    snd (Legacy.transport_rx_copy_data true 5 [8; 0x0A; 0x3C; 0x0D; 0x90; 1; 2; 3]
           10 (replicate 10 0) [])
    = [] ++ (0x90 - 256, 1) :: later.
Proof.
  destruct legacy_transport_rx_copy_stores as (_ & Hsigned & _).
  apply (Hsigned 5 [8; 0x0A; 0x3C; 0x0D; 0x90; 1; 2; 3] 10 (replicate 10 0) []).
  - vm_compute. split; [discriminate | reflexivity].
  - vm_compute. split; [discriminate | reflexivity].
  - reflexivity.
  - lia.
Defined.

(** ** SPI transactions *)

Lemma exchanges_app (slave : Z -> Z) (l1 l2 : list Z) :
  forall i : Z,
    Spi.exchanges slave i (l1 ++ l2)
    = Spi.exchanges slave i l1
        ++ Spi.exchanges slave (i + Z.of_nat (length l1)) l2.
Proof.
  induction l1 as [|b l1 IH]; intros i; cbn [app Spi.exchanges length].
  - rewrite Z.add_0_r. reflexivity.
  - rewrite IH. do 3 f_equal. lia.
Qed.

Lemma exchanges_length (slave : Z -> Z) (l : list Z) :
  forall i : Z, length (Spi.exchanges slave i l) = length l.
Proof.
  induction l as [|b l IH]; intros i; cbn [Spi.exchanges length];
    [reflexivity|].
  rewrite IH. reflexivity.
Qed.

Lemma spi_responses_add (slave : Z -> Z) (response_beginning_index : Z)
    (n1 n2 : nat) :
  forall (i : Z) (response : option (list Z)),
    spi_responses slave response_beginning_index i (n1 + n2) response
    = spi_responses slave response_beginning_index (i + Z.of_nat n1) n2
        (spi_responses slave response_beginning_index i n1 response).
Proof.
  induction n1 as [|n1 IH]; intros i response; cbn [spi_responses Nat.add].
  - rewrite Z.add_0_r. reflexivity.
  - rewrite IH.
    replace (i + 1 + Z.of_nat n1) with (i + Z.of_nat (S n1)) by lia.
    reflexivity.
Qed.

Lemma spi_responses_null (slave : Z -> Z) (response_beginning_index : Z)
    (n : nat) :
  forall i : Z, spi_responses slave response_beginning_index i n None = None.
Proof. induction n as [|n IH]; intros i; cbn [spi_responses]; auto. Qed.

(** The array after the exchanges 0, ..., [n - 1], in closed form. *)
Lemma spi_responses_closed (slave : Z -> Z) (response_beginning_index : Z)
    (r : list Z) :
  0 <= response_beginning_index ->
  forall (n : nat) (i : Z),
    0 <= i ->
    i + Z.of_nat n - response_beginning_index <= Z.of_nat (length r) ->
    let done j := Z.max 0 (j - response_beginning_index) in
    spi_responses slave response_beginning_index i n
      (Some (map slave (seqZ response_beginning_index (done i))
               ++ drop (Z.to_nat (done i)) r))
    = Some (map slave (seqZ response_beginning_index (done (i + Z.of_nat n)))
              ++ drop (Z.to_nat (done (i + Z.of_nat n))) r).
Proof.
  intros Hrbi. induction n as [|n IH]; intros i Hi Hlen done;
    cbn [spi_responses].
  - rewrite Z.add_0_r. reflexivity.
  - subst done. cbv beta in *.
    replace (i + Z.of_nat (S n)) with (i + 1 + Z.of_nat n) by lia.
    rewrite <- IH by lia. f_equal.
    destruct (Z.geb_spec i response_beginning_index) as [Hge|Hlt].
    + f_equal.
      replace (Z.max 0 (i - response_beginning_index))
        with (i - response_beginning_index) by lia.
      replace (Z.max 0 (i + 1 - response_beginning_index))
        with (i - response_beginning_index + 1) by lia.
      set (m := i - response_beginning_index).
      unfold store. destruct (Z.ltb_spec m 0); [lia|].
      apply list_eq. intros j.
      assert (Hmap : length (map slave (seqZ response_beginning_index m))
                     = Z.to_nat m)
        by (rewrite length_map, length_seqZ; lia).
      assert (Hmap1 : length (map slave (seqZ response_beginning_index (m + 1)))
                      = S (Z.to_nat m))
        by (rewrite length_map, length_seqZ; lia).
      destruct (lt_eq_lt_dec j (Z.to_nat m)) as [[Hj|Hj]|Hj].
      * rewrite list_lookup_insert_ne by lia.
        rewrite !lookup_app_l by lia.
        change (map slave ?l) with (slave <$> l).
        rewrite !list_lookup_fmap, !lookup_seqZ_lt by lia. reflexivity.
      * subst j.
        rewrite list_lookup_insert_eq
          by (rewrite length_app, length_drop; lia).
        rewrite lookup_app_l by lia.
        change (map slave ?l) with (slave <$> l).
        rewrite list_lookup_fmap, lookup_seqZ_lt by lia.
        cbn [fmap option_fmap option_map]. do 2 f_equal. lia.
      * rewrite list_lookup_insert_ne by lia.
        rewrite !lookup_app_r by lia.
        rewrite Hmap, Hmap1, !lookup_drop. f_equal. lia.
    + replace (Z.max 0 (i - response_beginning_index)) with 0 by lia.
      replace (Z.max 0 (i + 1 - response_beginning_index)) with 0 by lia.
      reflexivity.
Qed.

Section SpiTransaction.

Variable SPI_TRANSACTION_MAX_LENGTH : Z.
Variable slave : Z -> Z.
Variable response_beginning_index : Z.
Variable section_count : Z.

Abbreviation loop :=
  (Spi.transaction_loop slave).
Abbreviation responses :=
  (spi_responses slave response_beginning_index).

(** The exchanges that finish the current section. *)
Lemma spi_section_run (sec : option (list Z)) (len sidx : Z)
    (args : list Spi.transaction_section) :
  match sec with
  | None => True
  | Some bytes => len <= Z.of_nat (length bytes)
  end ->
  forall (k fuel : nat) (idx i : Z) (resp : option (list Z))
         (tr : list Spi.event),
    0 <= idx -> idx + Z.of_nat k = len ->
    loop (k + fuel) response_beginning_index section_count i
      (Spi.Transaction sec len sidx idx args resp tr)
    = loop fuel response_beginning_index section_count (i + Z.of_nat k)
        (Spi.Transaction sec len sidx len args (responses i k resp)
           (tr ++ Spi.exchanges slave i
                    (drop (Z.to_nat idx)
                       (Spi.section_bytes (Spi.Transaction_section sec len))))).
Proof.
  intros Hsec.
  assert (Hbytes : length (Spi.section_bytes (Spi.Transaction_section sec len))
                   = Z.to_nat len).
  { unfold Spi.section_bytes. cbn [Spi.section_data Spi.section_data_length].
    destruct sec as [bytes|].
    - rewrite length_take. lia.
    - apply length_replicate. }
  induction k as [|k IH]; intros fuel idx i resp tr Hidx Hk.
  - cbn [Nat.add spi_responses]. rewrite Z.add_0_r.
    replace idx with len by lia.
    rewrite drop_ge by lia. cbn [Spi.exchanges]. rewrite app_nil_r.
    reflexivity.
  - cbn [Nat.add Spi.transaction_loop]. unfold Spi.next_section.
    cbn [Spi.next_element_index Spi.section_length].
    destruct (Z.eqb_spec idx len); [lia|].
    unfold Spi.exchange.
    cbn [Spi.section Spi.section_length Spi.section_index
         Spi.next_element_index Spi.args Spi.response Spi.trace].
    rewrite IH by lia. cbn [spi_responses].
    replace (i + 1 + Z.of_nat k) with (i + Z.of_nat (S k)) by lia.
    do 2 f_equal. rewrite <- app_assoc. f_equal.
    assert (Hhead : drop (Z.to_nat idx)
                      (Spi.section_bytes (Spi.Transaction_section sec len))
                    = match sec with
                      | Some bytes => load bytes idx
                      | None => 0
                      end
                      :: drop (Z.to_nat (idx + 1))
                           (Spi.section_bytes (Spi.Transaction_section sec len))).
    { replace (Z.to_nat (idx + 1)) with (S (Z.to_nat idx)) by lia.
      apply drop_S. unfold Spi.section_bytes.
      cbn [Spi.section_data Spi.section_data_length].
      destruct sec as [bytes|].
      - rewrite lookup_take_lt by lia. unfold load.
        destruct (Z.ltb_spec idx 0); [lia|].
        destruct (bytes !! Z.to_nat idx) eqn:Hb; [reflexivity|].
        apply lookup_ge_None in Hb. lia.
      - apply lookup_replicate. split; [reflexivity | lia]. }
    rewrite Hhead. reflexivity.
Qed.

Lemma section_bytes_length (a : Spi.transaction_section) :
  Spi.section_ok a ->
  Z.of_nat (length (Spi.section_bytes a)) = Spi.section_data_length a.
Proof.
  intros [Hlen Hdata]. unfold Spi.section_bytes.
  destruct (Spi.section_data a) as [bytes|].
  - rewrite length_take. lia.
  - rewrite length_replicate. lia.
Qed.

(** Moving on to a section that is not empty is like being at its start. *)
Lemma spi_section_switch (sec : option (list Z)) (len sidx i : Z)
    (a : Spi.transaction_section) (args : list Spi.transaction_section)
    (resp : option (list Z)) (tr : list Spi.event) (fuel : nat) :
  sidx + 1 <> section_count ->
  Spi.section_data_length a <> 0 ->
  loop (S fuel) response_beginning_index section_count i
    (Spi.Transaction sec len sidx len (a :: args) resp tr)
  = loop (S fuel) response_beginning_index section_count i
      (Spi.Transaction (Spi.section_data a) (Spi.section_data_length a)
         (sidx + 1) 0 args resp tr).
Proof.
  intros Hcount Hlen. cbn [Spi.transaction_loop]. unfold Spi.next_section.
  cbn [Spi.next_element_index Spi.section_length Spi.section_index Spi.args
       Spi.section Spi.response Spi.trace].
  rewrite Z.eqb_refl.
  destruct (Z.eqb_spec (sidx + 1) section_count); [contradiction|].
  destruct (Z.eqb_spec 0 (Spi.section_data_length a)); [lia|].
  reflexivity.
Qed.

(** The current section and the sections [pre] after it, sent in full:
    the loop arrives at the end of the last of them. *)
Lemma spi_sections_run (more : list Spi.transaction_section) :
  forall (pre : list Spi.transaction_section) (sec : option (list Z))
         (len sidx idx i : Z) (resp : option (list Z))
         (tr : list Spi.event) (extra : nat),
    match sec with
    | None => True
    | Some bytes => len <= Z.of_nat (length bytes)
    end ->
    0 <= idx <= len ->
    Forall Spi.section_ok pre ->
    sidx + Z.of_nat (length pre) < section_count ->
    let mosi :=
      drop (Z.to_nat idx) (Spi.section_bytes (Spi.Transaction_section sec len))
        ++ concat (map Spi.section_bytes pre) in
    exists sec' len',
      loop (length mosi + extra) response_beginning_index section_count i
        (Spi.Transaction sec len sidx idx (pre ++ more) resp tr)
      = loop extra response_beginning_index section_count
          (i + Z.of_nat (length mosi))
          (Spi.Transaction sec' len' (sidx + Z.of_nat (length pre)) len' more
             (responses i (length mosi) resp)
             (tr ++ Spi.exchanges slave i mosi)).
Proof.
  induction pre as [|a pre IH];
    intros sec len sidx idx i resp tr extra Hsec Hidx Hpre Hcount mosi;
    subst mosi.
  - cbn [map concat app length]. rewrite app_nil_r, Z.add_0_r.
    exists sec, len.
    assert (Hk : length (drop (Z.to_nat idx)
                           (Spi.section_bytes (Spi.Transaction_section sec len)))
                 = Z.to_nat (len - idx)).
    { rewrite length_drop. unfold Spi.section_bytes.
      cbn [Spi.section_data Spi.section_data_length].
      destruct sec; rewrite ?length_take, ?length_replicate; lia. }
    rewrite Hk.
    rewrite (spi_section_run sec len sidx more Hsec) by lia.
    reflexivity.
  - inversion Hpre as [|? ? Ha Hpre']; subst.
    pose proof (section_bytes_length a Ha) as Hla.
    destruct Ha as [Hlen Hdata]. cbn [map concat app length] in *.
    set (cur := drop (Z.to_nat idx)
                  (Spi.section_bytes (Spi.Transaction_section sec len))).
    assert (Hk : length cur = Z.to_nat (len - idx)).
    { subst cur. rewrite length_drop. unfold Spi.section_bytes.
      cbn [Spi.section_data Spi.section_data_length].
      destruct sec; rewrite ?length_take, ?length_replicate; lia. }
    set (rest := Spi.section_bytes a ++ concat (map Spi.section_bytes pre)).
    destruct (IH (Spi.section_data a) (Spi.section_data_length a) (sidx + 1) 0
                (i + Z.of_nat (length cur))
                (responses i (length cur) resp)
                (tr ++ Spi.exchanges slave i cur) extra)
      as (sec' & len' & Hrun); try assumption; try lia.
    exists sec', len'.
    rewrite length_app, <- Nat.add_assoc, Hk.
    rewrite (spi_section_run sec len sidx (a :: pre ++ more) Hsec) by lia.
    fold cur. rewrite <- Hk.
    assert (Hrest : (length rest + extra)%nat
                    = S (Nat.pred (length rest) + extra)).
    { subst rest. rewrite length_app. lia. }
    rewrite Hrest, spi_section_switch by lia. rewrite <- Hrest.
    change (drop (Z.to_nat 0) ?l) with l in Hrun.
    assert (Ha' : Spi.Transaction_section (Spi.section_data a)
                    (Spi.section_data_length a) = a) by (destruct a; reflexivity).
    rewrite Ha' in Hrun. fold rest in Hrun. rewrite Hrun.
    f_equal; [lia|].
    f_equal.
    + lia.
    + rewrite spi_responses_add. reflexivity.
    + rewrite <- app_assoc, <- exchanges_app. reflexivity.
Qed.

(** In an empty NULL section that was not the first, the index has passed
    the length: zeros go out for as long as the loop runs. *)
Lemma spi_section_overrun (sidx : Z) (args : list Spi.transaction_section) :
  forall (fuel : nat) (idx i : Z) (resp : option (list Z))
         (tr : list Spi.event),
    0 < idx ->
    loop fuel response_beginning_index section_count i
      (Spi.Transaction None 0 sidx idx args resp tr)
    = Some (Spi.Transaction None 0 sidx (idx + Z.of_nat fuel) args
              (responses i fuel resp)
              (tr ++ Spi.exchanges slave i (replicate fuel 0))).
Proof.
  induction fuel as [|fuel IH]; intros idx i resp tr Hidx.
  - cbn. rewrite Z.add_0_r, app_nil_r. reflexivity.
  - cbn [Spi.transaction_loop]. unfold Spi.next_section.
    cbn [Spi.next_element_index Spi.section_length].
    destruct (Z.eqb_spec idx 0); [lia|].
    unfold Spi.exchange.
    cbn [Spi.section Spi.section_length Spi.section_index
         Spi.next_element_index Spi.args Spi.response Spi.trace].
    rewrite IH by lia. cbn [spi_responses replicate Spi.exchanges].
    rewrite <- app_assoc. cbn [app]. do 2 f_equal. lia.
Qed.

End SpiTransaction.
(** X13. [spi_execute_transaction] with sections that can be sent in
    full (each at least one byte long, with an array that holds the bytes
    announced, or NULL) and together no longer than
    [SPI_TRANSACTION_MAX_LENGTH]: the device is selected, the bytes of the
    sections go out in order, zeros for a NULL section, one exchange per
    byte, and the device is released. The byte received in exchange [j]
    is stored in [response[j - response_beginning_index]] from
    [j = response_beginning_index] on; the bytes received before are
    dropped and the rest of the array is left alone. With [response] NULL
    the bus sees the same and nothing is stored. *)
Theorem spi_execute_transaction_sends_sections
    (SPI_TRANSACTION_MAX_LENGTH : Z) (slave : Z -> Z) (response : list Z)
    (response_beginning_index : Z) (a : Spi.transaction_section)
    (args : list Spi.transaction_section) :
  Forall Spi.section_ok (a :: args) ->
  (length (a :: args) < 256)%nat ->
  let mosi := concat (map Spi.section_bytes (a :: args)) in
  Z.of_nat (length mosi) <= SPI_TRANSACTION_MAX_LENGTH ->
  0 <= response_beginning_index ->
  Z.of_nat (length mosi) - response_beginning_index
    <= Z.of_nat (length response) ->
  let n := Z.max 0 (Z.of_nat (length mosi) - response_beginning_index) in
  let bus :=
    [Spi.Select_device] ++ Spi.exchanges slave 0 mosi
      ++ [Spi.Release_device] in
  Spi.spi_execute_transaction SPI_TRANSACTION_MAX_LENGTH slave (Some response)
    response_beginning_index (Z.of_nat (length (a :: args))) (a :: args)
  = Some (bus,
          Some (map slave (seqZ response_beginning_index n)
                  ++ drop (Z.to_nat n) response)) /\
  Spi.spi_execute_transaction SPI_TRANSACTION_MAX_LENGTH slave None
    response_beginning_index (Z.of_nat (length (a :: args))) (a :: args)
  = Some (bus, None).
Proof.
  intros Hok Hcount mosi Hmax Hrbi Hroom n bus.
  inversion Hok as [|? ? Ha Hargs]; subst.
  assert (Hrun : forall resp,
    Spi.spi_execute_transaction SPI_TRANSACTION_MAX_LENGTH slave resp
      response_beginning_index (Z.of_nat (length (a :: args))) (a :: args)
    = Some (bus,
            spi_responses slave response_beginning_index 0 (length mosi) resp)).
  { intros resp. unfold Spi.spi_execute_transaction.
    replace (Z.to_nat SPI_TRANSACTION_MAX_LENGTH)
      with (length mosi
            + (Z.to_nat SPI_TRANSACTION_MAX_LENGTH - length mosi))%nat by lia.
    destruct (spi_sections_run slave response_beginning_index
                (Z.of_nat (length (a :: args))) [] args (Spi.section_data a)
                (Spi.section_data_length a) 0 0 0 resp [Spi.Select_device]
                (Z.to_nat SPI_TRANSACTION_MAX_LENGTH - length mosi))
      as (sec' & len' & Hloop).
    - destruct Ha as [_ Hdata]. exact Hdata.
    - destruct Ha as [Hlen _]. lia.
    - exact Hargs.
    - cbn [length]. lia.
    - rewrite app_nil_r in Hloop.
      change (drop (Z.to_nat 0) ?l) with l in Hloop.
      assert (Ha' : Spi.Transaction_section (Spi.section_data a)
                      (Spi.section_data_length a) = a)
        by (destruct a; reflexivity).
      rewrite Ha' in Hloop.
      change (Spi.section_bytes a ++ concat (map Spi.section_bytes args))
        with mosi in Hloop.
      rewrite Hloop.
      destruct (Z.to_nat SPI_TRANSACTION_MAX_LENGTH - length mosi)%nat
        as [|extra].
      + reflexivity.
      + cbn [Spi.transaction_loop]. unfold Spi.next_section.
        cbn [Spi.next_element_index Spi.section_length Spi.section_index
             Spi.args Spi.section Spi.response Spi.trace length].
        rewrite Z.eqb_refl.
        replace (0 + Z.of_nat (length args) + 1)
          with (Z.of_nat (S (length args))) by lia.
        rewrite Z.eqb_refl. reflexivity. }
  split.
  - rewrite Hrun. do 2 f_equal.
    pose proof (spi_responses_closed slave response_beginning_index response
                  Hrbi (length mosi) 0 ltac:(lia) ltac:(lia)) as Hc.
    cbv zeta beta in Hc.
    replace (Z.max 0 (0 - response_beginning_index)) with 0 in Hc by lia.
    rewrite seqZ_nil in Hc by lia.
    change (drop (Z.to_nat 0) response) with response in Hc.
    cbn [map app] in Hc. rewrite Hc. reflexivity.
  - rewrite Hrun, spi_responses_null. reflexivity.
Qed.

(** A two-byte command and three NULL bytes, with the first byte received
    dropped. *)
Lemma spi_execute_transaction_sends_sections_witness :
  Spi.spi_execute_transaction 8 (fun j => 100 + j) (Some (replicate 6 0)) 1 2
    [Spi.Transaction_section (Some [0x61; 0x07]) 2;
     Spi.Transaction_section None 3]
  = Some ([Spi.Select_device; Spi.Exchange 0x61 100; Spi.Exchange 0x07 101;
           Spi.Exchange 0 102; Spi.Exchange 0 103; Spi.Exchange 0 104;
           Spi.Release_device],
          Some [101; 102; 103; 104; 0; 0]).
Proof.
  refine (proj1 (spi_execute_transaction_sends_sections 8 (fun j => 100 + j)
                   (replicate 6 0) 1
                   (Spi.Transaction_section (Some [0x61; 0x07]) 2)
                   [Spi.Transaction_section None 3] _ _ _ _ _)).
  - repeat constructor; cbn; lia.
  - cbn [length]. lia.
  - vm_compute. discriminate.
  - lia.
  - vm_compute. discriminate.
Defined.



(** ** The rover's bench program *)

Lemma BV_testbit (bit n : Z) :
  0 <= bit -> Z.testbit (Bench._BV bit) n = (bit =? n).
Proof.
  intros Hbit. unfold Bench._BV. rewrite Z.shiftl_1_l.
  apply Z.pow2_bits_eqb. exact Hbit.
Qed.

Lemma set_bit_testbit (reg bit n : Z) :
  0 <= bit < 8 -> 0 <= n ->
  Z.testbit (Bench.set_bit reg bit) n
  = (n <? 8) && (Z.testbit reg n || (bit =? n)).
Proof.
  intros Hbit Hn. unfold Bench.set_bit, byte_of_int.
  change 256 with (2 ^ 8).
  destruct (Z.ltb_spec n 8).
  - rewrite Z.mod_pow2_bits_low by lia.
    rewrite Z.lor_spec, BV_testbit by lia. reflexivity.
  - rewrite Z.mod_pow2_bits_high by lia. reflexivity.
Qed.

Lemma clear_bit_testbit (reg bit n : Z) :
  0 <= bit < 8 -> 0 <= n ->
  Z.testbit (Bench.clear_bit reg bit) n
  = (n <? 8) && (Z.testbit reg n && negb (bit =? n)).
Proof.
  intros Hbit Hn. unfold Bench.clear_bit, byte_of_int.
  change 256 with (2 ^ 8).
  destruct (Z.ltb_spec n 8).
  - rewrite Z.mod_pow2_bits_low by lia.
    rewrite Z.land_spec, Z.lnot_spec, BV_testbit by lia. reflexivity.
  - rewrite Z.mod_pow2_bits_high by lia. reflexivity.
Qed.

Lemma switch_state_testbit (pins index : Z) :
  0 <= index ->
  (Bench.switch_state pins index =? 1) = Z.testbit pins index.
Proof.
  intros Hindex. unfold Bench.switch_state.
  assert (H : Z.shiftr (Z.land pins (Bench._BV index)) index
              = if Z.testbit pins index then 1 else 0).
  { apply Z.bits_inj'. intros n Hn.
    rewrite Z.shiftr_spec, Z.land_spec, BV_testbit by lia.
    destruct (Z.eqb_spec index (n + index)) as [E|E].
    - assert (n = 0) by lia. subst n. rewrite Z.add_0_l.
      destruct (Z.testbit pins index); reflexivity.
    - rewrite andb_false_r.
      destruct (Z.testbit pins index).
      + symmetry. change 1 with (2 ^ 0). rewrite Z.pow2_bits_eqb by lia.
        apply Z.eqb_neq. lia.
      + symmetry. apply Z.bits_0. }
  rewrite H. destruct (Z.testbit pins index); reflexivity.
Qed.
Ltac bench_bits :=
  unfold Bench.both_high, Bench.DISPENSER1_INDEX, Bench.DISPENSER2_INDEX;
  repeat first [rewrite set_bit_testbit by lia
               |rewrite clear_bit_testbit by lia];
  repeat match goal with
         | |- context [?a <? ?b] => destruct (Z.ltb_spec a b); try lia
         | |- context [?a =? ?b] => destruct (Z.eqb_spec a b); try lia
         end;
  cbn [andb orb negb];
  rewrite ?andb_true_r, ?andb_false_r, ?orb_true_r, ?orb_false_r;
  try reflexivity.

(** X15. One turn of the loop of the bench program, whatever the port
    register holds and whatever is read from the input pins. It writes
    PORTB twice and changes no bit of it but those of the two dispenser
    pins. After the turn the first dispenser pin is high exactly if SW4 is
    read high, and the second exactly if SW4 is read low and SW3 high, so
    the two are never left high together; SW2 plays no part. Between the
    two writes both pins are high exactly if SW4 is read high while the
    second pin was high before: the turn that reverses the dispenser
    sets the first pin before it clears the second. *)
Theorem bench_loop_drives_dispenser (PORTB SW2_RD SW3_RD SW4_RD : Z) :
  let sw3 := Z.testbit SW3_RD Bench.SW3_INDEX in
  let sw4 := Z.testbit SW4_RD Bench.SW4_INDEX in
  exists first last,
    Bench.main_loop_body PORTB SW2_RD SW3_RD SW4_RD = [first; last] /\
    (forall n, 0 <= n < 8 -> n <> 1 -> n <> 2 ->
               Z.testbit first n = Z.testbit PORTB n /\
               Z.testbit last n = Z.testbit PORTB n) /\
    Z.testbit last Bench.DISPENSER1_INDEX = sw4 /\
    Z.testbit last Bench.DISPENSER2_INDEX = negb sw4 && sw3 /\
    Bench.both_high last = false /\
    Bench.both_high first = sw4 && Z.testbit PORTB Bench.DISPENSER2_INDEX.
Proof.
  intros sw3 sw4. subst sw3 sw4. unfold Bench.main_loop_body. cbv zeta.
  rewrite !switch_state_testbit
    by (unfold Bench.SW3_INDEX, Bench.SW4_INDEX; lia).
  destruct (Z.testbit SW4_RD Bench.SW4_INDEX);
    [|destruct (Z.testbit SW3_RD Bench.SW3_INDEX)];
    eexists _, _; (split; [reflexivity|]);
    (split; [intros n Hn H1 H2; split; bench_bits|]);
    repeat apply conj; bench_bits;
    destruct (Z.testbit PORTB 1), (Z.testbit PORTB 2); reflexivity.
Qed.

(** ** The rover's wall-following loop *)

(** X16. One turn of the wall-following loop with a steady reading [d]
    of the distance sensor. The right motor is driven forward at
    [SPEED_MAX]. Between 24 and 26 cm the left motor gets speed 0. From
    27 to 56 cm it is driven forward at [8 * (d - 25)], and from 23 down
    to -6 cm in reverse at [8 * (25 - d)], a speed between 16 and 248.
    The speed is cut to 8 bits, so it is 0 again at 57 cm (and at -7 cm):
    a wall 32 cm off the set point stops the left wheel. The distance is
    read anew for the speed: if the reading falls from above 26 to
    [d2 <= 24] between the test and the call, the left motor is driven
    forward, at [256 - 8 * (25 - d2)]. *)
Theorem rover_wall_following (SPEED_MAX d : Z) (rest : list Z) :
  -4000 <= d <= 4000 ->
  let turn := Rover.main_loop_body SPEED_MAX (d :: d :: d :: rest) in
  let right := Rover.Motor Rover.RIGHT_MOTOR Rover.FORWARD SPEED_MAX in
  let left direction speed := Rover.Motor Rover.LEFT_MOTOR direction speed in
  (24 <= d <= 26 ->
   turn = Returned ([right; left Rover.FORWARD 0], d :: rest)) /\
  (27 <= d <= 56 ->
   turn = Returned ([right; left Rover.FORWARD (8 * (d - 25))], d :: rest) /\
   16 <= 8 * (d - 25) <= 248) /\
  (-6 <= d <= 23 ->
   turn = Returned ([right; left Rover.REVERSE (8 * (25 - d))], rest) /\
   16 <= 8 * (25 - d) <= 248) /\
  (d = 57 ->
   turn = Returned ([right; left Rover.FORWARD 0], d :: rest)) /\
  (d = -7 ->
   turn = Returned ([right; left Rover.REVERSE 0], rest)) /\
  (forall d1 d2, 26 < d1 -> -6 <= d2 <= 24 ->
     Rover.main_loop_body SPEED_MAX (d1 :: d2 :: rest)
     = Returned ([right; left Rover.FORWARD (256 - 8 * (25 - d2))], rest)).
Proof.
  intros Hd turn right left. subst turn right left.
  unfold Rover.main_loop_body, byte_of_int.
  repeat apply conj.
  - intros H. destruct (Z.gtb_spec d 26); [lia|].
    destruct (Z.ltb_spec d 24); [lia|]. reflexivity.
  - intros H. destruct (Z.gtb_spec d 26); [|lia].
    rewrite Z.mod_small by lia. split; [reflexivity | lia].
  - intros H. destruct (Z.gtb_spec d 26); [lia|].
    destruct (Z.ltb_spec d 24); [|lia].
    rewrite Z.mod_small by lia. split; [reflexivity | lia].
  - intros ->. reflexivity.
  - intros ->. reflexivity.
  - intros d1 d2 H1 H2. destruct (Z.gtb_spec d1 26); [|lia].
    replace (8 * (d2 - 25)) with (256 - 8 * (25 - d2) + -1 * 256) by lia.
    rewrite Z.mod_add by lia. rewrite Z.mod_small by lia. reflexivity.
Qed.

(** A wall at 40 cm, and a reading that falls from 27 to 24 cm. *)
Lemma rover_wall_following_witness :
  Rover.main_loop_body 249 [40; 40; 40]
  = Returned ([Rover.Motor Rover.RIGHT_MOTOR Rover.FORWARD 249;
               Rover.Motor Rover.LEFT_MOTOR Rover.FORWARD 120], [40]) /\
  Rover.main_loop_body 249 [27; 24]
  = Returned ([Rover.Motor Rover.RIGHT_MOTOR Rover.FORWARD 249;
               Rover.Motor Rover.LEFT_MOTOR Rover.FORWARD 248], []).
Proof.
  destruct (rover_wall_following 249 40 [] ltac:(lia))
    as (_ & Hforward & _ & _ & _ & Hfall).
  split.
  - apply Hforward. lia.
  - apply (Hfall 27 24); lia.
Defined.
